(** * A shallow embedding of the Discord message scraper

    The development follows the TypeScript sources:

    - [config/constants.ts]            constants ([RATE_LIMIT], [MESSAGE_LIMITS], ...)
    - [core/rate-limiter/RateLimiter.ts]  [waitForRateLimit], [executeWithRetry]
    - [core/scraper/DiscordScraper.ts]    [fetchMessageBatch], [filterByTimestamp],
                                          [scrapeChannel]
    - [processor/CSVProcessor.ts]         [escapeCSVField], [rowToCSV], [appendMessages]

    JavaScript numbers are integers of [Z] here (all of them are counts and
    millisecond clock values), strings are [string], exceptions are an error
    monad over an explicit world (clock, rate window, request counter, event
    log).  Everything that lives outside the process (the HTTP feed, timers,
    the session file) is an oracle of the environment [Env]. *)

From Stdlib Require Import ZArith NArith List String Ascii Bool Lia Sorted.
From Stdlib Require Import DecimalString.
Import ListNotations.
Local Open Scope string_scope.
Local Open Scope Z_scope.
Local Open Scope list_scope.

(* ------------------------------------------------------------------ *)
(** ** config/constants.ts *)

Module HTTP_STATUS.
Definition OK : Z := 200.
Definition TOO_MANY_REQUESTS : Z := 429.
End HTTP_STATUS.

Module MESSAGE_LIMITS.
Definition MIN : Z := 1.
Definition MAX : Z := 100.
Definition DEFAULT : Z := 100.
End MESSAGE_LIMITS.

Module RATE_LIMIT.
Definition REQUESTS_PER_SECOND : Z := 10.
Definition MAX_RETRIES : Z := 3.
Definition RETRY_DELAY_MS : Z := 1000.
End RATE_LIMIT.

Definition CSV_HEADERS : list string :=
  ["server_name"; "server_id"; "channel_name"; "channel_id"; "data"].

Definition BATCH_INSERT_SIZE : Z := 100.

Definition PAGINATION_DELAY_MS : Z := 100.

(* ------------------------------------------------------------------ *)
(** ** JavaScript values the code relies on *)

(** A thrown value: an [Error] object with its message, or any other value
    (of which only [String(value)] is ever used). *)
Inductive Thrown : Type :=
| JsError (message : string)
| JsValue (text : string).

(** [error instanceof Error ? error.message : String(error)] *)
Definition errorMessage (error : Thrown) : string :=
  match error with
  | JsError message => message
  | JsValue text => text
  end.

(** [error instanceof Error ? error : new Error(String(error))] *)
Definition asError (error : Thrown) : Thrown :=
  match error with
  | JsError message => JsError message
  | JsValue text => JsError text
  end.

(** [s.includes(sub)] *)
Fixpoint includes (s sub : string) : bool :=
  if String.prefix sub s then true
  else match s with
       | EmptyString => false
       | String _ rest => includes rest sub
       end.

(** Decimal rendering of an integer inside a template string. *)
Definition string_of_Z (z : Z) : string :=
  NilZero.string_of_int (Z.to_int z).

(** A [Date]: its time value in milliseconds, or [None] for an invalid date
    (whose time value is NaN). *)
Definition JsDate : Type := option Z.

(** [a < b] on two dates: numeric comparison of the time values, false as
    soon as one of them is NaN. *)
Definition date_lt (a b : JsDate) : bool :=
  match a, b with
  | Some x, Some y => x <? y
  | _, _ => false
  end.

Definition date_gt (a b : JsDate) : bool := date_lt b a.

(* ------------------------------------------------------------------ *)
(** ** types/index.ts *)

(** Message ids are snowflakes: decimal strings of unsigned integers, kept
    here by their numeric value (the code only copies them into the URL). *)
Definition Id : Type := N.

Record DiscordMessage : Type := mkMessage {
  id : Id;
  timestamp : string;
  content : string
}.

Record PaginationState : Type := mkPagination {
  before : option Id;
  hasMore : bool;
  totalFetched : Z;
  lastMessageId : option Id
}.

Record ScraperResult : Type := mkResult {
  res_serverId : string;
  res_channelId : string;
  messages : list DiscordMessage;
  totalScraped : Z;
  totalAppended : Z;
  errors : list string;
  warnings : list string;
  duration : Z
}.

Record ValidationResult : Type := mkValidation {
  isValid : bool;
  validationErrors : list string
}.

Record CSVRow : Type := mkRow {
  server_name : string;
  server_id : string;
  channel_name : string;
  channel_id : string;
  data : string
}.

Record ServerMetadata : Type := mkMetadata {
  serverName : string;
  serverId : string;
  channelName : string;
  channelId : string
}.

(* ------------------------------------------------------------------ *)
(** ** The world outside the process *)

(** What [fetch] and [response.json()] give back. *)
Record Response : Type := mkResponse {
  status : Z;
  json : Thrown + list DiscordMessage
}.

(** [response.ok] *)
Definition ok (r : Response) : bool :=
  (200 <=? status r) && (status r <=? 299).

Inductive HttpOutcome : Type :=
| Responded (r : Response)
| Rejected (e : Thrown).

Record Env : Type := mkEnv {
  (** by how much the n-th timer fires late *)
  timerLag : nat -> Z;
  (** how long the n-th HTTP exchange takes *)
  httpLatency : nat -> Z;
  (** the outcome of the n-th request to the messages endpoint, given the
      [before] parameter of its URL *)
  httpOutcome : nat -> option Id -> HttpOutcome;
  (** [sessionManager.loadOrCreateSession()]: the token, or what it throws *)
  session : Thrown + string;
  (** [sessionManager.isSessionValid()] *)
  sessionValid : bool;
  (** [sessionValidator.fullValidation(serverId, channelId)]: its result;
      the requests of the validator do not pass through the rate limiter
      and are not recorded *)
  validation : ValidationResult;
  (** [new Date(s)] *)
  newDate : string -> JsDate
}.

(** Why the process sleeps: the three call sites of [delay]. *)
Inductive SleepKind : Type :=
| RateWindow    (* waitForRateLimit *)
| Backoff       (* executeWithRetry *)
| Pagination.   (* scrapeChannel *)

(** The event log: sleeps as they are requested, admissions as they are
    recorded in the rate window, [fetchMessageBatch] calls as the debug line
    at their start reports them, HTTP exchanges as they complete. *)
Inductive Event : Type :=
| EvSleep (why : SleepKind) (ms : Z)
| EvRequest (time : Z)
| EvBatch (before : option Id)
| EvHttp (before : option Id) (outcome : HttpOutcome).

Record RateLimiter : Type := mkLimiter {
  requestTimes : list Z;
  requestsPerSecond : Z;
  maxRetries : Z;
  retryDelay : Z
}.

(** [new RateLimiter(logger)] *)
Definition newRateLimiter : RateLimiter :=
  {| requestTimes := [];
     requestsPerSecond := RATE_LIMIT.REQUESTS_PER_SECOND;
     maxRetries := RATE_LIMIT.MAX_RETRIES;
     retryDelay := RATE_LIMIT.RETRY_DELAY_MS |}.

Record World : Type := mkWorld {
  clock : Z;                (* Date.now() *)
  timers : nat;             (* timers set so far *)
  requests : nat;           (* requests fetchMessageBatch has sent so far *)
  limiter : RateLimiter;    (* this.rateLimiter *)
  token : string;           (* sessionManager.token *)
  trace : list Event        (* what happened, oldest first *)
}.

Definition initialWorld (start : Z) : World :=
  {| clock := start; timers := 0; requests := 0;
     limiter := newRateLimiter; token := ""; trace := [] |}.

(* ------------------------------------------------------------------ *)
(** ** The error monad over the world *)

Inductive Outcome (A : Type) : Type :=
| Returned (a : A)
| Threw (e : Thrown).
Arguments Returned {A} a.
Arguments Threw {A} e.

Definition M (A : Type) : Type := World -> Outcome A * World.

Definition ret {A} (a : A) : M A := fun w => (Returned a, w).

Definition throw {A} (e : Thrown) : M A := fun w => (Threw e, w).

Definition bind {A B} (m : M A) (k : A -> M B) : M B :=
  fun w =>
    match m w with
    | (Returned a, w') => k a w'
    | (Threw e, w') => (Threw e, w')
    end.

Definition tryCatch {A} (m : M A) (handler : Thrown -> M A) : M A :=
  fun w =>
    match m w with
    | (Returned a, w') => (Returned a, w')
    | (Threw e, w') => handler e w'
    end.

Declare Scope js_scope.
Delimit Scope js_scope with js.
Notation "x <- m ;; k" := (bind m (fun x => k))
  (at level 100, m at next level, right associativity) : js_scope.
Notation "m ;; k" := (bind m (fun _ => k))
  (at level 100, right associativity) : js_scope.
Local Open Scope js_scope.

Definition getWorld : M World := fun w => (Returned w, w).

Definition log (ev : Event) : M unit :=
  fun w => (Returned tt,
            {| clock := clock w; timers := timers w; requests := requests w;
               limiter := limiter w; token := token w;
               trace := trace w ++ [ev] |}).

Definition setRequestTimes (times : list Z) : M unit :=
  fun w => (Returned tt,
            {| clock := clock w; timers := timers w; requests := requests w;
               limiter := {| requestTimes := times;
                             requestsPerSecond := requestsPerSecond (limiter w);
                             maxRetries := maxRetries (limiter w);
                             retryDelay := retryDelay (limiter w) |};
               token := token w; trace := trace w |}).

Definition setToken (t : string) : M unit :=
  fun w => (Returned tt,
            {| clock := clock w; timers := timers w; requests := requests w;
               limiter := limiter w; token := t; trace := trace w |}).

(** [Date.now()] *)
Definition dateNow : M Z := fun w => (Returned (clock w), w).

Section Program.

Variable env : Env.

(** [new Promise((resolve) => setTimeout(resolve, ms))], awaited: the clock
    moves by the requested time (a non-positive one counts as zero) and by the
    lag of this timer. *)
Definition delay (why : SleepKind) (ms : Z) : M unit :=
  fun w => (Returned tt,
            {| clock := clock w + Z.max 0 ms + timerLag env (timers w);
               timers := S (timers w); requests := requests w;
               limiter := limiter w; token := token w;
               trace := trace w ++ [EvSleep why ms] |}).

(** [fetch(url, ...)] on the messages endpoint, awaited. *)
Definition fetch (before : option Id) : M Response :=
  fun w =>
    let outcome := httpOutcome env (requests w) before in
    let w' := {| clock := clock w + httpLatency env (requests w);
                 timers := timers w; requests := S (requests w);
                 limiter := limiter w; token := token w;
                 trace := trace w ++ [EvHttp before outcome] |} in
    match outcome with
    | Responded r => (Returned r, w')
    | Rejected e => (Threw e, w')
    end.

(* ------------------------------------------------------------------ *)
(** ** core/rate-limiter/RateLimiter.ts *)

Definition waitForRateLimit : M unit :=
  now <- dateNow ;;
  let oneSecondAgo := now - 1000 in
  (* Remove old timestamps *)
  w <- getWorld ;;
  setRequestTimes
    (filter (fun time => time >? oneSecondAgo) (requestTimes (limiter w))) ;;
  (* If we've hit the limit, wait *)
  w <- getWorld ;;
  (if Z.of_nat (List.length (requestTimes (limiter w)))
        >=? requestsPerSecond (limiter w)
   then
     match requestTimes (limiter w) with
     | oldestRequest :: _ =>
         let waitTime := oldestRequest + 1000 - now in
         if waitTime >? 0 then delay RateWindow waitTime else ret tt
     | [] => ret tt      (* requestTimes[0] is undefined, waitTime is NaN *)
     end
   else ret tt) ;;
  (* Record this request *)
  time <- dateNow ;;
  w <- getWorld ;;
  setRequestTimes (requestTimes (limiter w) ++ [time]) ;;
  log (EvRequest time).

(** [this.retryDelay * Math.pow(2, attempt - 1)] *)
Definition backoffDelay (rl : RateLimiter) (attempt : Z) : Z :=
  retryDelay rl * 2 ^ (attempt - 1).

(** The [for] loop of [executeWithRetry]: [attempt] is the loop variable and
    [remaining] counts the iterations that are left, [this.maxRetries], which
    is never reassigned, minus the attempts made. *)
Fixpoint retryLoop {T} (fn : M T) (remaining : nat) (attempt : Z)
    (lastError : option Thrown) : M T :=
  match remaining with
  | O =>
      (* throw lastError *)
      throw (match lastError with
             | Some e => e
             | None => JsValue "null"
             end)
  | S remaining' =>
      tryCatch
        (waitForRateLimit ;; fn)
        (fun error =>
           let lastError := asError error in
           (* Check if it's a rate limit error *)
           if includes (errorMessage lastError) "429" then
             w <- getWorld ;;
             (if attempt <? maxRetries (limiter w) then
                delay Backoff (backoffDelay (limiter w) attempt)
              else ret tt) ;;
             retryLoop fn remaining' (attempt + 1) (Some lastError)
           else
             (* Not a rate limit error, don't retry *)
             throw error)
  end.

Definition executeWithRetry {T} (fn : M T) : M T :=
  w <- getWorld ;;
  retryLoop fn (Z.to_nat (maxRetries (limiter w))) 1 None.

(* ------------------------------------------------------------------ *)
(** ** core/scraper/DiscordScraper.ts *)

(** [sessionManager.getToken()] *)
Definition getToken : M string :=
  w <- getWorld ;;
  if String.eqb (token w) "" then
    throw (JsError "No token loaded. Call loadSession() first.")
  else ret (token w).

(** [response.json()] *)
Definition responseJson (r : Response) : M (list DiscordMessage) :=
  match json r with
  | inr msgs => ret msgs
  | inl e => throw e
  end.

Definition fetchMessageBatch (channel : string) (limit : Z)
    (before : option Id) : M (list DiscordMessage) :=
  tryCatch
    (_token <- getToken ;;
     (* this.logger.debug("Fetching message batch", { url }) *)
     log (EvBatch before) ;;
     (* Execute with rate limiting and retry logic *)
     response <- executeWithRetry (fetch before) ;;
     (if negb (ok response) then
        throw (JsError (String.append "API returned status "
                                      (string_of_Z (status response))))
      else ret tt) ;;
     msgs <- responseJson response ;;
     ret msgs)
    (fun error => throw error).

(** [filterByTimestamp]: a [Date] object is truthy even when invalid, so a
    bound is set as soon as it is not [null]. *)
Definition filterByTimestamp (msgs : list DiscordMessage)
    (startDate endDate : option JsDate) : list DiscordMessage :=
  match startDate, endDate with
  | None, None => msgs
  | _, _ =>
      filter
        (fun msg =>
           let msgDate := newDate env (timestamp msg) in
           if match startDate with
              | Some s => date_lt msgDate s
              | None => false
              end
           then false
           else if match endDate with
                   | Some e => date_gt msgDate e
                   | None => false
                   end
           then false
           else true)
        msgs
  end.

Definition setupAuthentication : M unit :=
  tryCatch
    (match session env with
     | inl e => throw e
     | inr t =>
         if String.eqb t "" then
           throw (JsError "Token must be a string in token file")
         else setToken t
     end ;;
     if negb (sessionValid env) then throw (JsError "Token is not valid")
     else ret tt)
    (fun error => throw error).

(** How the [while] loop of [scrapeChannel] is left. *)
Inductive LoopExit : Type :=
| LoopDone                 (* the loop condition failed or a [break] ran *)
| LoopThrew (e : Thrown)   (* an exception left the loop *)
| LoopFuel.                (* the model ran out of fuel *)

Definition setHasMore (b : bool) (ps : PaginationState) : PaginationState :=
  {| before := before ps; hasMore := b;
     totalFetched := totalFetched ps; lastMessageId := lastMessageId ps |}.

(** The three assignments after a non-empty batch. *)
Definition advance (ps : PaginationState) (batch : list DiscordMessage)
    (lastMessage : DiscordMessage) : PaginationState :=
  {| before := Some (id lastMessage);
     hasMore := hasMore ps;
     totalFetched := totalFetched ps + Z.of_nat (List.length batch);
     lastMessageId := Some (id lastMessage) |}.

(** The [while (paginationState.hasMore)] loop.  The local variables
    [allMessages] and [paginationState] are passed along explicitly, since
    the [catch] block of [scrapeChannel] reads them. *)
Fixpoint scrapeLoop (fuel : nat) (channel : string) (maxMessages : Z)
    (startDate endDate : option JsDate)
    (allMessages : list DiscordMessage) (ps : PaginationState) (w : World)
  : LoopExit * list DiscordMessage * PaginationState * World :=
  if negb (hasMore ps) then (LoopDone, allMessages, ps, w)
  else
    match fuel with
    | O => (LoopFuel, allMessages, ps, w)
    | S fuel' =>
        match fetchMessageBatch channel MESSAGE_LIMITS.MAX (before ps) w with
        | (Threw e, w1) => (LoopThrew e, allMessages, ps, w1)
        | (Returned batch, w1) =>
            match batch with
            | [] =>
                (* batch.length === 0 *)
                (LoopDone, allMessages, setHasMore false ps, w1)
            | first :: rest =>
                (* Filter by timestamps *)
                let filteredBatch :=
                  filterByTimestamp batch startDate endDate in
                let allMessages := allMessages ++ filteredBatch in
                (* Update pagination *)
                let lastMessage := List.last rest first in
                let ps := advance ps batch lastMessage in
                (* Check if we've reached the limit *)
                if (maxMessages >? 0)
                   && (Z.of_nat (List.length allMessages) >=? maxMessages)
                then
                  (LoopDone,
                   firstn (Z.to_nat maxMessages) allMessages,
                   setHasMore false ps, w1)
                else
                  (* Delay to avoid rate limiting *)
                  let w2 :=
                    if hasMore ps
                    then snd (delay Pagination PAGINATION_DELAY_MS w1)
                    else w1 in
                  scrapeLoop fuel' channel maxMessages startDate endDate
                    allMessages ps w2
            end
        end
    end.

(** [timestampStart ? new Date(timestampStart) : null] *)
Definition parseBound (ts : option string) : option JsDate :=
  match ts with
  | None => None
  | Some s => if String.eqb s "" then None else Some (newDate env s)
  end.

Definition initialPagination : PaginationState :=
  {| before := None; hasMore := true; totalFetched := 0;
     lastMessageId := None |}.

(** [scrapeChannel]; [None] only when the model of the loop ran out of
    fuel. *)
Definition scrapeChannel (fuel : nat) (server channel : string)
    (maxMessages : Z) (timestampStart timestampEnd : option string)
    (w : World) : option ScraperResult * World :=
  let startTime := clock w in
  let result (allMessages : list DiscordMessage) (errs : list string)
             (w' : World) :=
    (Some {| res_serverId := server; res_channelId := channel;
             messages := allMessages;
             totalScraped := Z.of_nat (List.length allMessages);
             totalAppended := 0;
             errors := errs; warnings := [];
             duration := clock w' - startTime |}, w') in
  (* Setup authentication *)
  match setupAuthentication w with
  | (Threw e, w1) => result [] [errorMessage e] w1
  | (Returned _, w1) =>
      (* Validate access *)
      let v := validation env in
      if negb (isValid v) then
        result []
          (validationErrors v ++
           [String.append "Validation failed: "
              (String.concat "; " (validationErrors v))])
          w1
      else
        (* Parse timestamps *)
        let startDate := parseBound timestampStart in
        let endDate := parseBound timestampEnd in
        match scrapeLoop fuel channel maxMessages startDate endDate
                [] initialPagination w1 with
        | (LoopDone, allMessages, _, w2) => result allMessages [] w2
        | (LoopThrew e, allMessages, _, w2) =>
            result allMessages [errorMessage e] w2
        | (LoopFuel, _, _, w2) => (None, w2)
        end
  end.

End Program.

(* ------------------------------------------------------------------ *)
(** ** processor/CSVProcessor.ts *)

Definition dquote : ascii := "034"%char.
Definition comma : ascii := ","%char.
Definition newline : ascii := "010"%char.

Definition str1 (c : ascii) : string := String c EmptyString.

(** [value.replace(/Q/g, QQ)] where Q is the double quote character. *)
Fixpoint replaceQuotes (value : string) : string :=
  match value with
  | EmptyString => EmptyString
  | String c rest =>
      if Ascii.eqb c dquote
      then String dquote (String dquote (replaceQuotes rest))
      else String c (replaceQuotes rest)
  end.

Definition escapeCSVField (value : string) : string :=
  (* If contains comma, quotes, or newline, wrap in quotes and escape inner
     quotes *)
  if includes value (str1 comma)
     || includes value (str1 dquote)
     || includes value (str1 newline)
  then String dquote (String.append (replaceQuotes value) (str1 dquote))
  else value.

Definition rowFields (row : CSVRow) : list string :=
  [server_name row; server_id row; channel_name row; channel_id row;
   data row].

Definition rowToCSV (row : CSVRow) : string :=
  String.concat (str1 comma) (map escapeCSVField (rowFields row)).

(** [messages.slice(start, stop)] for [0 <= start] *)
Definition slice {A} (start stop : nat) (l : list A) : list A :=
  firstn (stop - start) (skipn start l).

(** The artifact: its text and the number of [appendFileSync] calls made on
    it so far. *)
Record Disk : Type := mkDisk {
  fileContent : string;
  appendCalls : nat
}.

Record AppendResult : Type := mkAppendResult {
  appended : Z;
  appendErrors : list string
}.

Section Csv.

(** [JSON.stringify(msg)], which may throw. *)
Variable JSON_stringify : DiscordMessage -> Thrown + string.

(** What the n-th [fs.appendFileSync] throws, if it throws. *)
Variable appendFailure : nat -> option Thrown.

Definition toCsvRow (metadata : ServerMetadata) (payload : string) : CSVRow :=
  {| server_name := serverName metadata;
     server_id := serverId metadata;
     channel_name := channelName metadata;
     channel_id := channelId metadata;
     data := payload |}.

(** [messages.map((msg) => ({ ..., data: JSON.stringify(msg) }))]: the first
    message that cannot be serialized aborts the map. *)
Fixpoint convertToCsvRows (msgs : list DiscordMessage)
    (metadata : ServerMetadata) : Thrown + list CSVRow :=
  match msgs with
  | [] => inr []
  | msg :: rest =>
      match JSON_stringify msg with
      | inl e => inl e
      | inr payload =>
          match convertToCsvRows rest metadata with
          | inl e => inl e
          | inr rows => inr (toCsvRow metadata payload :: rows)
          end
      end
  end.

(** [csvRows.map((row) => this.rowToCSV(row))], joined with line feeds and
    followed by one more line feed. *)
Definition csvContent (csvRows : list CSVRow) : string :=
  String.append (String.concat (str1 newline) (map rowToCSV csvRows))
                (str1 newline).

(** [`Batch ${Math.floor(i / BATCH_INSERT_SIZE) + 1}: ${batchErrorMsg}`] *)
Definition batchErrorText (i : nat) (e : Thrown) : string :=
  String.append "Batch "
    (String.append (string_of_Z (Z.of_nat i / BATCH_INSERT_SIZE + 1))
       (String.append ": " (errorMessage e))).

(** The [for (let i = 0; i < messages.length; i += BATCH_INSERT_SIZE)] loop
    of [appendMessages]. *)
Fixpoint appendLoop (fuel : nat) (i : nat) (msgs : list DiscordMessage)
    (metadata : ServerMetadata) (disk : Disk) (appendedCount : Z)
    (errs : list string) : Disk * Z * list string :=
  match fuel with
  | O => (disk, appendedCount, errs)
  | S fuel' =>
      if (i <? List.length msgs)%nat then
        let batch :=
          slice i (Nat.min (i + Z.to_nat BATCH_INSERT_SIZE) (List.length msgs))
                msgs in
        match convertToCsvRows batch metadata with
        | inl e =>
            appendLoop fuel' (i + Z.to_nat BATCH_INSERT_SIZE)%nat msgs metadata
              disk appendedCount (errs ++ [batchErrorText i e])
        | inr csvRows =>
            (* Append to file *)
            match appendFailure (appendCalls disk) with
            | Some e =>
                appendLoop fuel' (i + Z.to_nat BATCH_INSERT_SIZE)%nat msgs
                  metadata
                  {| fileContent := fileContent disk;
                     appendCalls := S (appendCalls disk) |}
                  appendedCount (errs ++ [batchErrorText i e])
            | None =>
                appendLoop fuel' (i + Z.to_nat BATCH_INSERT_SIZE)%nat msgs
                  metadata
                  {| fileContent :=
                       String.append (fileContent disk) (csvContent csvRows);
                     appendCalls := S (appendCalls disk) |}
                  (appendedCount + Z.of_nat (List.length batch)) errs
            end
        end
      else (disk, appendedCount, errs)
  end.

(** [appendMessages]; the loop runs at most once per message. *)
Definition appendMessages (csvFilePath : string)
    (msgs : list DiscordMessage) (metadata : ServerMetadata) (disk : Disk)
  : Outcome AppendResult * Disk :=
  if String.eqb csvFilePath "" then
    (Threw (JsError "CSV file not initialized"), disk)
  else
    match appendLoop (S (List.length msgs)) 0 msgs metadata disk 0 [] with
    | (disk', appendedCount, errs) =>
        (Returned {| appended := appendedCount; appendErrors := errs |},
         disk')
    end.

End Csv.

(* ------------------------------------------------------------------ *)
(** ** Reading the artifact back

    The sources only write the artifact.  The reader below is the quoting
    rule of RFC 4180 read from left to right: a field that opens with the
    quote character runs to the first quote that is not doubled, and a doubled
    quote stands for one quote; any other field runs to the next comma or
    line break.  Lines end with a line feed, as [appendMessages] writes
    them. *)

(** After the opening quote: the field and the text after its closing
    quote. *)
Fixpoint readQuoted (s : string) : option (string * string) :=
  match s with
  | EmptyString => None
  | String c rest =>
      if Ascii.eqb c dquote then
        match rest with
        | EmptyString => Some (EmptyString, EmptyString)
        | String c' rest' =>
            if Ascii.eqb c' dquote then
              match readQuoted rest' with
              | Some (field, tail) => Some (String dquote field, tail)
              | None => None
              end
            else Some (EmptyString, rest)
        end
      else
        match readQuoted rest with
        | Some (field, tail) => Some (String c field, tail)
        | None => None
        end
  end.

Fixpoint readUnquoted (s : string) : string * string :=
  match s with
  | EmptyString => (EmptyString, EmptyString)
  | String c rest =>
      if Ascii.eqb c comma || Ascii.eqb c newline then (EmptyString, s)
      else let (field, tail) := readUnquoted rest in (String c field, tail)
  end.

Definition readField (s : string) : option (string * string) :=
  match s with
  | EmptyString => Some (EmptyString, EmptyString)
  | String c rest =>
      if Ascii.eqb c dquote then readQuoted rest else Some (readUnquoted s)
  end.

(** One record: its fields and the text after its line break. *)
Fixpoint readRecord (fuel : nat) (s : string)
  : option (list string * string) :=
  match fuel with
  | O => None
  | S fuel' =>
      match readField s with
      | None => None
      | Some (field, EmptyString) => Some ([field], EmptyString)
      | Some (field, String c tail) =>
          if Ascii.eqb c comma then
            match readRecord fuel' tail with
            | Some (fields, tail') => Some (field :: fields, tail')
            | None => None
            end
          else if Ascii.eqb c newline then Some ([field], tail)
          else None
      end
  end.

Definition parseCSVRecord (s : string) : option (list string * string) :=
  readRecord (S (String.length s)) s.

(* ------------------------------------------------------------------ *)
(** ** Reading the event log *)

(** The times at which requests were recorded in the window, oldest
    first. *)
Fixpoint admissions (tr : list Event) : list Z :=
  match tr with
  | [] => []
  | EvRequest time :: rest => time :: admissions rest
  | _ :: rest => admissions rest
  end.

(** The requested durations of the sleeps of one kind. *)
Fixpoint sleeps (why : SleepKind) (tr : list Event) : list Z :=
  match tr with
  | [] => []
  | EvSleep k ms :: rest =>
      match why, k with
      | RateWindow, RateWindow | Backoff, Backoff | Pagination, Pagination =>
          ms :: sleeps why rest
      | _, _ => sleeps why rest
      end
  | _ :: rest => sleeps why rest
  end.

(** The [before] cursors of the successive [fetchMessageBatch] calls that
    carried one. *)
Fixpoint cursors (tr : list Event) : list Id :=
  match tr with
  | [] => []
  | EvBatch (Some c) :: rest => c :: cursors rest
  | _ :: rest => cursors rest
  end.

(** The page a response delivers, if it delivers one. *)
Definition pageOf (r : Response) : option (list DiscordMessage) :=
  if ok r then
    match json r with
    | inr msgs => Some msgs
    | inl _ => None
    end
  else None.

(** The raw pages the feed delivered, in fetch order. *)
Fixpoint pages (tr : list Event) : list (list DiscordMessage) :=
  match tr with
  | [] => []
  | EvHttp _ (Responded r) :: rest =>
      match pageOf r with
      | Some msgs => msgs :: pages rest
      | None => pages rest
      end
  | _ :: rest => pages rest
  end.

(** The responses received (whatever their status), in order. *)
Fixpoint responses (tr : list Event) : list Response :=
  match tr with
  | [] => []
  | EvHttp _ (Responded r) :: rest => r :: responses rest
  | _ :: rest => responses rest
  end.

(** Number of requests sent to the messages endpoint. *)
Fixpoint httpCount (tr : list Event) : nat :=
  match tr with
  | [] => O
  | EvHttp _ _ :: rest => S (httpCount rest)
  | _ :: rest => httpCount rest
  end.

(** How many entries of [l] are younger than [theta]. *)
Definition newer (theta : Z) (l : list Z) : nat :=
  List.length (filter (fun x => x >? theta) l).

(** How many entries of [l] lie in the trailing 1000ms window that ends at
    [t], that is, are at most [t] and younger than 1000ms at [t]. *)
Definition windowCount (t : Z) (l : list Z) : nat :=
  List.length (filter (fun x => (t - 1000 <? x) && (x <=? t)) l).

(** What the rate limiter maintains. *)
Record RateInv (w : World) : Prop := mkRateInv {
  inv_past : Forall (fun x => x <= clock w) (admissions (trace w));
  inv_recent : forall theta, clock w - 1000 <= theta ->
      newer theta (admissions (trace w))
      = newer theta (requestTimes (limiter w));
  inv_sorted : StronglySorted Z.le (requestTimes (limiter w));
  inv_window : forall t,
      Z.of_nat (windowCount t (admissions (trace w)))
      <= requestsPerSecond (limiter w)
}.

(** Timers never fire early and exchanges take time. *)
Definition timeFlows (env : Env) : Prop :=
  (forall n, 0 <= timerLag env n) /\ (forall n, 0 <= httpLatency env n).

(** [n] calls of [waitForRateLimit], one right after the other. *)
Fixpoint requestBurst (env : Env) (n : nat) (w : World) : World :=
  match n with
  | O => w
  | S n' => requestBurst env n' (snd (waitForRateLimit env w))
  end.

(** What [waitForRateLimit] keeps of the window. *)
Definition pruned (w : World) : list Z :=
  filter (fun time => time >? clock w - 1000) (requestTimes (limiter w)).

(** The world after an admission at [clock'] that logged [evs] first. *)
Definition withAdmission (w : World) (times : list Z) (clock' : Z)
    (timers' : nat) (evs : list Event) : World :=
  {| clock := clock'; timers := timers'; requests := requests w;
     limiter := {| requestTimes := times ++ [clock'];
                   requestsPerSecond := requestsPerSecond (limiter w);
                   maxRetries := maxRetries (limiter w);
                   retryDelay := retryDelay (limiter w) |};
     token := token w;
     trace := trace w ++ evs ++ [EvRequest clock'] |}.

(** The worlds a run can be in: every effect of the program is one of
    these steps. *)
Inductive Reachable (env : Env) : World -> Prop :=
| reach_start (start : Z) : Reachable env (initialWorld start)
| reach_wait w :
    Reachable env w -> Reachable env (snd (waitForRateLimit env w))
| reach_delay w why ms :
    Reachable env w -> Reachable env (snd (delay env why ms w))
| reach_fetch w before :
    Reachable env w -> Reachable env (snd (fetch env before w))
| reach_token w t :
    Reachable env w -> Reachable env (snd (setToken t w))
| reach_batch w before :
    Reachable env w -> Reachable env (snd (log (EvBatch before) w)).

(* ------------------------------------------------------------------ *)
(** ** The retry policy, as the specification words it *)

(** A rate-limit signal: the failure mentions status 429. *)
Definition rateLimitSignal (e : Thrown) : bool :=
  includes (errorMessage e) "429".

(** Each attempt waits for admission and runs the operation.  A success is
    returned.  A failure that is no rate-limit signal propagates at once.  A
    rate-limit signal with attempts left suspends for
    [baseDelay * 2^(attempt-1)] and tries again; without attempts left the
    last error is surfaced (as an [Error]: a thrown value that is none is
    wrapped into one with the same text). *)
Inductive RetryPolicy {T : Type} (env : Env) (fn : M T)
  : Z -> World -> Outcome T -> World -> Prop :=
| retry_success attempt w w1 v w2 :
    waitForRateLimit env w = (Returned tt, w1) ->
    fn w1 = (Returned v, w2) ->
    RetryPolicy env fn attempt w (Returned v) w2
| retry_propagate attempt w w1 e w2 :
    waitForRateLimit env w = (Returned tt, w1) ->
    fn w1 = (Threw e, w2) ->
    rateLimitSignal e = false ->
    RetryPolicy env fn attempt w (Threw e) w2
| retry_backoff attempt w w1 e w2 r w3 :
    waitForRateLimit env w = (Returned tt, w1) ->
    fn w1 = (Threw e, w2) ->
    rateLimitSignal e = true ->
    attempt < RATE_LIMIT.MAX_RETRIES ->
    RetryPolicy env fn (attempt + 1)
      (snd (delay env Backoff
              (RATE_LIMIT.RETRY_DELAY_MS * 2 ^ (attempt - 1)) w2))
      r w3 ->
    RetryPolicy env fn attempt w r w3
| retry_exhausted attempt w w1 e w2 :
    waitForRateLimit env w = (Returned tt, w1) ->
    fn w1 = (Threw e, w2) ->
    rateLimitSignal e = true ->
    attempt = RATE_LIMIT.MAX_RETRIES ->
    RetryPolicy env fn attempt w (Threw (asError e)) w2.

(** The wrapped operation cannot reach the private fields of the limiter. *)
Definition keepsConfig {T : Type} (fn : M T) : Prop :=
  forall w,
    maxRetries (limiter (snd (fn w))) = maxRetries (limiter w)
    /\ retryDelay (limiter (snd (fn w))) = retryDelay (limiter w).

(** The limiter as its constructor configures it. *)
Definition defaultConfig (w : World) : Prop :=
  maxRetries (limiter w) = RATE_LIMIT.MAX_RETRIES
  /\ retryDelay (limiter w) = RATE_LIMIT.RETRY_DELAY_MS.

(** [w1] is [w] after some more events, with the same session and the same
    limiter configuration. *)
Record Extends (w w1 : World) (evs : list Event) : Prop := mkExtends {
  ext_trace : trace w1 = trace w ++ evs;
  ext_token : token w1 = token w;
  ext_maxRetries : maxRetries (limiter w1) = maxRetries (limiter w);
  ext_retryDelay : retryDelay (limiter w1) = retryDelay (limiter w)
}.

(* ------------------------------------------------------------------ *)
(** ** What a run of the loop is compared with *)

(** [allMessages] cut at the cap; a cap of 0 (or below) is no cap. *)
Definition capTo (maxMessages : Z) (l : list DiscordMessage)
  : list DiscordMessage :=
  if maxMessages >? 0 then firstn (Z.to_nat maxMessages) l else l.

(** The id of the last message of [msgs], or [default] when there is none. *)
Definition lastIdOf (default : option Id) (msgs : list DiscordMessage)
  : option Id :=
  match msgs with
  | [] => default
  | first :: rest => Some (id (List.last rest first))
  end.

(** The page an event delivers ([[]] for every other event). *)
Definition eventPage (ev : Event) : list DiscordMessage :=
  match ev with
  | EvHttp _ (Responded r) =>
      match pageOf r with
      | Some msgs => msgs
      | None => []
      end
  | _ => []
  end.

(** The event is the delivery of a page of size 0. *)
Definition emptyPage (ev : Event) : bool :=
  match ev with
  | EvHttp _ (Responded r) =>
      match pageOf r with
      | Some [] => true
      | _ => false
      end
  | _ => false
  end.

(** Ids from newest to oldest: strictly decreasing. *)
Definition descending (l : list Id) : Prop :=
  StronglySorted (fun newer older => (older < newer)%N) l.

(** Every id is older than the cursor, when there is a cursor. *)
Definition belowCursor (cursor : option Id) (l : list Id) : Prop :=
  match cursor with
  | Some c => Forall (fun i => (i < c)%N) l
  | None => True
  end.

(** No id is newer than the cursor, when there is a cursor. *)
Definition atMostCursor (cursor : option Id) (l : list Id) : Prop :=
  match cursor with
  | Some c => Forall (fun i => (i <= c)%N) l
  | None => True
  end.

(** The cursor as a list of at most one id. *)
Definition cursorList (cursor : option Id) : list Id :=
  match cursor with
  | Some c => [c]
  | None => []
  end.

(** The last ids of the pages that hold messages, page by page. *)
Definition lastIds (delivered : list (list DiscordMessage)) : list Id :=
  flat_map (fun page => cursorList (lastIdOf None page)) delivered.

(** The feed contract: a page comes newest first and holds only messages
    older than the [before] cursor of its request. *)
Definition feedOrdered (env : Env) : Prop :=
  forall n b r msgs,
    httpOutcome env n b = Responded r ->
    pageOf r = Some msgs ->
    descending (map id msgs) /\ belowCursor b (map id msgs).

(** The event delivers no page at all. *)
Definition inert (ev : Event) : Prop :=
  eventPage ev = [] /\ emptyPage ev = false.

Section Halting.

Variable env : Env.
Variable maxMessages : Z.
Variables startDate endDate : option JsDate.

(** The test [filterByTimestamp] applies to each message. *)
Definition keeps (msg : DiscordMessage) : bool :=
  let msgDate := newDate env (timestamp msg) in
  if match startDate with
     | Some d => date_lt msgDate d
     | None => false
     end
  then false
  else if match endDate with
          | Some d => date_gt msgDate d
          | None => false
          end
  then false
  else true.

(** The cap is reached with [kept] messages. *)
Definition capReached (kept : list DiscordMessage) : Prop :=
  0 < maxMessages /\ maxMessages <= Z.of_nat (List.length kept).

(** Nothing happens after an empty page, and nothing happens after the page
    with which the kept messages reach the cap. [kept] is what was kept
    before the events. *)
Fixpoint haltsProperly (kept : list DiscordMessage) (evs : list Event)
  : Prop :=
  match evs with
  | [] => True
  | ev :: rest =>
      let kept' :=
        kept ++ filterByTimestamp env (eventPage ev) startDate endDate in
      (emptyPage ev = true \/ capReached kept' -> rest = [])
      /\ haltsProperly kept' rest
  end.

(** What a run of the loop from [allMessages], [ps] that logged [evs]
    leaves behind. *)
Record LoopSpec (allMessages : list DiscordMessage) (ps : PaginationState)
    (evs : list Event) (exit : LoopExit)
    (allMessages' : list DiscordMessage) (ps' : PaginationState)
  : Prop := mkLoopSpec {
  ls_kept :
    allMessages'
    = capTo maxMessages
        (allMessages
         ++ filterByTimestamp env (List.concat (pages evs)) startDate endDate);
  ls_before : before ps' = lastIdOf (before ps) (List.concat (pages evs));
  ls_lastMessageId :
    lastMessageId ps' = lastIdOf (lastMessageId ps) (List.concat (pages evs));
  ls_totalFetched :
    totalFetched ps'
    = totalFetched ps + Z.of_nat (List.length (List.concat (pages evs)));
  ls_done :
    exit = LoopDone ->
    hasMore ps' = false
    /\ (capReached
          (allMessages
           ++ filterByTimestamp env (List.concat (pages evs)) startDate endDate)
        \/ exists tr ev, evs = tr ++ [ev] /\ emptyPage ev = true);
  ls_open :
    exit <> LoopDone ->
    hasMore ps' = true
    /\ Forall (fun ev => emptyPage ev = false) evs
    /\ ~ capReached
         (allMessages
          ++ filterByTimestamp env (List.concat (pages evs)) startDate endDate);
  ls_halts : haltsProperly allMessages evs;
  ls_cursors :
    exists rest,
      cursorList (before ps) ++ lastIds (pages evs) = cursors evs ++ rest
      /\ (List.length rest <= 1)%nat;
  ls_ordered :
    feedOrdered env ->
    descending (map id (List.concat (pages evs)))
    /\ belowCursor (before ps) (map id (List.concat (pages evs)))
    /\ descending (cursors evs)
    /\ atMostCursor (before ps) (cursors evs);
  ls_pacing :
    Forall (fun ms => ms = PAGINATION_DELAY_MS) (sleeps Pagination evs)
}.

End Halting.

(** The feed holds the non-empty pages [feed] and then nothing: asked from
    request number [from] on, each time with the id of the last message
    delivered so far as the cursor ([cursor] before the first page), it
    delivers them one per request, and empty pages after them. *)
Definition servesPages (env : Env) (from : nat) (cursor : option Id)
    (feed : list (list DiscordMessage)) : Prop :=
  Forall (fun page => page <> []) feed
  /\ forall k, exists r,
       httpOutcome env (from + k)
         (lastIdOf cursor (List.concat (firstn k feed))) = Responded r
       /\ pageOf r = Some (nth k feed []).

(** Authentication and validation succeed. *)
Definition signedIn (env : Env) : Prop :=
  (exists tok, session env = inr tok /\ String.eqb tok "" = false)
  /\ sessionValid env = true
  /\ isValid (validation env) = true.

(** [lo <= t <= hi], a bound that is not set imposing nothing. *)
Definition inRange (lo hi : option Z) (t : Z) : Prop :=
  match lo with
  | Some l => l <= t
  | None => True
  end
  /\ match hi with
     | Some h => t <= h
     | None => True
     end.

(** A bound that is either not set or a valid date. *)
Definition bound (b : option Z) : option JsDate := option_map Some b.

(** The run is aborted by an error that is not recovered: authentication
    throws, validation fails, or an exception leaves the loop. *)
Definition aborted (env : Env) (fuel : nat) (channel : string)
    (maxMessages : Z) (timestampStart timestampEnd : option string)
    (w : World) : Prop :=
  match setupAuthentication env w with
  | (Threw _, _) => True
  | (Returned _, w1) =>
      isValid (validation env) = false
      \/ exists e acc ps w2,
           scrapeLoop env fuel channel maxMessages
             (parseBound env timestampStart) (parseBound env timestampEnd)
             [] initialPagination w1
           = (LoopThrew e, acc, ps, w2)
  end.

(** The characters of a string. *)
Definition chars (s : string) : list ascii := list_ascii_of_string s.

(** The text after a field: the end, a comma or a line feed. *)
Definition fieldEnd (rest : string) : Prop :=
  rest = EmptyString
  \/ exists tail, rest = String comma tail \/ rest = String newline tail.

(** [written] is [all] with some elements left out, in the same order. *)
Inductive subsequence {A : Type} : list A -> list A -> Prop :=
| subsequence_nil : subsequence [] []
| subsequence_keep x written all :
    subsequence written all -> subsequence (x :: written) (x :: all)
| subsequence_drop x written all :
    subsequence written all -> subsequence written (x :: all).

Section Artifact.

Variable JSON_stringify : DiscordMessage -> Thrown + string.
Variable appendFailure : nat -> option Thrown.

(** The serialized message, where serialization succeeds. *)
Definition payloadOf (msg : DiscordMessage) : string :=
  match JSON_stringify msg with
  | inr payload => payload
  | inl _ => EmptyString
  end.

(** The line of a message in the artifact. *)
Definition csvLine (metadata : ServerMetadata) (msg : DiscordMessage)
  : string :=
  String.append (rowToCSV (toCsvRow metadata (payloadOf msg))) (str1 newline).

(** The lines of [msgs], one after the other. *)
Definition csvLines (metadata : ServerMetadata) (msgs : list DiscordMessage)
  : string :=
  String.concat EmptyString (map (csvLine metadata) msgs).

(** No message fails to serialize and no write fails. *)
Definition noFailure (msgs : list DiscordMessage) : Prop :=
  (forall msg, In msg msgs -> exists payload, JSON_stringify msg = inr payload)
  /\ (forall n, appendFailure n = None).

End Artifact.

(* ------------------------------------------------------------------ *)
(** ** Sample environments *)

Module Sample.

Definition message (i : N) (ts : string) : DiscordMessage :=
  {| id := i; timestamp := ts; content := "hello, world" |}.

(** [new Date] on timestamps that are written as a number of
    milliseconds. *)
Definition millis (s : string) : JsDate :=
  match NilZero.uint_of_string s with
  | Some u => Some (Z.of_uint u)
  | None => None
  end.

(** A channel with five messages, newest first. *)
Definition history : list DiscordMessage :=
  [message 5 "50"; message 4 "40"; message 3 "30"; message 2 "20";
   message 1 "10"].

Definition olderThan (cursor : option Id) (msg : DiscordMessage) : bool :=
  match cursor with
  | Some c => (id msg <? c)%N
  | None => true
  end.

(** The page the messages endpoint serves for a cursor. *)
Definition pageFor (pageSize : nat) (channel : list DiscordMessage)
    (cursor : option Id) : list DiscordMessage :=
  firstn pageSize (filter (olderThan cursor) channel).

Definition good (msgs : list DiscordMessage) : HttpOutcome :=
  Responded {| status := 200; json := inr msgs |}.

Definition throttled : HttpOutcome :=
  Responded {| status := 429; json := inr [] |}.

(** A feed that serves the channel two messages at a time. *)
Definition env : Env :=
  {| timerLag := fun _ => 0;
     httpLatency := fun _ => 0;
     httpOutcome := fun _ cursor => good (pageFor 2 history cursor);
     session := inr "token";
     sessionValid := true;
     validation := {| isValid := true; validationErrors := [] |};
     newDate := millis |}.

(** The same feed, answering the first two requests with status 429. *)
Definition throttledEnv : Env :=
  {| timerLag := fun _ => 0;
     httpLatency := fun _ => 0;
     httpOutcome := fun n cursor =>
       match n with
       | O | S O => throttled
       | _ => good (pageFor 2 history cursor)
       end;
     session := inr "token";
     sessionValid := true;
     validation := {| isValid := true; validationErrors := [] |};
     newDate := millis |}.

(** The same feed, with a [fetch] that rejects the first two requests with
    an error whose message mentions 429. *)
Definition rejectingEnv : Env :=
  {| timerLag := fun _ => 0;
     httpLatency := fun _ => 0;
     httpOutcome := fun n cursor =>
       match n with
       | O | S O => Rejected (JsError "Request failed with status code 429")
       | _ => good (pageFor 2 history cursor)
       end;
     session := inr "token";
     sessionValid := true;
     validation := {| isValid := true; validationErrors := [] |};
     newDate := millis |}.

(** The same feed, the network failing at the second request. *)
Definition brokenEnv : Env :=
  {| timerLag := fun _ => 0;
     httpLatency := fun _ => 0;
     httpOutcome := fun n cursor =>
       match n with
       | S O => Rejected (JsError "fetch failed")
       | _ => good (pageFor 2 history cursor)
       end;
     session := inr "token";
     sessionValid := true;
     validation := {| isValid := true; validationErrors := [] |};
     newDate := millis |}.

(** A [fetch] that always rejects with a value that is not an [Error]. *)
Definition overloadedEnv : Env :=
  {| timerLag := fun _ => 0;
     httpLatency := fun _ => 0;
     httpOutcome := fun _ _ => Rejected (JsValue "429 Too Many Requests");
     session := inr "token";
     sessionValid := true;
     validation := {| isValid := true; validationErrors := [] |};
     newDate := millis |}.

(** The world once the token is loaded. *)
Definition ready : World := snd (setToken "token" (initialWorld 0)).

Definition metadata : ServerMetadata :=
  {| serverName := "Guild, the first"; serverId := "1";
     channelName := "general"; channelId := "2" |}.

(** A stand-in for [JSON.stringify]. *)
Definition stringify (msg : DiscordMessage) : Thrown + string :=
  inr (String.append "{id:" (String.append (timestamp msg)
         (String.append ",content:" (String.append (content msg) "}")))).

Definition emptyDisk : Disk := {| fileContent := ""; appendCalls := 0 |}.

End Sample.

(** Sample runs: the fetch loop over the sample feed without and with time
    bounds, the whole scrape, and ten admissions in a burst. *)
Definition sampleLoop :=
  scrapeLoop Sample.env 10 "channel" 0 None None [] initialPagination
    Sample.ready.

Definition sampleBoundedLoop :=
  scrapeLoop Sample.env 10 "channel" 0 (bound (Some 20)) (bound (Some 40))
    [] initialPagination Sample.ready.

Definition sampleScrape :=
  scrapeChannel Sample.env 10 "server" "channel" 0 None None (initialWorld 0).

Definition sampleBurst : World := requestBurst Sample.env 10 (initialWorld 0).

Definition sampleFeed : list (list DiscordMessage) :=
  [[Sample.message 5 "50"; Sample.message 4 "40"];
   [Sample.message 3 "30"; Sample.message 2 "20"];
   [Sample.message 1 "10"]].

Definition noResult : ScraperResult :=
  {| res_serverId := ""; res_channelId := ""; messages := [];
     totalScraped := 0; totalAppended := 0; errors := []; warnings := [];
     duration := 0 |}.

Definition resultOf (run : option ScraperResult * World) : ScraperResult :=
  match fst run with
  | Some res => res
  | None => noResult
  end.

(* ------------------------------------------------------------------ *)
(** * The rest of the sources

    - [core/rate-limiter/RateLimiter.ts]      [getStatus]
    - [processor/CSVProcessor.ts]             [initializeCSV], [getCSVStats]
    - [utils/validators.ts]                   [InputValidator]
    - [core/authentication/SessionManager.ts] [loadOrCreateSession], ...
    - [core/authentication/SessionValidator.ts] [fullValidation], ...
    - [core/scraper/DiscordScraper.ts]        [getServerInfo], [getChannelInfo]
    - [utils/input-handler.ts]                [getConfiguration]
    - [index.ts]                              [main]
    - [utils/logger.ts]                       the level gate and the operation
                                              stack

    The file system is a value that is passed along; what a call into [fs],
    [path] or [JSON] does beyond that is an oracle, as is every exchange
    with an endpoint.  The lines the logger prints and appends to its log
    file are not followed: the file system below is what the calls of the
    program itself leave, and the statements about files speak of the
    artifact, of the token file, or of every file other than the log file. *)

(* ------------------------------------------------------------------ *)
(** ** core/rate-limiter/RateLimiter.ts: [getStatus] *)

Record RateStatus : Type := mkStatus {
  requestsInLastSecond : Z;
  availableRequests : Z
}.

Definition getStatus : M RateStatus :=
  now <- dateNow ;;
  let oneSecondAgo := now - 1000 in
  w <- getWorld ;;
  let recentRequests :=
    filter (fun time => time >? oneSecondAgo) (requestTimes (limiter w)) in
  ret {| requestsInLastSecond := Z.of_nat (List.length recentRequests);
         availableRequests :=
           Z.max 0 (requestsPerSecond (limiter w)
                    - Z.of_nat (List.length recentRequests)) |}.

(* ------------------------------------------------------------------ *)
(** ** JavaScript strings

    A [string] is read as a sequence of UTF-16 code units below 256. *)

(** The code units [String.prototype.trim] strips: white space (TAB, VT, FF,
    SP, NBSP) and line terminators (LF, CR); the other ones lie above 255. *)
Definition isWhiteSpace (c : ascii) : bool :=
  let n := nat_of_ascii c in
  (Nat.leb 9 n && Nat.leb n 13) || Nat.eqb n 32 || Nat.eqb n 160.

Fixpoint trimStart (s : string) : string :=
  match s with
  | EmptyString => EmptyString
  | String c rest => if isWhiteSpace c then trimStart rest else s
  end.

Definition reverse (s : string) : string :=
  string_of_list_ascii (rev (list_ascii_of_string s)).

Definition trimEnd (s : string) : string := reverse (trimStart (reverse s)).

(** [s.trim()] *)
Definition trim (s : string) : string := trimEnd (trimStart s).

(** [content.split(LF)] *)
Fixpoint splitLines (content : string) : list string :=
  match content with
  | EmptyString => [EmptyString]
  | String c rest =>
      if Ascii.eqb c newline then EmptyString :: splitLines rest
      else match splitLines rest with
           | line :: lines => String c line :: lines
           | [] => [str1 c]
           end
  end.

(** The length of the UTF-8 encoding: one byte for a code unit below 128, two
    for the others. *)
Fixpoint utf8Length (s : string) : Z :=
  match s with
  | EmptyString => 0
  | String c rest =>
      (if Nat.ltb (nat_of_ascii c) 128 then 1 else 2) + utf8Length rest
  end.

(** [(size / 1024).toFixed(2)] for a size in bytes: the division by a power
    of two is exact, and [toFixed] takes the integer n for which n / 100 is
    nearest to it, the larger one of two. *)
Definition toFixed2 (size : Z) : string :=
  let n := (50 * size + 256) / 512 in
  String.append (string_of_Z (n / 100))
    (String.append "."
       (String.append (if n mod 100 <? 10 then "0" else "")
                      (string_of_Z (n mod 100)))).

(* ------------------------------------------------------------------ *)
(** ** The file system

    The directories that exist and the text of the files that exist; of a
    path written more than once the first entry counts.  The log file is
    not kept up to date here: the appends of the logger are left out. *)

Record FileSystem : Type := mkFs {
  directories : list string;
  files : list (string * string)
}.

Fixpoint lookupFile (path : string) (entries : list (string * string))
  : option string :=
  match entries with
  | [] => None
  | (p, text) :: rest =>
      if String.eqb p path then Some text else lookupFile path rest
  end.

Definition fileText (path : string) (fs : FileSystem) : option string :=
  lookupFile path (files fs).

(** [fs.existsSync(path)], which never throws. *)
Definition existsSync (path : string) (fs : FileSystem) : bool :=
  existsb (String.eqb path) (directories fs)
  || match fileText path fs with
     | Some _ => true
     | None => false
     end.

(** The file system with [text] in the file at [path]. *)
Definition withFile (path text : string) (fs : FileSystem) : FileSystem :=
  {| directories := directories fs; files := (path, text) :: files fs |}.

(** The calls into [fs] that can throw. *)
Inductive FsCall : Type :=
| Mkdir (path : string)
| WriteFile (path : string)
| ReadFile (path : string)
| StatFile (path : string).

Record CSVStats : Type := mkStats {
  filePath : string;
  fileExists : bool;      (* exists *)
  size : Z;
  sizeKB : string;
  rowCount : Z
}.

Section Files.

(** [path.join] *)
Variable path_join : string -> string -> string.

(** What a call into [fs] throws for a reason of the operating system
    (permissions, a full disk, ...), if it throws. *)
Variable ioFailure : FsCall -> option Thrown.

(** [fs.mkdirSync(path, { recursive: true })] *)
Definition mkdirSync (path : string) (fs : FileSystem)
  : Thrown + FileSystem :=
  match ioFailure (Mkdir path) with
  | Some e => inl e
  | None =>
      inr {| directories := path :: directories fs; files := files fs |}
  end.

(** [fs.writeFileSync(path, text)] *)
Definition writeFileSync (path text : string) (fs : FileSystem)
  : Thrown + FileSystem :=
  match ioFailure (WriteFile path) with
  | Some e => inl e
  | None => inr (withFile path text fs)
  end.

(** [fs.readFileSync(path)] *)
Definition readFileSync (path : string) (fs : FileSystem) : Thrown + string :=
  match ioFailure (ReadFile path) with
  | Some e => inl e
  | None =>
      match fileText path fs with
      | Some text => inr text
      | None =>
          inl (JsError (String.append "ENOENT: no such file or directory, open "
                                      path))
      end
  end.

(** [fs.statSync(path).size]; the size of a directory is never looked at. *)
Definition statSize (path : string) (fs : FileSystem) : Thrown + Z :=
  match ioFailure (StatFile path) with
  | Some e => inl e
  | None =>
      match fileText path fs with
      | Some text => inr (utf8Length text)
      | None =>
          if existsb (String.eqb path) (directories fs) then inr 0
          else inl (JsError (String.append
                               "ENOENT: no such file or directory, stat " path))
      end
  end.

(* ------------------------------------------------------------------ *)
(** ** processor/CSVProcessor.ts: [initializeCSV], [getCSVStats] *)

(** [`discord_messages_${channelId}.csv`] *)
Definition csvFileName (channelId : string) : string :=
  String.append "discord_messages_" (String.append channelId ".csv").

(** [CSV_HEADERS.join(",")] *)
Definition headerLine : string := String.concat (str1 comma) CSV_HEADERS.

(** [initializeCSV]: the result, [this.csvFilePath] and the file system
    afterwards, the lines of the logger left out. *)
Definition initializeCSV (outputDir channelId : string)
    (csvFilePath : string) (fs : FileSystem)
  : Outcome string * string * FileSystem :=
  (* Ensure directory exists *)
  match (if negb (existsSync outputDir fs) then mkdirSync outputDir fs
         else inr fs) with
  | inl e => (Threw e, csvFilePath, fs)
  | inr fs1 =>
      (* Use fixed file name (no timestamp) *)
      let csvFilePath := path_join outputDir (csvFileName channelId) in
      (* Check if file exists *)
      let fileExists := existsSync csvFilePath fs1 in
      if negb fileExists then
        (* Create with headers *)
        match writeFileSync csvFilePath
                (String.append headerLine (str1 newline)) fs1 with
        | inl e => (Threw e, csvFilePath, fs1)
        | inr fs2 => (Returned csvFilePath, csvFilePath, fs2)
        end
      else
        match statSize csvFilePath fs1 with
        | inl e => (Threw e, csvFilePath, fs1)
        | inr _ => (Returned csvFilePath, csvFilePath, fs1)
        end
  end.

(** [getCSVStats] *)
Definition getCSVStats (csvFilePath : string) (fs : FileSystem) : CSVStats :=
  let failed :=
    {| filePath := csvFilePath; fileExists := false; size := 0;
       sizeKB := "0"; rowCount := 0 |} in
  let fileExists := existsSync csvFilePath fs in
  match (if fileExists then statSize csvFilePath fs else inr 0) with
  | inl _ => failed
  | inr size =>
      let sizeKB := toFixed2 size in
      if fileExists then
        match readFileSync csvFilePath fs with
        | inl _ => failed
        | inr content =>
            {| filePath := csvFilePath; fileExists := fileExists;
               size := size; sizeKB := sizeKB;
               rowCount :=
                 Z.of_nat
                   (List.length
                      (filter (fun line => negb (String.eqb (trim line) ""))
                              (splitLines content)))
                 - 1 (* -1 for header *) |}
        end
      else
        {| filePath := csvFilePath; fileExists := fileExists;
           size := size; sizeKB := sizeKB; rowCount := 0 |}
  end.

End Files.

(* ------------------------------------------------------------------ *)
(** ** Reading the whole artifact back *)

(** The records of a text, one after the other, with the reader of single
    records above. *)
Fixpoint readRecords (fuel : nat) (s : string) : option (list (list string)) :=
  match fuel with
  | O => None
  | S fuel' =>
      match s with
      | EmptyString => Some []
      | _ =>
          match parseCSVRecord s with
          | None => None
          | Some (fields, rest) =>
              match readRecords fuel' rest with
              | Some records => Some (fields :: records)
              | None => None
              end
          end
      end
  end.

Definition parseCSV (s : string) : option (list (list string)) :=
  readRecords (S (String.length s)) s.

(** A stand-in for [path.join]: the two segments with a separator between
    them. *)
Definition joinPlain (dir name : string) : string :=
  String.append dir (String.append "/" name).

Definition noIoFailure (call : FsCall) : option Thrown := None.

Definition emptyFs : FileSystem := {| directories := []; files := [] |}.

(** The test of [getCSVStats] on a line: the trimmed line is not empty. *)
Definition nonBlank (line : string) : bool :=
  negb (String.eqb (trim line) "").

(** The text holds no line feed. *)
Definition oneLine (s : string) : Prop := ~ In newline (chars s).

(** The artifact as [appendMessages] finds it: the text of the file at
    [csvFilePath], before any append. *)
Definition diskOf (csvFilePath : string) (fs : FileSystem) : Disk :=
  {| fileContent := match fileText csvFilePath fs with
                    | Some text => text
                    | None => EmptyString
                    end;
     appendCalls := 0 |}.


(* ------------------------------------------------------------------ *)
(** ** utils/validators.ts *)

(** What the validators return. *)
Record Check : Type := mkCheck {
  check_isValid : bool;
  check_errors : list string;
  check_warnings : list string
}.

(** [{ isValid: errors.length === 0, errors, warnings }] *)
Definition checked (errs warns : list string) : Check :=
  {| check_isValid := Nat.eqb (List.length errs) 0;
     check_errors := errs;
     check_warnings := warns |}.

(** The class of decimal digits of a regular expression. *)
Definition isDigit (c : ascii) : bool :=
  let n := nat_of_ascii c in Nat.leb 48 n && Nat.leb n 57.

(** The test of the regular expression for one or more digits from the
    start of the input to its end. *)
Definition digitsOnly (s : string) : bool :=
  negb (String.eqb s "") && forallb isDigit (chars s).

(** The two regular expressions of [validateTimestamp] are sequences of
    digits and literal characters. *)
Inductive Atom : Type :=
| Digit
| Lit (c : ascii).

(** The text after a match of the atoms at the start of the input. *)
Fixpoint matchAtoms (atoms : list Atom) (s : string) : option string :=
  match atoms with
  | [] => Some s
  | atom :: atoms' =>
      match s with
      | EmptyString => None
      | String c rest =>
          if match atom with
             | Digit => isDigit c
             | Lit l => Ascii.eqb c l
             end
          then matchAtoms atoms' rest
          else None
      end
  end.

Definition dateAtoms : list Atom :=
  [Digit; Digit; Digit; Digit; Lit "-"; Digit; Digit; Lit "-"; Digit; Digit].

Definition timeAtoms : list Atom :=
  [Lit "T"; Digit; Digit; Lit ":"; Digit; Digit; Lit ":"; Digit; Digit].

(** [isoRegex.test(s)]: date and time at the start, anything after them. *)
Definition isoRegex (s : string) : bool :=
  match matchAtoms (dateAtoms ++ timeAtoms) s with
  | Some _ => true
  | None => false
  end.

(** [dateRegex.test(s)]: a date and nothing else. *)
Definition dateRegex (s : string) : bool :=
  match matchAtoms dateAtoms s with
  | Some EmptyString => true
  | _ => false
  end.

Definition validateServerId (serverId : string) : Check :=
  checked
    (if String.eqb serverId "" || String.eqb (trim serverId) "" then
       ["Server ID is required"]
     else if negb (digitsOnly serverId) then
       ["Server ID must contain only digits"]
     else if Nat.ltb 20 (String.length serverId) then
       ["Server ID is too long"]
     else [])
    [].

Definition validateChannelId (channelId : string) : Check :=
  checked
    (if String.eqb channelId "" || String.eqb (trim channelId) "" then
       ["Channel ID is required"]
     else if negb (digitsOnly channelId) then
       ["Channel ID must contain only digits"]
     else if Nat.ltb 20 (String.length channelId) then
       ["Channel ID is too long"]
     else [])
    [].

Definition validateToken (token : string) : Check :=
  checked
    (if String.eqb token "" || String.eqb (trim token) "" then
       ["Token is required"]
     else if Nat.ltb (String.length token) 50 then
       ["Token appears to be invalid (too short)"]
     else if includes token " " then
       ["Token should not contain spaces"]
     else [])
    [].

Definition validateTimestamp (env : Env) (timestamp : string) : Check :=
  if String.eqb timestamp "" then checked [] []
  else
    (* Check if valid ISO 8601 or simple date format *)
    let formatErrors :=
      if negb (isoRegex timestamp) && negb (dateRegex timestamp) then
        ["Invalid timestamp format. Use ISO 8601 (2026-01-28T10:00:00Z) or date (2026-01-28)"]
      else [] in
    (* Try to parse as date *)
    let dateErrors :=
      match newDate env timestamp with
      | None => ["Timestamp is not a valid date"]
      | Some _ => []
      end in
    checked (formatErrors ++ dateErrors) [].

(** An optional string that is set and not empty. *)
Definition given (s : option string) : option string :=
  match s with
  | Some text => if String.eqb text "" then None else Some text
  | None => None
  end.

Definition validateAllConfig (env : Env) (serverId channelId token : string)
    (timestampStart timestampEnd : option string) : Check :=
  (* Validate individual fields *)
  let serverValidation := validateServerId serverId in
  let channelValidation := validateChannelId channelId in
  let tokenValidation := validateToken token in
  let errs :=
    check_errors serverValidation ++ check_errors channelValidation
    ++ check_errors tokenValidation in
  let errs :=
    match given timestampStart with
    | Some ts => errs ++ check_errors (validateTimestamp env ts)
    | None => errs
    end in
  let errs :=
    match given timestampEnd with
    | Some ts => errs ++ check_errors (validateTimestamp env ts)
    | None => errs
    end in
  (* Validate timestamp range *)
  let errs :=
    match given timestampStart, given timestampEnd with
    | Some s, Some e =>
        if date_gt (newDate env s) (newDate env e) then
          errs ++ ["Start timestamp cannot be after end timestamp"]
        else errs
    | _, _ => errs
    end in
  checked errs [].

(** [new Date] on timestamps written as a date, with or without a time:
    the calendar fields are read as one number (enough to order two dates
    of this form). *)
Definition digitsOf (s : string) : string :=
  string_of_list_ascii (filter isDigit (chars s)).

Definition calendarDate (s : string) : JsDate :=
  if isoRegex s || dateRegex s then
    match NilZero.uint_of_string
            (String.append (digitsOf (substring 0 19 s))
               (if dateRegex s then "000000" else "")) with
    | Some u => Some (Z.of_uint u)
    | None => None
    end
  else None.

Definition calendarEnv : Env :=
  {| timerLag := fun _ => 0;
     httpLatency := fun _ => 0;
     httpOutcome := fun _ cursor => Sample.good [];
     session := inr "token";
     sessionValid := true;
     validation := {| isValid := true; validationErrors := [] |};
     newDate := calendarDate |}.

(* ------------------------------------------------------------------ *)
(** ** Exchanges with the other endpoints

    [fetch] rejects, or resolves with a status and a body; reading the body
    ([response.json()] and the property reads that follow) gives a value or
    throws. *)

Record Reply (A : Type) : Type := mkReply {
  reply_status : Z;
  reply_body : Thrown + A
}.
Arguments mkReply {A} _ _.
Arguments reply_status {A} _.
Arguments reply_body {A} _.

(** [response.ok] *)
Definition replyOk {A} (r : Reply A) : bool :=
  (200 <=? reply_status r) && (reply_status r <=? 299).

Inductive Exchange (A : Type) : Type :=
| Replied (r : Reply A)
| Refused (e : Thrown).
Arguments Replied {A} r.
Arguments Refused {A} e.

(* ------------------------------------------------------------------ *)
(** ** core/authentication/SessionManager.ts *)

(** The [token] property of the parsed token file: a string, or anything
    else (no such property, [null], a number, ...). *)
Inductive TokenField : Type :=
| TokenText (text : string)
| TokenOther.

(** The parsed token file, as far as the code reads it. *)
Record TokenConfig : Type := mkTokenConfig {
  config_token : TokenField;
  config_createdAt : option string
}.

Module SessionManager.

Record State : Type := mkState {
  token : string;
  filePath : string;
  tokenConfig : option TokenConfig
}.

(** [new SessionManager(filePath, logger)] *)
Definition create (path : string) : State :=
  {| token := ""; filePath := path; tokenConfig := None |}.

Section Session.

Variable path_dirname : string -> string.
Variable ioFailure : FsCall -> option Thrown.

(** [JSON.parse(fileContent)] and the read of its [token] property, which
    throw on malformed text and on a value without properties. *)
Variable JSON_parse : string -> Thrown + TokenConfig.

(** [JSON.stringify({ token, createdAt }, null, 2)] *)
Variable JSON_stringify : string -> string -> string.

(** [saveTokenToFile]: a failure is logged as a warning and swallowed. *)
Definition saveTokenToFile (tok createdAt : string) (sm : State)
    (fs : FileSystem) : FileSystem :=
  let dir := path_dirname (filePath sm) in
  match (if negb (existsSync dir fs) then mkdirSync ioFailure dir fs
         else inr fs) with
  | inl _ => fs
  | inr fs1 =>
      match writeFileSync ioFailure (filePath sm)
              (JSON_stringify tok createdAt) fs1 with
      | inl _ => fs1
      | inr fs2 => fs2
      end
  end.

Definition loadFromFile (sm : State) (fs : FileSystem)
  : Outcome string * State :=
  match readFileSync ioFailure (filePath sm) fs with
  | inl e => (Threw e, sm)
  | inr text =>
      let fileContent := trim text in
      if String.eqb fileContent "" then
        (Threw (JsError "Token file is empty"), sm)
      else
        match JSON_parse fileContent with
        | inl e => (Threw e, sm)
        | inr data =>
            match config_token data with
            | TokenOther =>
                (Threw (JsError "Token must be a string in token file"), sm)
            | TokenText tok =>
                if String.eqb tok "" then
                  (Threw (JsError "Token must be a string in token file"), sm)
                else if String.eqb (trim tok) "" then
                  (Threw (JsError "Token value is empty"), sm)
                else
                  (Returned tok,
                   {| token := tok; filePath := filePath sm;
                      tokenConfig := Some data |})
            end
        end
  end.

(** [loadOrCreateSession(token?)]; [createdAt] is what
    [new Date().toISOString()] gives when the token is saved.  The lines of
    the logger are left out. *)
Definition loadOrCreateSession (tok : option string) (createdAt : string)
    (sm : State) (fs : FileSystem) : Outcome string * State * FileSystem :=
  match given tok with
  | Some t =>
      (* If token provided, use it *)
      let sm1 := {| token := t; filePath := filePath sm;
                    tokenConfig := tokenConfig sm |} in
      (Returned t, sm1, saveTokenToFile t createdAt sm1 fs)
  | None =>
      (* Try to load from file *)
      if existsSync (filePath sm) fs then
        let (out, sm1) := loadFromFile sm fs in (out, sm1, fs)
      else
        (Threw (JsError
                  (String.append "Token file not found at "
                     (String.append (filePath sm)
                        " and no token provided. Please provide a token via parameter or create a token file."))),
         sm, fs)
  end.

(** [isSessionValid], given what the exchange with [users/@me] does. *)
Definition isSessionValid (sm : State) (usersMe : Exchange unit) : bool :=
  if String.eqb (token sm) "" then false
  else
    match usersMe with
    | Refused _ => false
    | Replied r =>
        if replyOk r then
          match reply_body r with
          | inr _ => true
          | inl _ => false
          end
        else if reply_status r =? 401 then false
        else false
    end.

Definition getToken (sm : State) : Thrown + string :=
  if String.eqb (token sm) "" then
    inl (JsError "No token loaded. Call loadSession() first.")
  else inr (token sm).

End Session.

End SessionManager.

(* ------------------------------------------------------------------ *)
(** ** core/authentication/SessionValidator.ts *)

Module SessionValidator.

Record SessionCheck : Type := mkSessionCheck {
  sessionIsValid : bool;          (* isValid *)
  sessionReason : option string   (* reason *)
}.

Record AccessCheck : Type := mkAccessCheck {
  hasAccess : bool;
  accessReason : option string    (* reason *)
}.

(** A reason inside a template string; one that is not set reads
    [undefined]. *)
Definition reasonText (reason : option string) : string :=
  match reason with
  | Some text => text
  | None => "undefined"
  end.

Section Validator.

Variable path_dirname : string -> string.
Variable ioFailure : FsCall -> option Thrown.
Variable JSON_parse : string -> Thrown + TokenConfig.
Variable JSON_stringify : string -> string -> string.

(** [validateSession]; the session is loaded without a token, so nothing is
    saved and no time is read. *)
Definition validateSession (sm : SessionManager.State) (fs : FileSystem)
    (usersMe : Exchange unit) : SessionCheck * SessionManager.State :=
  (* Load session *)
  match SessionManager.loadOrCreateSession path_dirname ioFailure JSON_parse
          JSON_stringify None EmptyString sm fs with
  | (Threw e, sm1, _) =>
      ({| sessionIsValid := false; sessionReason := Some (errorMessage e) |},
       sm1)
  | (Returned _, sm1, _) =>
      (* Validate token with Discord *)
      if negb (SessionManager.isSessionValid sm1 usersMe) then
        ({| sessionIsValid := false;
            sessionReason := Some "Token is invalid or expired" |}, sm1)
      else ({| sessionIsValid := true; sessionReason := None |}, sm1)
  end.

(** [validateChannelAccess], given what the exchange that asks the channel
    for one message does. *)
Definition validateChannelAccess (sm : SessionManager.State)
    (probe : Exchange unit) : AccessCheck :=
  match SessionManager.getToken sm with
  | inl e => {| hasAccess := false; accessReason := Some (errorMessage e) |}
  | inr _ =>
      match probe with
      | Refused e =>
          {| hasAccess := false; accessReason := Some (errorMessage e) |}
      | Replied r =>
          if replyOk r then {| hasAccess := true; accessReason := None |}
          else if reply_status r =? 403 then
            {| hasAccess := false;
               accessReason := Some "No permission to access this channel" |}
          else if reply_status r =? 404 then
            {| hasAccess := false; accessReason := Some "Channel not found" |}
          else
            {| hasAccess := false;
               accessReason :=
                 Some (String.append "API returned status "
                                     (string_of_Z (reply_status r))) |}
      end
  end.

Definition fullValidation (sm : SessionManager.State) (fs : FileSystem)
    (usersMe probe : Exchange unit)
  : ValidationResult * SessionManager.State :=
  (* Validate session/token *)
  let (sessionValidation, sm1) := validateSession sm fs usersMe in
  let errs :=
    if negb (sessionIsValid sessionValidation) then
      [String.append "Session validation failed: "
                     (reasonText (sessionReason sessionValidation))]
    else [] in
  (* Validate channel access *)
  let channelValidation := validateChannelAccess sm1 probe in
  let errs :=
    if negb (hasAccess channelValidation) then
      errs ++ [String.append "Channel access validation failed: "
                             (reasonText (accessReason channelValidation))]
    else errs in
  ({| isValid := Nat.eqb (List.length errs) 0; validationErrors := errs |},
   sm1).

End Validator.

End SessionValidator.

(* ------------------------------------------------------------------ *)
(** ** core/scraper/DiscordScraper.ts: [getServerInfo], [getChannelInfo] *)

(** The body of a guild or channel, kept by its [name] property. *)
Record Info : Type := mkInfo {
  info_name : option string
}.

Section Infos.

(** The exchanges with the guild and the channel endpoint, by id. *)
Variable guildExchange : string -> Exchange Info.
Variable channelExchange : string -> Exchange Info.

(** [getServerInfo]: [None] is [null]. *)
Definition getServerInfo (server : string) : M (option Info) :=
  tryCatch
    (_token <- getToken ;;
     match guildExchange server with
     | Refused e => throw e
     | Replied r =>
         if negb (replyOk r) then ret None
         else match reply_body r with
              | inr info => ret (Some info)
              | inl e => throw e
              end
     end)
    (fun _ => ret None).

Definition getChannelInfo (channel : string) : M (option Info) :=
  tryCatch
    (_token <- getToken ;;
     match channelExchange channel with
     | Refused e => throw e
     | Replied r =>
         if negb (replyOk r) then ret None
         else match reply_body r with
              | inr info => ret (Some info)
              | inl e => throw e
              end
     end)
    (fun _ => ret None).

End Infos.

(** [info?.name || "Unknown"] *)
Definition nameOr (info : option Info) : string :=
  match info with
  | Some i =>
      match info_name i with
      | Some name => if String.eqb name "" then "Unknown" else name
      | None => "Unknown"
      end
  | None => "Unknown"
  end.

(* ------------------------------------------------------------------ *)
(** ** utils/input-handler.ts *)

(** [process.env], as far as the code reads it. *)
Record ProcessEnv : Type := mkProcessEnv {
  DISCORD_SERVER_ID : option string;
  DISCORD_CHANNEL_ID : option string;
  DISCORD_TOKEN : option string;
  DISCORD_TIMESTAMP_START : option string;
  DISCORD_TIMESTAMP_END : option string
}.

Record UserInput : Type := mkUserInput {
  input_serverId : string;
  input_channelId : string;
  input_token : string;
  input_timestampStart : option string;
  input_timestampEnd : option string
}.

Module InputHandler.

Section Prompts.

(** What the user types at a question. *)
Variable answer : string -> string.

(** [prompt(question)] *)
Definition prompt (question : string) : string := trim (answer question).

(** An optional string as a string, when it is truthy. *)
Definition orAsk (value : option string) (question : string) : string :=
  match given value with
  | Some text => text
  | None => prompt question
  end.

Definition getConfiguration (vars : ProcessEnv) : Thrown + UserInput :=
  (* Try to read from environment *)
  let serverId := DISCORD_SERVER_ID vars in
  let channelId := DISCORD_CHANNEL_ID vars in
  let tok := DISCORD_TOKEN vars in
  let timestampStart := DISCORD_TIMESTAMP_START vars in
  let timestampEnd := DISCORD_TIMESTAMP_END vars in
  (* If any are missing, prompt user *)
  let '(serverId, channelId, tok, timestampStart, timestampEnd) :=
    match given serverId, given channelId, given tok with
    | Some s, Some c, Some t => (s, c, t, timestampStart, timestampEnd)
    | _, _, _ =>
        let s := orAsk serverId "Enter Server ID: " in
        let c := orAsk channelId "Enter Channel ID: " in
        let t := orAsk tok "Enter Discord Token: " in
        let startInput :=
          prompt "Start timestamp (optional, press Enter to skip): " in
        let endInput :=
          prompt "End timestamp (optional, press Enter to skip): " in
        (s, c, t,
         (if String.eqb startInput "" then timestampStart
          else Some startInput),
         (if String.eqb endInput "" then timestampEnd else Some endInput))
    end in
  (* Validate *)
  if String.eqb serverId "" || String.eqb channelId "" || String.eqb tok ""
  then inl (JsError "Server ID, Channel ID, and Token are required!")
  else
    inr {| input_serverId := serverId; input_channelId := channelId;
           input_token := tok; input_timestampStart := timestampStart;
           input_timestampEnd := timestampEnd |}.

End Prompts.

End InputHandler.

(* ------------------------------------------------------------------ *)
(** ** index.ts *)

Module FILE_PATHS.
Definition LOGS_DIR : string := "./logs".
Definition DATA_DIR : string := "./data".
Definition SESSIONS_DIR : string := "./data/sessions".
Definition EXPORTS_DIR : string := "./data/exports".
Definition TOKEN_FILE : string := "./data/sessions/discord-token.json".
Definition CSV_FILE_PREFIX : string := "discord_messages".
End FILE_PATHS.

(** [main] is followed through the file system and to the code the process
    exits with.  What it writes to the console and to the log file
    ([path.join(FILE_PATHS.LOGS_DIR, "discord-scraper.log")]) is left out:
    the logger swallows its own failures, and the program reads neither
    back.  The file systems below are therefore right for every file other
    than the log file. *)

(** What [main] has at hand when it starts the scraper. *)
Record Ready : Type := mkReady {
  ready_input : UserInput;
  ready_session : SessionManager.State;
  ready_csvFilePath : string;
  ready_fs : FileSystem
}.

Section Main.

(** Timers, the messages endpoint and [new Date]; the session fields of
    this environment are not read. *)
Variable feed : Env.

Variable path_join : string -> string -> string.
Variable path_dirname : string -> string.
Variable ioFailure : FsCall -> option Thrown.

(** The token file is parsed and written. *)
Variable JSON_parse : string -> Thrown + TokenConfig.
Variable JSON_stringify_config : string -> string -> string.

(** Messages are serialized and appended to the artifact. *)
Variable JSON_stringify : DiscordMessage -> Thrown + string.
Variable appendFailure : nat -> option Thrown.

(** The user at the prompt and the variables of the process. *)
Variable answer : string -> string.
Variable vars : ProcessEnv.

(** The exchanges with [users/@me] (twice: [setupAuthentication] and
    [validateSession]), the exchange that asks the channel for one message,
    and the guild and channel endpoints. *)
Variables usersMe usersMeAgain probe : Exchange unit.
Variable guildExchange : string -> Exchange Info.
Variable channelExchange : string -> Exchange Info.

(** [new Date().toISOString()] when the token is saved. *)
Variable createdAt : string.

(** The session manager and validator at work, as the scraper calls them:
    [loadOrCreateSession()] and [isSessionValid()] in [setupAuthentication],
    then [fullValidation]. *)
Definition scraperEnv (sm : SessionManager.State) (fs : FileSystem) : Env :=
  let loaded :=
    SessionManager.loadOrCreateSession path_dirname ioFailure JSON_parse
      JSON_stringify_config None EmptyString sm fs in
  let sm1 := snd (fst loaded) in
  {| timerLag := timerLag feed;
     httpLatency := httpLatency feed;
     httpOutcome := httpOutcome feed;
     session := match fst (fst loaded) with
                | Returned tok => inr tok
                | Threw e => inl e
                end;
     sessionValid := SessionManager.isSessionValid sm1 usersMe;
     validation :=
       fst (SessionValidator.fullValidation path_dirname ioFailure JSON_parse
              JSON_stringify_config sm1 fs usersMeAgain probe);
     newDate := newDate feed |}.

(** [fs.existsSync(dir)] and, if not, [fs.mkdirSync(dir, { recursive: true })] *)
Definition ensureDirectory (dir : string) (fs : FileSystem)
  : Thrown + FileSystem :=
  if negb (existsSync dir fs) then mkdirSync ioFailure dir fs else inr fs.

(** [main] up to the call of the scraper: the file system it leaves when it
    exits before, or what it goes on with. *)
Definition prepare (fs : FileSystem) : FileSystem + Ready :=
  (* new Logger(...) *)
  match ensureDirectory
          (path_dirname (path_join FILE_PATHS.LOGS_DIR "discord-scraper.log"))
          fs with
  | inl _ => inl fs
  | inr fs =>
      (* Get user input *)
      match InputHandler.getConfiguration answer vars with
      | inl _ => inl fs
      | inr userInput =>
          (* Validate input *)
          let validation :=
            validateAllConfig feed (input_serverId userInput)
              (input_channelId userInput) (input_token userInput)
              (input_timestampStart userInput)
              (input_timestampEnd userInput) in
          if negb (check_isValid validation) then inl fs
          else
            (* Create temporary session file with provided token *)
            match ensureDirectory FILE_PATHS.SESSIONS_DIR fs with
            | inl _ => inl fs
            | inr fs =>
                let sessionManager :=
                  SessionManager.create FILE_PATHS.TOKEN_FILE in
                (* Load or save token *)
                match SessionManager.loadOrCreateSession path_dirname
                        ioFailure JSON_parse JSON_stringify_config
                        (Some (input_token userInput)) createdAt
                        sessionManager fs with
                | (Threw _, _, fs) => inl fs
                | (Returned _, sessionManager, fs) =>
                    (* Initialize CSV file *)
                    match initializeCSV path_join ioFailure
                            FILE_PATHS.EXPORTS_DIR
                            (input_channelId userInput) EmptyString fs with
                    | (Threw _, _, fs) => inl fs
                    | (Returned _, csvFilePath, fs) =>
                        inr {| ready_input := userInput;
                               ready_session := sessionManager;
                               ready_csvFilePath := csvFilePath;
                               ready_fs := fs |}
                    end
                end
            end
      end
  end.

(** The call of the scraper in [main]. *)
Definition scrape (fuel : nat) (start : Z) (ready : Ready)
  : option ScraperResult * World :=
  scrapeChannel
    (scraperEnv (ready_session ready) (ready_fs ready)) fuel
    (input_serverId (ready_input ready)) (input_channelId (ready_input ready))
    1000 (* max messages *)
    (input_timestampStart (ready_input ready))
    (input_timestampEnd (ready_input ready))
    (snd (setToken (SessionManager.token (ready_session ready))
            (initialWorld start))).

(** The metadata [main] passes to [appendMessages]. *)
Definition metadataOf (userInput : UserInput) (serverInfo channelInfo : option Info)
  : ServerMetadata :=
  {| serverName := nameOr serverInfo;
     serverId := input_serverId userInput;
     channelName := nameOr channelInfo;
     channelId := input_channelId userInput |}.

(** [appendMessages] on the artifact in the file system: the batch loop
    (the file is touched when a batch is written), then the [fs.statSync] on
    the artifact, which may throw. *)
Definition appendToArtifact (csvFilePath : string)
    (msgs : list DiscordMessage) (metadata : ServerMetadata)
    (fs : FileSystem) : Outcome AppendResult * FileSystem :=
  match appendMessages JSON_stringify appendFailure csvFilePath msgs metadata
          (diskOf csvFilePath fs) with
  | (Threw e, _) => (Threw e, fs)
  | (Returned result, disk') =>
      let fs' :=
        if String.eqb (fileContent disk')
                      (fileContent (diskOf csvFilePath fs))
        then fs
        else withFile csvFilePath (fileContent disk') fs in
      match statSize ioFailure csvFilePath fs' with
      | inl e => (Threw e, fs')
      | inr _ => (Returned result, fs')
      end
  end.

(** [main] after the scraper has returned: the exit code and the file
    system.  [getCSVStats] and the summary that follow the append change
    neither. *)
Definition export (ready : Ready) (scrapeResult : ScraperResult) (w : World)
  : Z * FileSystem :=
  (* Check for errors *)
  if Nat.ltb 0 (List.length (errors scrapeResult)) then (1, ready_fs ready)
  else
    (* Get server and channel info *)
    match getServerInfo guildExchange
            (input_serverId (ready_input ready)) w with
    | (Threw _, _) => (1, ready_fs ready)
    | (Returned serverInfo, w1) =>
        match getChannelInfo channelExchange
                (input_channelId (ready_input ready)) w1 with
        | (Threw _, _) => (1, ready_fs ready)
        | (Returned channelInfo, _) =>
            (* Append to CSV *)
            match appendToArtifact (ready_csvFilePath ready)
                    (messages scrapeResult)
                    (metadataOf (ready_input ready) serverInfo channelInfo)
                    (ready_fs ready) with
            | (Threw _, fs) => (1, fs)
            | (Returned _, fs) => (0, fs)
            end
        end
    end.

(** [main]: the code the process exits with and the file system it leaves;
    [None] only when the model of the fetch loop ran out of fuel. *)
Definition main (fuel : nat) (start : Z) (fs : FileSystem)
  : option (Z * FileSystem) :=
  match prepare fs with
  | inl fs => Some (1, fs)
  | inr ready =>
      match scrape fuel start ready with
      | (None, _) => None
      | (Some scrapeResult, w) => Some (export ready scrapeResult w)
      end
  end.

End Main.

(* ------------------------------------------------------------------ *)
(** ** Sample oracles for the session and the process *)

(** Two more environments: a messages endpoint whose bodies cannot be parsed,
    and a session that fails validation. *)
Definition garbledEnv : Env :=
  {| timerLag := fun _ => 0;
     httpLatency := fun _ => 0;
     httpOutcome := fun _ _ =>
       Responded
         {| status := 200;
            json := inl (JsError "Unexpected token < in JSON at position 429") |};
     session := inr "token";
     sessionValid := true;
     validation := {| isValid := true; validationErrors := [] |};
     newDate := Sample.millis |}.

Definition lockedOutEnv : Env :=
  {| timerLag := fun _ => 0;
     httpLatency := fun _ => 0;
     httpOutcome := fun _ cursor => Sample.good (Sample.pageFor 2 Sample.history cursor);
     session := inr "token";
     sessionValid := true;
     validation :=
       {| isValid := false;
          validationErrors :=
            ["Channel access validation failed: No permission to access this channel"] |};
     newDate := Sample.millis |}.

(** A stand-in for the token file: the token after a fixed key. *)
Definition writeConfig (tok createdAt : string) : string :=
  String.append "token=" tok.

Definition readConfig (text : string) : Thrown + TokenConfig :=
  if String.prefix "token=" text then
    inr {| config_token := TokenText (substring 6 (String.length text - 6) text);
           config_createdAt := None |}
  else inl (JsError "Unexpected token in JSON at position 0").

(** A stand-in for [path.dirname]: the path up to its last separator. *)
Fixpoint dirnameChars (path : list ascii) : list ascii :=
  match path with
  | [] => []
  | c :: rest =>
      if existsb (Ascii.eqb "/"%char) rest then c :: dirnameChars rest
      else []
  end.

Definition dirnamePlain (path : string) : string :=
  string_of_list_ascii (dirnameChars (chars path)).

Definition sampleToken : string :=
  "MTIzNDU2Nzg5MDEyMzQ1Njc4.Gh7k2a.abcdefghijklmnopqrstuvwxyz012345".

Definition sampleVars : ProcessEnv :=
  {| DISCORD_SERVER_ID := Some "1184093068289843260";
     DISCORD_CHANNEL_ID := Some "1184093068289843263";
     DISCORD_TOKEN := Some sampleToken;
     DISCORD_TIMESTAMP_START := None;
     DISCORD_TIMESTAMP_END := None |}.

Definition accepted : Exchange unit :=
  Replied {| reply_status := 200; reply_body := inr tt |}.

Definition named (name : string) : Exchange Info :=
  Replied {| reply_status := 200;
             reply_body := inr {| info_name := Some name |} |}.

(** The whole program on the sample feed, on the feed whose second request
    fails, and the state in which it calls the scraper. *)
Definition sampleMain (feed : Env) : option (Z * FileSystem) :=
  main feed joinPlain dirnamePlain noIoFailure readConfig writeConfig
    Sample.stringify (fun _ => None) (fun _ => EmptyString) sampleVars
    accepted accepted accepted (fun _ => named "Guild, the first")
    (fun _ => named "general") "2026-01-28T10:00:00.000Z" 10 0 emptyFs.

Definition sampleReady (feed : Env) : FileSystem + Ready :=
  prepare feed joinPlain dirnamePlain noIoFailure readConfig writeConfig
    (fun _ => EmptyString) sampleVars "2026-01-28T10:00:00.000Z" emptyFs.

(** The state in which the sample program calls the scraper. *)
Definition sampleReadyState : Ready :=
  {| ready_input :=
       {| input_serverId := "1184093068289843260";
          input_channelId := "1184093068289843263";
          input_token := sampleToken;
          input_timestampStart := None;
          input_timestampEnd := None |};
     ready_session :=
       {| SessionManager.token := sampleToken;
          SessionManager.filePath := FILE_PATHS.TOKEN_FILE;
          SessionManager.tokenConfig := None |};
     ready_csvFilePath :=
       "./data/exports/discord_messages_1184093068289843263.csv";
     ready_fs :=
       {| directories := ["./data/exports"; "./data/sessions"; "./logs"];
          files :=
            [("./data/exports/discord_messages_1184093068289843263.csv",
              String.append headerLine (str1 newline));
             ("./data/sessions/discord-token.json",
              writeConfig sampleToken "2026-01-28T10:00:00.000Z")] |} |}.

(** The exit code and the file system of a run, [(1, emptyFs)] standing in
    for a run that ran out of fuel. *)
Definition resultOfMain (run : option (Z * FileSystem)) : Z * FileSystem :=
  match run with
  | Some result => result
  | None => (1, emptyFs)
  end.

(* ------------------------------------------------------------------ *)
(** ** utils/logger.ts *)

Module LOG_LEVELS.
Definition DEBUG : Z := 0.
Definition INFO : Z := 1.
Definition WARN : Z := 2.
Definition ERROR : Z := 3.
End LOG_LEVELS.

(** [config.level] *)
Inductive LevelName : Type :=
| LevelDebug
| LevelInfo
| LevelWarn
| LevelError.

(** [LOG_LEVELS[config.level]] *)
Definition levelNumber (name : LevelName) : Z :=
  match name with
  | LevelDebug => LOG_LEVELS.DEBUG
  | LevelInfo => LOG_LEVELS.INFO
  | LevelWarn => LOG_LEVELS.WARN
  | LevelError => LOG_LEVELS.ERROR
  end.

Record LogConfig : Type := mkLogConfig {
  config_level : LevelName;
  config_filePath : string;
  config_includeConsole : bool;
  config_includeFile : bool;
  config_includeTimestamp : bool
}.

(** A context object: its properties in the order they were set. *)
Inductive ContextValue : Type :=
| CNumber (n : Z)
| CText (text : string).

Definition Context : Type := list (string * ContextValue).

Record LogEntry : Type := mkEntry {
  entry_timestamp : string;
  entry_level : string;
  entry_message : string;
  entry_context : option Context
}.

Record Operation : Type := mkOperation {
  op_name : string;
  op_startTime : Z
}.

(** What a call of the logger leaves outside: a line on the console (by the
    [console] method used), an entry appended to the log file, or the report
    on the console that the entry could not be written. *)
Inductive Output : Type :=
| Console (method logMessage : string) (context : option Context)
| FileLine (entry : LogEntry)
| FileError (error : Thrown).

(** Setting a property of an object. *)
Fixpoint setKey (key : string) (value : ContextValue) (object : Context)
  : Context :=
  match object with
  | [] => [(key, value)]
  | (k, v) :: rest =>
      if String.eqb k key then (key, value) :: rest
      else (k, v) :: setKey key value rest
  end.

(** The object literal that spreads [context] after the properties of
    [base]. *)
Definition spread (base : Context) (context : option Context) : Context :=
  match context with
  | Some properties =>
      fold_left (fun object kv => setKey (fst kv) (snd kv) object)
                properties base
  | None => base
  end.

Module Logger.

Record State : Type := mkState {
  level : Z;
  logFilePath : string;
  includeConsole : bool;
  includeFile : bool;
  includeTimestamp : bool;
  operationStack : list Operation
}.

(** The constructor, before [ensureLogDirectory]: on a configuration, on a
    string (the legacy form) or on nothing. *)
Definition create (config : option (LogConfig + string)) : State :=
  match config with
  | Some (inl c) =>
      {| level := levelNumber (config_level c);
         logFilePath := config_filePath c;
         includeConsole := config_includeConsole c;
         includeFile := config_includeFile c;
         includeTimestamp := config_includeTimestamp c;
         operationStack := [] |}
  | _ =>
      {| level := LOG_LEVELS.INFO;
         logFilePath := "./logs/default.log";
         includeConsole := true;
         includeFile := true;
         includeTimestamp := true;
         operationStack := [] |}
  end.

Section Logging.

(** What serializing an entry and appending it to the log file throws, if
    it throws. *)
Variable writeFailure : LogEntry -> option Thrown.

Definition logToConsole (entry : LogEntry) : Output :=
  let parts :=
    (if String.eqb (entry_timestamp entry) "" then []
     else [String.append "[" (String.append (entry_timestamp entry) "]")])
    ++ [entry_level entry;
        String.append "[" (String.append (entry_message entry) "]")] in
  let logMessage := String.concat " " parts in
  if String.eqb (entry_level entry) "ERROR" then
    Console "error" logMessage (entry_context entry)
  else if String.eqb (entry_level entry) "WARN" then
    Console "warn" logMessage (entry_context entry)
  else if String.eqb (entry_level entry) "DEBUG" then
    Console "debug" logMessage (entry_context entry)
  else Console "log" logMessage (entry_context entry).

Definition logToFile (entry : LogEntry) : Output :=
  match writeFailure entry with
  | Some error => FileError error
  | None => FileLine entry
  end.

(** [log]; [stamp] is what [new Date().toISOString()] gives. *)
Definition log (stamp : string) (lg : State) (levelName message : string)
    (context : option Context) : list Output :=
  let logEntry :=
    {| entry_timestamp := if includeTimestamp lg then stamp else "";
       entry_level := levelName;
       entry_message := message;
       entry_context := context |} in
  (if includeConsole lg then [logToConsole logEntry] else [])
  ++ (if includeFile lg then [logToFile logEntry] else []).

Definition debug (stamp : string) (lg : State) (message : string)
    (context : option Context) : list Output :=
  if level lg <=? LOG_LEVELS.DEBUG then log stamp lg "DEBUG" message context
  else [].

Definition info (stamp : string) (lg : State) (message : string)
    (context : option Context) : list Output :=
  if level lg <=? LOG_LEVELS.INFO then log stamp lg "INFO" message context
  else [].

Definition warn (stamp : string) (lg : State) (message : string)
    (context : option Context) : list Output :=
  if level lg <=? LOG_LEVELS.WARN then log stamp lg "WARN" message context
  else [].

Definition error (stamp : string) (lg : State) (message : string)
    (context : option Context) : list Output :=
  if level lg <=? LOG_LEVELS.ERROR then log stamp lg "ERROR" message context
  else [].

Definition withStack (lg : State) (stack : list Operation) : State :=
  {| level := level lg; logFilePath := logFilePath lg;
     includeConsole := includeConsole lg; includeFile := includeFile lg;
     includeTimestamp := includeTimestamp lg; operationStack := stack |}.

(** [logOperationStart]; [now] is what [Date.now()] gives. *)
Definition logOperationStart (now : Z) (stamp : string)
    (operationName : string) (context : option Context) (lg : State)
  : State * list Output :=
  let lg1 :=
    withStack lg
      (operationStack lg
       ++ [{| op_name := operationName; op_startTime := now |}]) in
  (lg1, info stamp lg1 (String.append operationName "_START") context).

Definition logOperationEnd (now : Z) (stamp : string)
    (operationName : string) (duration : Z) (context : option Context)
    (lg : State) : State * list Output :=
  match find (fun op => String.eqb (op_name op) operationName)
             (operationStack lg) with
  | Some operation =>
      let actualDuration := now - op_startTime operation in
      let lg1 :=
        withStack lg
          (filter (fun op => negb (String.eqb (op_name op) operationName))
                  (operationStack lg)) in
      (lg1,
       info stamp lg1 (String.append operationName "_SUCCESS")
         (Some (spread [("durationMs", CNumber actualDuration)] context)))
  | None => (lg, [])
  end.

Definition logOperationFailure (now : Z) (stamp : string)
    (operationName : string) (duration : Z) (errorText : string)
    (context : option Context) (lg : State) : State * list Output :=
  match find (fun op => String.eqb (op_name op) operationName)
             (operationStack lg) with
  | Some operation =>
      let actualDuration := now - op_startTime operation in
      let lg1 :=
        withStack lg
          (filter (fun op => negb (String.eqb (op_name op) operationName))
                  (operationStack lg)) in
      (lg1,
       error stamp lg1 (String.append operationName "_FAILED")
         (Some (spread [("durationMs", CNumber actualDuration);
                        ("errorMessage", CText errorText)] context)))
  | None => (lg, [])
  end.

End Logging.

End Logger.

(** No operation of this name is open. *)
Definition closed (operationName : string) (stack : list Operation) : Prop :=
  Forall (fun op => op_name op <> operationName) stack.

(** The open operations of other names, oldest first. *)
Definition others (operationName : string) (stack : list Operation)
  : list Operation :=
  filter (fun op => negb (String.eqb (op_name op) operationName)) stack.

(** An input with a server id that is no number, a disk on which the token
    file cannot be written, and a file system that holds an older token. *)
Definition invalidVars : ProcessEnv :=
  {| DISCORD_SERVER_ID := Some "my-server";
     DISCORD_CHANNEL_ID := Some "1184093068289843263";
     DISCORD_TOKEN := Some sampleToken;
     DISCORD_TIMESTAMP_START := None;
     DISCORD_TIMESTAMP_END := None |}.

Definition tokenFileLocked (call : FsCall) : option Thrown :=
  match call with
  | WriteFile path =>
      if String.eqb path FILE_PATHS.TOKEN_FILE
      then Some (JsError "EACCES: permission denied")
      else None
  | _ => None
  end.

Definition olderToken : string :=
  "T0xERVItVE9LRU4tMDEyMzQ1Njc4OQ.Xy9z8w.zyxwvutsrqponmlkjihgfedcba543210".

Definition staleFs : FileSystem :=
  withFile FILE_PATHS.TOKEN_FILE (writeConfig olderToken "2025-12-01") emptyFs.

(** The state of a run that got as far as the scraper. *)
Definition readyOf (prepared : FileSystem + Ready) : Ready :=
  match prepared with
  | inr ready => ready
  | inl fs =>
      {| ready_input :=
           {| input_serverId := ""; input_channelId := ""; input_token := "";
              input_timestampStart := None; input_timestampEnd := None |};
         ready_session := SessionManager.create "";
         ready_csvFilePath := "";
         ready_fs := fs |}
  end.

(* ------------------------------------------------------------------ *)
(** * Proofs *)

Lemma admissions_app a b : admissions (a ++ b) = admissions a ++ admissions b.
Proof.
  induction a as [|e a IH]; simpl; [reflexivity|].
  destruct e; simpl; rewrite ?IH; reflexivity.
Qed.

Lemma newer_app theta a b : newer theta (a ++ b) = (newer theta a + newer theta b)%nat.
Proof. unfold newer. rewrite filter_app, length_app. reflexivity. Qed.

Lemma windowCount_app t a b :
  windowCount t (a ++ b) = (windowCount t a + windowCount t b)%nat.
Proof. unfold windowCount. rewrite filter_app, length_app. reflexivity. Qed.

Lemma newer_le_length theta l : (newer theta l <= List.length l)%nat.
Proof. unfold newer. apply filter_length_le. Qed.

Lemma newer_mono theta1 theta2 l :
  theta1 <= theta2 -> (newer theta2 l <= newer theta1 l)%nat.
Proof.
  intros H. unfold newer. induction l as [|x l IH]; simpl; [lia|].
  destruct (x >? theta2) eqn:E2; destruct (x >? theta1) eqn:E1; simpl; lia.
Qed.

Lemma newer_filter theta0 theta l :
  theta0 <= theta ->
  newer theta (filter (fun x => x >? theta0) l) = newer theta l.
Proof.
  intros H. unfold newer. induction l as [|x l IH]; simpl; [reflexivity|].
  destruct (x >? theta0) eqn:E0; simpl; destruct (x >? theta) eqn:E; simpl;
    try lia.
Qed.

Lemma windowCount_le_newer t l : (windowCount t l <= newer (t - 1000) l)%nat.
Proof.
  unfold windowCount, newer. induction l as [|x l IH]; simpl; [lia|].
  destruct (t - 1000 <? x) eqn:E1; destruct (x <=? t) eqn:E2;
    destruct (x >? t - 1000) eqn:E3; simpl; lia.
Qed.

Lemma windowCount_before t l :
  Forall (fun x => t < x) l -> windowCount t l = O.
Proof.
  unfold windowCount. induction 1 as [|x l Hx _ IH]; simpl; [reflexivity|].
  destruct (t - 1000 <? x) eqn:E1; destruct (x <=? t) eqn:E2; simpl; lia.
Qed.

Lemma newer_head x rest : (newer x (x :: rest) <= List.length rest)%nat.
Proof.
  unfold newer. simpl. replace (x >? x) with false by lia.
  apply filter_length_le.
Qed.

Lemma filter_sorted (f : Z -> bool) l :
  StronglySorted Z.le l -> StronglySorted Z.le (filter f l).
Proof.
  induction 1 as [|x l Hs IH Hx]; simpl; [constructor|].
  destruct (f x); [|exact IH].
  constructor; [exact IH|].
  rewrite Forall_forall in *. intros y Hy. apply filter_In in Hy. apply Hx, Hy.
Qed.

Lemma sorted_snoc l p :
  StronglySorted Z.le l -> Forall (fun x => x <= p) l ->
  StronglySorted Z.le (l ++ [p]).
Proof.
  induction 1 as [|x l Hs IH Hx]; intros Hp; simpl.
  - repeat constructor.
  - inversion Hp; subst. constructor; [apply IH; assumption|].
    apply Forall_app; split; [assumption|]. constructor; [assumption|constructor].
Qed.

Lemma window_bound_snoc (cap : Z) (hist : list Z) (p : Z) :
  Forall (fun x => x <= p) hist ->
  (forall t, Z.of_nat (windowCount t hist) <= cap) ->
  Z.of_nat (newer (p - 1000) hist) + 1 <= cap ->
  forall t, Z.of_nat (windowCount t (hist ++ [p])) <= cap.
Proof.
  intros Hpast Hwin Hnew t. rewrite windowCount_app.
  destruct (Z_lt_le_dec t p) as [Hlt|Hle].
  - rewrite (windowCount_before t [p]) by (repeat constructor; lia).
    specialize (Hwin t). lia.
  - pose proof (windowCount_le_newer t hist).
    pose proof (newer_mono (p - 1000) (t - 1000) hist ltac:(lia)).
    assert (windowCount t [p] <= 1)%nat.
    { unfold windowCount. simpl. destruct (_ && _); simpl; lia. }
    lia.
Qed.

Lemma waitForRateLimit_free env w :
  Z.of_nat (List.length (pruned w)) < requestsPerSecond (limiter w) ->
  waitForRateLimit env w
  = (Returned tt, withAdmission w (pruned w) (clock w) (timers w) []).
Proof.
  intros H. unfold waitForRateLimit, bind, dateNow, getWorld, setRequestTimes, log, ret.
  cbn [limiter requestTimes requestsPerSecond fst snd clock trace timers requests token maxRetries retryDelay].
  fold (pruned w).
  replace (_ >=? _) with false by lia.
  reflexivity.
Qed.

Lemma pruned_young w x : In x (pruned w) -> clock w - 1000 < x.
Proof. unfold pruned. intros H. apply filter_In in H. lia. Qed.

Lemma waitForRateLimit_full env w oldest rest :
  requestsPerSecond (limiter w) <= Z.of_nat (List.length (pruned w)) ->
  pruned w = oldest :: rest ->
  waitForRateLimit env w
  = (Returned tt,
     withAdmission w (pruned w)
       (oldest + 1000 + timerLag env (timers w)) (S (timers w))
       [EvSleep RateWindow (oldest + 1000 - clock w)]).
Proof.
  intros H E.
  assert (Hy : clock w - 1000 < oldest)
    by (apply pruned_young; rewrite E; left; reflexivity).
  unfold waitForRateLimit, bind, dateNow, getWorld, setRequestTimes, log, ret.
  cbn [limiter requestTimes requestsPerSecond fst snd clock trace timers requests token maxRetries retryDelay].
  fold (pruned w).
  replace (_ >=? _) with true by lia.
  rewrite E.
  replace (oldest + 1000 - clock w >? 0) with true by lia.
  unfold delay, withAdmission.
  cbn [limiter requestTimes requestsPerSecond fst snd clock trace timers requests token maxRetries retryDelay].
  rewrite <- app_assoc. simpl.
  replace (clock w + Z.max 0 (oldest + 1000 - clock w) + timerLag env (timers w))
    with (oldest + 1000 + timerLag env (timers w)) by lia.
  reflexivity.
Qed.

Lemma rateInv_cap_bound w :
  RateInv w -> Z.of_nat (List.length (pruned w)) <= requestsPerSecond (limiter w).
Proof.
  intros [Hpast Hrec _ Hwin].
  specialize (Hwin (clock w)). specialize (Hrec (clock w - 1000) ltac:(lia)).
  assert (windowCount (clock w) (admissions (trace w))
          = newer (clock w - 1000) (admissions (trace w))) as Ew.
  { unfold windowCount, newer. f_equal. apply filter_ext_in.
    intros x Hx. rewrite Forall_forall in Hpast. specialize (Hpast x Hx). simpl in Hpast.
    lia. }
  unfold pruned. fold (newer (clock w - 1000) (requestTimes (limiter w))). lia.
Qed.

Lemma rateInv_admission w times clock' timers' evs :
  RateInv w ->
  clock w <= clock' ->
  admissions evs = [] ->
  times = pruned w ->
  Z.of_nat (newer (clock' - 1000) times) + 1 <= requestsPerSecond (limiter w) ->
  RateInv (withAdmission w times clock' timers' evs).
Proof.
  intros [Hpast Hrec Hsort Hwin] Hclk Hevs -> Hroom.
  assert (Hadm : admissions (trace w ++ evs ++ [EvRequest clock'])
                 = admissions (trace w) ++ [clock']).
  { rewrite !admissions_app, Hevs. reflexivity. }
  assert (Hpast' : Forall (fun x => x <= clock') (admissions (trace w))).
  { eapply Forall_impl; [|exact Hpast]. simpl. intros; lia. }
  constructor; unfold withAdmission; cbn [clock trace limiter requestTimes requestsPerSecond].
  - rewrite Hadm. apply Forall_app. split; [exact Hpast'|].
    constructor; [lia|constructor].
  - intros theta Ht. rewrite Hadm, !newer_app. f_equal.
    unfold pruned. rewrite newer_filter by lia. apply Hrec. lia.
  - apply sorted_snoc.
    + apply filter_sorted, Hsort.
    + rewrite Forall_forall. intros x Hx. unfold pruned in Hx. apply filter_In in Hx.
      destruct Hx as [Hx _].
      assert (Hin : (0 < newer (x - 1) (requestTimes (limiter w)))%nat).
      { unfold newer. apply in_split in Hx. destruct Hx as (l1 & l2 & ->).
        rewrite filter_app, length_app. simpl. replace (x >? x - 1) with true by lia.
        simpl. lia. }
      destruct (Z_le_gt_dec x clock') as [|Hgt]; [assumption|exfalso].
      rewrite <- Hrec in Hin by lia.
      unfold newer in Hin.
      destruct (filter (fun x0 => x0 >? x - 1) (admissions (trace w))) as [|y l] eqn:Ef;
        [simpl in Hin; lia|].
      assert (Hy : In y (filter (fun x0 => x0 >? x - 1) (admissions (trace w))))
        by (rewrite Ef; left; reflexivity).
      apply filter_In in Hy. destruct Hy as [Hy1 Hy2].
      rewrite Forall_forall in Hpast. specialize (Hpast y Hy1). simpl in Hpast. lia.
  - rewrite Hadm. apply window_bound_snoc; [exact Hpast'|exact Hwin|].
    rewrite (Hrec (clock' - 1000)) by lia.
    unfold pruned in Hroom. rewrite newer_filter in Hroom by lia. exact Hroom.
Qed.

Lemma rateInv_start start : RateInv (initialWorld start).
Proof.
  constructor; simpl.
  - constructor.
  - reflexivity.
  - constructor.
  - intros t. unfold windowCount, RATE_LIMIT.REQUESTS_PER_SECOND. simpl. lia.
Qed.

Lemma rateInv_later w w' :
  RateInv w -> clock w <= clock w' ->
  admissions (trace w') = admissions (trace w) ->
  limiter w' = limiter w ->
  RateInv w'.
Proof.
  intros [Hpast Hrec Hsort Hwin] Hclk Hadm Hlim.
  constructor; rewrite ?Hadm, ?Hlim.
  - eapply Forall_impl; [|exact Hpast]. simpl. intros; lia.
  - intros theta Ht. apply Hrec. lia.
  - exact Hsort.
  - exact Hwin.
Qed.

Lemma waitForRateLimit_inv env w :
  0 <= timerLag env (timers w) -> 0 < requestsPerSecond (limiter w) ->
  RateInv w ->
  RateInv (snd (waitForRateLimit env w))
  /\ requestsPerSecond (limiter (snd (waitForRateLimit env w)))
     = requestsPerSecond (limiter w).
Proof.
  intros Hlag Hcap Hinv.
  pose proof (rateInv_cap_bound w Hinv) as Hbound.
  destruct (Z_lt_le_dec (Z.of_nat (List.length (pruned w)))
                        (requestsPerSecond (limiter w))) as [Hfree|Hfull].
  - rewrite (waitForRateLimit_free env w Hfree). simpl. split; [|reflexivity].
    apply rateInv_admission; auto; try lia.
    pose proof (newer_le_length (clock w - 1000) (pruned w)). lia.
  - destruct (pruned w) as [|oldest rest] eqn:E; [simpl in Hfull; lia|].
    rewrite (waitForRateLimit_full env w oldest rest) by (rewrite ?E; auto).
    simpl. split; [|reflexivity].
    assert (Hy : clock w - 1000 < oldest)
      by (apply pruned_young; rewrite E; left; reflexivity).
    apply rateInv_admission; auto; try lia.
    rewrite E.
    pose proof (newer_mono oldest (oldest + 1000 + timerLag env (timers w) - 1000)
                  (oldest :: rest) ltac:(lia)).
    pose proof (newer_head oldest rest).
    simpl in Hbound. lia.
Qed.

Lemma reachable_inv env w :
  timeFlows env -> Reachable env w ->
  RateInv w /\ requestsPerSecond (limiter w) = RATE_LIMIT.REQUESTS_PER_SECOND.
Proof.
  intros [Hlag Hlat]. induction 1 as [s|w Hr [IH Hcap]|w why ms Hr [IH Hcap]|w b Hr [IH Hcap]|w t Hr [IH Hcap]|w b Hr [IH Hcap]].
  - split; [apply rateInv_start|reflexivity].
  - destruct (waitForRateLimit_inv env w (Hlag _)) as [H1 H2]; auto.
    { rewrite Hcap. reflexivity. }
    split; [exact H1|]. rewrite H2. exact Hcap.
  - split; [|exact Hcap].
    apply (rateInv_later w); auto; simpl.
    + specialize (Hlag (timers w)). lia.
    + rewrite admissions_app. simpl. apply app_nil_r.
  - split.
    + apply (rateInv_later w); auto; unfold fetch;
        destruct (httpOutcome env (requests w) b); simpl;
        try (specialize (Hlat (requests w)); lia);
        rewrite ?admissions_app; simpl; auto using app_nil_r.
    + unfold fetch; destruct (httpOutcome env (requests w) b); simpl; exact Hcap.
  - split; [|exact Hcap]. apply (rateInv_later w); auto; simpl; lia.
  - split; [|exact Hcap]. apply (rateInv_later w); auto; simpl; try lia.
    rewrite admissions_app. simpl. apply app_nil_r.
Qed.

(** C7. In every world a run can reach, with timers that never fire early:
    waitForRateLimit keeps exactly the timestamps younger than 1000ms; when at
    least requestsPerSecond (10) of them are left it sleeps for exactly
    oldest + 1000 - now, a positive time, the oldest being the head of the
    window and its minimum, and only then records the request; otherwise it
    records it at once. Before and after the call, no trailing window of
    1000ms holds more than 10 recorded requests. *)
Theorem rate_window_never_exceeded (env : Env) (w : World) :
  timeFlows env -> Reachable env w ->
  let now := clock w in
  let kept := filter (fun time => time >? now - 1000) (requestTimes (limiter w)) in
  let w' := snd (waitForRateLimit env w) in
  fst (waitForRateLimit env w) = Returned tt
  /\ requestTimes (limiter w') = kept ++ [clock w']
  /\ (RATE_LIMIT.REQUESTS_PER_SECOND <= Z.of_nat (List.length kept) ->
      exists oldest rest,
        kept = oldest :: rest
        /\ Forall (fun x => oldest <= x) rest
        /\ 0 < oldest + 1000 - now
        /\ trace w' = trace w ++ [EvSleep RateWindow (oldest + 1000 - now);
                                  EvRequest (clock w')]
        /\ clock w' = now + (oldest + 1000 - now) + timerLag env (timers w))
  /\ (Z.of_nat (List.length kept) < RATE_LIMIT.REQUESTS_PER_SECOND ->
      trace w' = trace w ++ [EvRequest now] /\ clock w' = now)
  /\ (forall t, Z.of_nat (windowCount t (admissions (trace w)))
                <= RATE_LIMIT.REQUESTS_PER_SECOND)
  /\ (forall t, Z.of_nat (windowCount t (admissions (trace w')))
                <= RATE_LIMIT.REQUESTS_PER_SECOND).
Proof.
  intros Hflow Hreach. cbv zeta.
  change (filter (fun time => time >? clock w - 1000) (requestTimes (limiter w)))
    with (pruned w).
  destruct (reachable_inv env w Hflow Hreach) as [Hinv Hcap].
  destruct (reachable_inv env _ Hflow (reach_wait env w Hreach)) as [Hinv' Hcap'].
  assert (Hpos : 0 < requestsPerSecond (limiter w))
    by (rewrite Hcap; reflexivity).
  assert (Hsorted : StronglySorted Z.le (pruned w))
    by (apply filter_sorted, (inv_sorted w Hinv)).
  assert (Hwin : forall t, Z.of_nat (windowCount t (admissions (trace w)))
                           <= RATE_LIMIT.REQUESTS_PER_SECOND)
    by (intros t; rewrite <- Hcap; apply (inv_window w Hinv)).
  assert (Hwin' : forall t,
             Z.of_nat (windowCount t
                         (admissions (trace (snd (waitForRateLimit env w)))))
             <= RATE_LIMIT.REQUESTS_PER_SECOND)
    by (intros t; rewrite <- Hcap'; apply (inv_window _ Hinv')).
  clear Hinv' Hcap'. revert Hwin'. rewrite <- Hcap.
  destruct (Z_lt_le_dec (Z.of_nat (List.length (pruned w)))
                        (requestsPerSecond (limiter w))) as [Hfree|Hfull].
  - rewrite (waitForRateLimit_free env w Hfree). simpl. intros Hwin'.
    repeat split; auto; try (intros Hfull; lia).
    rewrite Hcap. exact Hwin.
  - destruct (pruned w) as [|oldest rest] eqn:E; [simpl in Hfull; lia|].
    rewrite (waitForRateLimit_full env w oldest rest) by (rewrite ?E; auto).
    rewrite E.
    cbn [fst snd withAdmission clock trace limiter requestTimes app].
    intros Hwin'.
    assert (Hy : clock w - 1000 < oldest)
      by (apply pruned_young; rewrite E; left; reflexivity).
    split; [reflexivity|]. split; [reflexivity|].
    split; [|split; [intros Hfree; lia|split; [rewrite Hcap; exact Hwin|exact Hwin']]].
    intros _. exists oldest, rest. inversion Hsorted; subst.
    repeat split; auto; lia.
Qed.

Lemma errorMessage_asError e : errorMessage (asError e) = errorMessage e.
Proof. destruct e; reflexivity. Qed.

Lemma waitForRateLimit_returns env w :
  exists w1, waitForRateLimit env w = (Returned tt, w1)
             /\ maxRetries (limiter w1) = maxRetries (limiter w)
             /\ retryDelay (limiter w1) = retryDelay (limiter w).
Proof.
  unfold waitForRateLimit, bind, dateNow, getWorld, setRequestTimes, log, ret, delay.
  cbn [limiter requestTimes requestsPerSecond fst snd clock maxRetries retryDelay].
  destruct (_ >=? _).
  - destruct (filter _ _) as [|o r].
    + eexists; split; [reflexivity|split; reflexivity].
    + destruct (_ >? 0); eexists; (split; [reflexivity|split; reflexivity]).
  - eexists; split; [reflexivity|split; reflexivity].
Qed.

Lemma delay_config env why ms w :
  maxRetries (limiter (snd (delay env why ms w))) = maxRetries (limiter w)
  /\ retryDelay (limiter (snd (delay env why ms w))) = retryDelay (limiter w).
Proof. split; reflexivity. Qed.

(** One iteration of the loop, by cases on what the attempt did. *)
Lemma retryLoop_step {T} env (fn : M T) n attempt last w w1 :
  waitForRateLimit env w = (Returned tt, w1) ->
  retryLoop env fn (S n) attempt last w
  = match fn w1 with
    | (Returned v, w2) => (Returned v, w2)
    | (Threw e, w2) =>
        if rateLimitSignal e then
          retryLoop env fn n (attempt + 1) (Some (asError e))
            (if attempt <? maxRetries (limiter w2)
             then snd (delay env Backoff (backoffDelay (limiter w2) attempt) w2)
             else w2)
        else (Threw e, w2)
    end.
Proof.
  intros Hw. cbn [retryLoop]. unfold tryCatch at 1. unfold bind at 1.
  rewrite Hw. destruct (fn w1) as [[v|e] w2]; [reflexivity|].
  rewrite errorMessage_asError. unfold rateLimitSignal.
  destruct (includes (errorMessage e) "429"); [|reflexivity].
  unfold bind, getWorld. destruct (attempt <? maxRetries (limiter w2)); reflexivity.
Qed.

Lemma retryLoop_policy {T} env (fn : M T) :
  keepsConfig fn ->
  forall n attempt last w r w',
    defaultConfig w ->
    1 <= attempt ->
    Z.of_nat n = RATE_LIMIT.MAX_RETRIES - attempt + 1 ->
    0 < Z.of_nat n ->
    retryLoop env fn n attempt last w = (r, w') ->
    RetryPolicy env fn attempt w r w'.
Proof.
  intros Hfn n. induction n as [|n IH]; intros attempt last w r w' Hcfg Hatt Hn Hpos Hrun;
    [simpl in Hpos; lia|].
  destruct (waitForRateLimit_returns env w) as (w1 & Hw & Hm1 & Hd1).
  rewrite (retryLoop_step env fn n attempt last w w1 Hw) in Hrun.
  destruct (fn w1) as [[v|e] w2] eqn:Hfnw.
  - inversion Hrun; subst. eapply retry_success; eauto.
  - destruct (Hfn w1) as [Hm2 Hd2]. rewrite Hfnw in Hm2, Hd2. simpl in Hm2, Hd2.
    destruct Hcfg as [Hm Hd].
    destruct (rateLimitSignal e) eqn:Hsig.
    + destruct (attempt <? maxRetries (limiter w2)) eqn:Hlt.
      * assert (attempt < RATE_LIMIT.MAX_RETRIES) by (rewrite <- Hm, <- Hm1, <- Hm2; lia).
        eapply retry_backoff; eauto.
        unfold backoffDelay in Hrun. rewrite Hd2, Hd1, Hd in Hrun.
        eapply IH; eauto; try lia.
        split; simpl; congruence.
      * assert (attempt = RATE_LIMIT.MAX_RETRIES) by (rewrite <- Hm, <- Hm1, <- Hm2 in *; lia).
        destruct n; [|lia].
        simpl in Hrun. unfold throw in Hrun. inversion Hrun; subst r w'.
        eapply retry_exhausted; eauto.
    + inversion Hrun; subst. eapply retry_propagate; eauto.
Qed.

Lemma retryPolicy_deterministic {T} env (fn : M T) attempt w r1 w1 :
  RetryPolicy env fn attempt w r1 w1 ->
  forall r2 w2, RetryPolicy env fn attempt w r2 w2 -> r1 = r2 /\ w1 = w2.
Proof.
  induction 1 as [a w wa v wb Hw Hf|a w wa e wb Hw Hf Hs|a w wa e wb r wc Hw Hf Hs Hlt Hrec IH
                  |a w wa e wb Hw Hf Hs Heq];
    intros r2 w2 H2; inversion H2; subst;
    repeat match goal with
      | H1 : waitForRateLimit env ?w = _, H2 : waitForRateLimit env ?w = _ |- _ =>
          rewrite H1 in H2; inversion H2; subst; clear H2
      | H1 : fn ?w = _, H2 : fn ?w = _ |- _ =>
          rewrite H1 in H2; inversion H2; subst; clear H2
      end;
    try congruence; try lia; auto.
Qed.

Lemma fetch_keepsConfig env b : keepsConfig (fetch env b).
Proof.
  intros w. unfold fetch. destruct (httpOutcome env (requests w) b); split; reflexivity.
Qed.

(** C5. executeWithRetry, with the limiter as its constructor configures it
    (3 attempts, base delay 1000ms), does exactly what the retry policy says,
    for every wrapped operation: each attempt waits for admission and then
    runs the operation; a success is returned; a failure that is not a
    rate-limit signal is thrown at once, without another attempt; a
    rate-limit signal with attempts left suspends for
    retryDelay * 2^(attempt-1) and tries again; and when the last attempt
    fails too, the last error is thrown. The delay formula gives 1000, 2000
    and 4000 at attempts 1, 2 and 3. *)
Theorem executeWithRetry_follows_policy {T} (env : Env) (fn : M T) (w : World) :
  keepsConfig fn ->
  defaultConfig w ->
  (forall r w',
      executeWithRetry env fn w = (r, w') <-> RetryPolicy env fn 1 w r w')
  /\ backoffDelay (limiter w) 1 = 1000
  /\ backoffDelay (limiter w) 2 = 2000
  /\ backoffDelay (limiter w) 3 = 4000.
Proof.
  intros Hfn Hcfg.
  assert (Hrun : forall r w', executeWithRetry env fn w = (r, w') ->
                              RetryPolicy env fn 1 w r w').
  { intros r w' H. unfold executeWithRetry, bind, getWorld in H.
    destruct Hcfg as [Hm Hd]. rewrite Hm in H.
    eapply retryLoop_policy; eauto; try (split; assumption);
      unfold RATE_LIMIT.MAX_RETRIES; simpl; lia. }
  split; [|destruct Hcfg as [_ Hd]; unfold backoffDelay; rewrite Hd;
           repeat split; reflexivity].
  intros r w'. split; [apply Hrun|].
  intros Hpol. destruct (executeWithRetry env fn w) as [r0 w0] eqn:E.
  destruct (retryPolicy_deterministic env fn 1 w r0 w0 (Hrun _ _ eq_refl) r w' Hpol)
    as [-> ->].
  reflexivity.
Qed.

Lemma cursors_app a b : cursors (a ++ b) = cursors a ++ cursors b.
Proof.
  induction a as [|e a IH]; simpl; [reflexivity|].
  destruct e as [| |[c|]|]; simpl; rewrite ?IH; reflexivity.
Qed.

Lemma pages_app a b : pages (a ++ b) = pages a ++ pages b.
Proof.
  induction a as [|e a IH]; simpl; [reflexivity|].
  destruct e as [| | |c [r|x]]; simpl; rewrite ?IH; try reflexivity.
  destruct (pageOf r); reflexivity.
Qed.

Lemma responses_app a b : responses (a ++ b) = responses a ++ responses b.
Proof.
  induction a as [|e a IH]; simpl; [reflexivity|].
  destruct e as [| | |c [r|x]]; simpl; rewrite ?IH; reflexivity.
Qed.

Lemma sleeps_app why a b : sleeps why (a ++ b) = sleeps why a ++ sleeps why b.
Proof.
  induction a as [|e a IH]; simpl; [reflexivity|].
  destruct e as [k ms| | |]; simpl; rewrite ?IH; try reflexivity.
  destruct why, k; simpl; rewrite ?IH; reflexivity.
Qed.

Lemma httpCount_app a b : httpCount (a ++ b) = (httpCount a + httpCount b)%nat.
Proof.
  induction a as [|e a IH]; simpl; [reflexivity|].
  destruct e; simpl; rewrite ?IH; reflexivity.
Qed.

Lemma no_responses_no_pages evs : responses evs = [] -> pages evs = [].
Proof.
  induction evs as [|e evs IH]; simpl; [reflexivity|].
  destruct e as [| | |c [r|x]]; simpl; auto. discriminate.
Qed.

Lemma extends_refl w : Extends w w [].
Proof. constructor; auto using app_nil_r. Qed.

Lemma extends_trans w w1 w2 evs1 evs2 :
  Extends w w1 evs1 -> Extends w1 w2 evs2 -> Extends w w2 (evs1 ++ evs2).
Proof.
  intros [T1 K1 M1 D1] [T2 K2 M2 D2]. constructor; try congruence.
  rewrite T2, T1, app_assoc. reflexivity.
Qed.

(** What an admission does to the world. *)
Lemma waitForRateLimit_shape env w :
  exists w1 evs,
    waitForRateLimit env w = (Returned tt, w1)
    /\ Extends w w1 evs
    /\ requests w1 = requests w
    /\ responses evs = [] /\ cursors evs = [] /\ sleeps Backoff evs = []
    /\ sleeps Pagination evs = [] /\ httpCount evs = O.
Proof.
  destruct (Z_lt_le_dec (Z.of_nat (List.length (pruned w)))
                        (requestsPerSecond (limiter w))) as [Hfree|Hfull].
  - rewrite (waitForRateLimit_free env w Hfree).
    do 2 eexists. split; [reflexivity|].
    split; [constructor; reflexivity|]. repeat split; reflexivity.
  - destruct (pruned w) as [|oldest rest] eqn:E.
    + unfold waitForRateLimit, bind, dateNow, getWorld, setRequestTimes, log, ret.
      cbn [limiter requestTimes requestsPerSecond fst snd clock trace timers
             requests token maxRetries retryDelay].
      fold (pruned w). rewrite E. destruct (_ >=? _);
        (do 2 eexists; split; [reflexivity|]);
        (split; [constructor; reflexivity|]); repeat split; reflexivity.
    + rewrite (waitForRateLimit_full env w oldest rest) by (rewrite ?E; auto).
      do 2 eexists. split; [reflexivity|].
      split; [constructor; reflexivity|]. repeat split; reflexivity.
Qed.

Lemma delay_extends env why ms w :
  Extends w (snd (delay env why ms w)) [EvSleep why ms].
Proof. constructor; reflexivity. Qed.

(** What [fetch] does to the world. *)
Lemma fetch_shape env b w :
  Extends w (snd (fetch env b w)) [EvHttp b (httpOutcome env (requests w) b)]
  /\ requests (snd (fetch env b w)) = S (requests w)
  /\ fst (fetch env b w)
     = match httpOutcome env (requests w) b with
       | Responded r => Returned r
       | Rejected e => Threw e
       end.
Proof.
  unfold fetch. destruct (httpOutcome env (requests w) b);
    (split; [constructor; reflexivity|split; reflexivity]).
Qed.

(** The retry loop around [fetch]: every exchange but the last was rejected,
    and a returned response is the last event. *)
Lemma retryLoop_fetch env b n :
  forall attempt last w out w1,
    retryLoop env (fetch env b) n attempt last w = (out, w1) ->
    exists evs,
      Extends w w1 evs
      /\ (Reachable env w -> Reachable env w1)
      /\ cursors evs = [] /\ sleeps Pagination evs = []
      /\ (requests w1 = requests w + httpCount evs)%nat
      /\ match out with
         | Returned r =>
             exists evs0, evs = evs0 ++ [EvHttp b (Responded r)]
                          /\ responses evs0 = []
                          /\ exists k, httpOutcome env k b = Responded r
         | Threw _ => responses evs = []
         end.
Proof.
  induction n as [|n IH]; intros attempt last w out w1 Hrun.
  - simpl in Hrun. unfold throw in Hrun. inversion Hrun; subst.
    exists []. split; [apply extends_refl|]. repeat split; auto.
  - destruct (waitForRateLimit_shape env w)
      as (wa & evsa & Hw & Hext & Hreq & Hresp & Hcur & _ & Hpag & Hcnt).
    assert (Hra : Reachable env w -> Reachable env wa).
    { intros Hr. replace wa with (snd (waitForRateLimit env w)) by (rewrite Hw; reflexivity).
      apply reach_wait, Hr. }
    rewrite (retryLoop_step env _ n attempt last w wa Hw) in Hrun.
    destruct (fetch_shape env b wa) as (Hfext & Hfreq & Hfout).
    destruct (fetch env b wa) as [o wb] eqn:Hf. simpl in Hfext, Hfreq, Hfout.
    assert (Hrb : Reachable env wa -> Reachable env wb).
    { intros Hr. replace wb with (snd (fetch env b wa)) by (rewrite Hf; reflexivity).
      apply reach_fetch, Hr. }
    destruct (httpOutcome env (requests wa) b) as [r|x] eqn:Hout; subst o.
    + inversion Hrun; subst out w1.
      exists (evsa ++ [EvHttp b (Responded r)]).
      split; [eapply extends_trans; eauto|].
      split; [auto|].
      rewrite cursors_app, sleeps_app, httpCount_app, Hcur, Hpag, Hcnt. simpl.
      repeat split; auto; try lia.
      exists evsa. split; auto. split; eauto.
    + destruct (rateLimitSignal x).
      * match type of Hrun with retryLoop _ _ _ _ _ ?wc = _ =>
          assert (Hc : exists evc, Extends wb wc evc
                         /\ (Reachable env wb -> Reachable env wc)
                         /\ responses evc = [] /\ cursors evc = []
                         /\ sleeps Pagination evc = [] /\ httpCount evc = O
                         /\ requests wc = requests wb)
        end.
        { destruct (attempt <? maxRetries (limiter wb)).
          - eexists. split; [apply delay_extends|].
            split; [apply reach_delay|]. repeat split; reflexivity.
          - exists []. split; [apply extends_refl|]. repeat split; auto. }
        destruct Hc as (evc & Hcext & Hrc & Hcresp & Hccur & Hcpag & Hccnt & Hcreq).
        destruct (IH _ _ _ _ _ Hrun) as (evs & Hext' & Hr' & Hcur' & Hpag' & Hreq' & Hout').
        exists (evsa ++ [EvHttp b (Rejected x)] ++ evc ++ evs).
        split.
        { eapply extends_trans; eauto. eapply extends_trans; eauto.
          eapply extends_trans; eauto. }
        split; [auto|].
        rewrite !cursors_app, !sleeps_app, !httpCount_app.
        rewrite Hcur, Hpag, Hcnt, Hccur, Hcpag, Hccnt, Hcur', Hpag'. simpl.
        repeat split; auto; try lia.
        destruct out as [r|e'].
        -- destruct Hout' as (evs0 & -> & Hr0 & Hk).
           exists (evsa ++ [EvHttp b (Rejected x)] ++ evc ++ evs0).
           split; [rewrite <- !app_assoc; reflexivity|].
           split; [|exact Hk].
           rewrite responses_app. simpl.
           rewrite responses_app, Hresp, Hcresp, Hr0. reflexivity.
        -- rewrite responses_app. simpl.
           rewrite responses_app, Hresp, Hcresp, Hout'. reflexivity.
      * inversion Hrun; subst out w1.
        exists (evsa ++ [EvHttp b (Rejected x)]).
        split; [eapply extends_trans; eauto|].
        split; [auto|].
        rewrite cursors_app, sleeps_app, httpCount_app, responses_app,
          Hcur, Hpag, Hcnt, Hresp. simpl.
        repeat split; auto; lia.
Qed.

Lemma log_extends ev w : Extends w (snd (log ev w)) [ev].
Proof. constructor; reflexivity. Qed.

(** [fetchMessageBatch] unfolded: the token check, the debug line, the
    retried exchange, the status check and the body. *)
Lemma fetchMessageBatch_unfold env c l b w :
  fetchMessageBatch env c l b w
  = if String.eqb (token w) "" then
      (Threw (JsError "No token loaded. Call loadSession() first."), w)
    else
      match executeWithRetry env (fetch env b) (snd (log (EvBatch b) w)) with
      | (Threw e, w1) => (Threw e, w1)
      | (Returned response, w1) =>
          if negb (ok response) then
            (Threw (JsError (String.append "API returned status "
                                           (string_of_Z (status response)))),
             w1)
          else
            match json response with
            | inr msgs => (Returned msgs, w1)
            | inl e => (Threw e, w1)
            end
      end.
Proof.
  unfold fetchMessageBatch, getToken, tryCatch, getWorld, ret, throw,
    responseJson.
  unfold bind. cbv beta iota.
  destruct (String.eqb (token w) ""); [reflexivity|].
  unfold log. cbv iota beta. cbn [snd].
  match goal with
  | |- context [executeWithRetry ?e ?f ?x] =>
      destruct (executeWithRetry e f x) as [[response|e'] w1]; [|reflexivity]
  end.
  destruct (negb (ok response)); [reflexivity|].
  destruct (json response); reflexivity.
Qed.

Lemma fetchMessageBatch_shape env c l b w out w1 :
  fetchMessageBatch env c l b w = (out, w1) ->
  exists evs,
    Extends w w1 evs
    /\ (Reachable env w -> Reachable env w1)
    /\ sleeps Pagination evs = []
    /\ ((evs = [] /\ exists e, out = Threw e)
        \/ exists evs',
             evs = EvBatch b :: evs' /\ cursors evs' = []
             /\ match out with
                | Returned batch =>
                    exists evs0 r,
                      evs' = evs0 ++ [EvHttp b (Responded r)]
                      /\ responses evs0 = [] /\ pageOf r = Some batch
                      /\ exists k, httpOutcome env k b = Responded r
                | Threw _ => pages evs' = []
                end).
Proof.
  rewrite fetchMessageBatch_unfold.
  destruct (String.eqb (token w) "").
  - intros H; inversion H; subst. exists [].
    split; [apply extends_refl|]. split; [auto|]. split; [reflexivity|].
    left. split; [reflexivity|eauto].
  - unfold executeWithRetry, bind, getWorld.
    destruct (retryLoop _ _ _ _ _ _) as [o wr] eqn:Hloop.
    destruct (retryLoop_fetch env b _ _ _ _ _ _ Hloop)
      as (evs & Hext & Hreach & Hcur & Hpag & _ & Hout).
    assert (Hext0 : Extends w wr (EvBatch b :: evs)).
    { change (EvBatch b :: evs) with ([EvBatch b] ++ evs).
      eapply extends_trans; [apply log_extends|exact Hext]. }
    assert (Hreach0 : Reachable env w -> Reachable env wr).
    { intros Hr. apply Hreach, reach_batch, Hr. }
    destruct o as [response|e].
    + destruct Hout as (evs0 & -> & Hr0 & Hk).
      assert (Hpg : pageOf response = None ->
                    pages (evs0 ++ [EvHttp b (Responded response)]) = []).
      { intros Hn. rewrite pages_app, (no_responses_no_pages _ Hr0). simpl.
        rewrite Hn. reflexivity. }
      unfold pageOf in Hpg.
      destruct (ok response) eqn:Hok; simpl.
      * destruct (json response) as [e|msgs] eqn:Hjson; intros H; inversion H; subst;
          eexists; (split; [exact Hext0|]); (split; [exact Hreach0|]);
          (split; [exact Hpag|]); right; eexists; (split; [reflexivity|]);
          (split; [exact Hcur|]); auto.
        exists evs0, response. split; [reflexivity|]. split; [exact Hr0|].
        split; [|exact Hk].
        unfold pageOf. rewrite Hok, Hjson. reflexivity.
      * intros H; inversion H; subst.
        eexists; (split; [exact Hext0|]); (split; [exact Hreach0|]);
          (split; [exact Hpag|]); right; eexists; (split; [reflexivity|]);
          (split; [exact Hcur|]); auto.
    + intros H; inversion H; subst.
      eexists; (split; [exact Hext0|]); (split; [exact Hreach0|]);
        (split; [exact Hpag|]); right; eexists; (split; [reflexivity|]);
        (split; [exact Hcur|]). apply no_responses_no_pages, Hout.
Qed.

Section LoopFacts.

Variable env : Env.
Variable K : Z.
Variables s e : option JsDate.

Lemma filterByTimestamp_filter msgs :
  filterByTimestamp env msgs s e = filter (keeps env s e) msgs.
Proof.
  unfold filterByTimestamp, keeps. destruct s, e; try reflexivity.
  induction msgs as [|m msgs IH]; simpl; congruence.
Qed.

Lemma filterByTimestamp_app a b :
  filterByTimestamp env (a ++ b) s e
  = filterByTimestamp env a s e ++ filterByTimestamp env b s e.
Proof. rewrite !filterByTimestamp_filter. apply filter_app. Qed.

Lemma filterByTimestamp_nil : filterByTimestamp env [] s e = [].
Proof. rewrite filterByTimestamp_filter. reflexivity. Qed.

Lemma capTo_below l :
  ~ capReached K l -> capTo K l = l.
Proof.
  unfold capReached, capTo. intros H.
  destruct (K >? 0) eqn:EK; [|reflexivity].
  apply firstn_all2. lia.
Qed.

Lemma last_default_irrelevant {A} (l : list A) (x d1 d2 : A) :
  List.last (x :: l) d1 = List.last (x :: l) d2.
Proof.
  revert x. induction l as [|y l IH]; intros x; [reflexivity|].
  change (List.last (y :: l) d1 = List.last (y :: l) d2). apply IH.
Qed.

Lemma last_app_cons {A} (l more : list A) (x d : A) :
  List.last (l ++ x :: more) d = List.last more x.
Proof.
  revert d. induction l as [|y l IH]; intros d.
  - simpl. destruct more as [|z more]; [reflexivity|].
    apply last_default_irrelevant.
  - specialize (IH d). simpl. destruct (l ++ x :: more) eqn:E.
    + destruct l; discriminate.
    + exact IH.
Qed.

Lemma lastIdOf_app d first rest more :
  lastIdOf d ((first :: rest) ++ more)
  = lastIdOf (Some (id (List.last rest first))) more.
Proof.
  destruct more as [|m more]; simpl.
  - rewrite app_nil_r. reflexivity.
  - rewrite last_app_cons. reflexivity.
Qed.


Lemma pages_inert evs : pages evs = [] -> Forall inert evs.
Proof.
  induction evs as [|ev evs IH]; intros H; [constructor|].
  destruct ev as [| | |b [r|x]]; simpl in H;
    try (constructor; [split; reflexivity|apply IH, H]).
  destruct (pageOf r) eqn:Hp; [discriminate|].
  constructor; [|apply IH, H].
  split; simpl; rewrite Hp; reflexivity.
Qed.

Lemma inert_pages evs : Forall inert evs -> pages evs = [].
Proof.
  induction 1 as [|ev evs [Hp He] _ IH]; [reflexivity|].
  destruct ev as [| | |b [r|x]]; simpl in *; auto.
  destruct (pageOf r) as [[|m l]|]; try discriminate; auto.
Qed.

Lemma inert_not_empty evs :
  Forall inert evs -> Forall (fun ev => emptyPage ev = false) evs.
Proof. apply Forall_impl. intros ev [_ H]. exact H. Qed.

Lemma haltsProperly_inert kept a b :
  ~ capReached K kept -> Forall inert a ->
  haltsProperly env K s e kept b -> haltsProperly env K s e kept (a ++ b).
Proof.
  intros Hcap Ha Hb. induction Ha as [|ev a [Hp He] _ IH]; [exact Hb|].
  simpl. rewrite Hp, filterByTimestamp_nil, app_nil_r. split; [|exact IH].
  intros [H|H]; [congruence|contradiction].
Qed.

(** What one [fetchMessageBatch] call logs. *)
Lemma batch_events c l b w out w1 :
  fetchMessageBatch env c l b w = (out, w1) ->
  exists evs,
    Extends w w1 evs
    /\ (Reachable env w -> Reachable env w1)
    /\ sleeps Pagination evs = []
    /\ (cursors evs = [] \/ cursors evs = cursorList b)
    /\ match out with
       | Returned batch =>
           exists pre ev,
             evs = pre ++ [ev] /\ Forall inert pre
             /\ eventPage ev = batch /\ pages evs = [batch]
             /\ emptyPage ev = match batch with [] => true | _ => false end
             /\ cursors evs = cursorList b
             /\ (feedOrdered env ->
                 descending (map id batch) /\ belowCursor b (map id batch))
       | Threw _ => Forall inert evs
       end.
Proof.
  intros H. destruct (fetchMessageBatch_shape env c l b w out w1 H)
    as (evs & Hext & Hreach & Hpag & Hcase).
  exists evs. split; [exact Hext|]. split; [exact Hreach|]. split; [exact Hpag|].
  destruct Hcase as [[-> [x ->]]|(evs' & -> & Hcur & Hout)];
    [split; [left; reflexivity|constructor]|].
  split.
  { right. destruct b; simpl; rewrite Hcur; reflexivity. }
  destruct out as [batch|x].
  - destruct Hout as (evs0 & r & -> & Hr & Hp & k & Hk).
    exists (EvBatch b :: evs0), (EvHttp b (Responded r)).
    assert (Hin : Forall inert (EvBatch b :: evs0)).
    { constructor; [split; reflexivity|].
      apply pages_inert, no_responses_no_pages, Hr. }
    split; [reflexivity|]. split; [exact Hin|].
    split; [simpl; rewrite Hp; reflexivity|].
    split.
    + change (EvBatch b :: evs0 ++ [EvHttp b (Responded r)])
        with ((EvBatch b :: evs0) ++ [EvHttp b (Responded r)]).
      rewrite pages_app, (inert_pages _ Hin). simpl. rewrite Hp. reflexivity.
    + split; [simpl; rewrite Hp; reflexivity|].
      split; [destruct b; simpl; rewrite Hcur; reflexivity|].
      intros Hfeed. exact (Hfeed k b r batch Hk Hp).
  - constructor; [split; reflexivity|]. apply pages_inert, Hout.
Qed.

End LoopFacts.

Lemma descending_app a b :
  descending a -> descending b ->
  (forall x y, In x a -> In y b -> (y < x)%N) ->
  descending (a ++ b).
Proof.
  unfold descending. induction 1 as [|x a Ha IH Hx]; intros Hb Hab; simpl; [exact Hb|].
  constructor.
  - apply IH; [exact Hb|]. intros u v Hu Hv. apply Hab; [right; exact Hu|exact Hv].
  - apply Forall_app. split; [exact Hx|].
    rewrite Forall_forall. intros y Hy. apply Hab; [left; reflexivity|exact Hy].
Qed.

Lemma descending_NoDup l : descending l -> NoDup l.
Proof.
  unfold descending. induction 1 as [|x l Hl IH Hx]; constructor; [|exact IH].
  intros Hin. rewrite Forall_forall in Hx. specialize (Hx x Hin). lia.
Qed.

Lemma last_In {A} (rest : list A) (first : A) :
  In (List.last rest first) (first :: rest).
Proof.
  revert first. induction rest as [|x rest IH]; intros first; [left; reflexivity|].
  right. change (In (List.last (x :: rest) first) (x :: rest)).
  rewrite (last_default_irrelevant rest x first x).
  destruct rest as [|y rest']; [left; reflexivity|].
  specialize (IH x). simpl in IH. simpl.
  destruct IH as [IH|IH]; [|right; exact IH].
  destruct rest'; simpl in *; auto.
Qed.

Lemma last_least first rest :
  descending (map id (first :: rest)) ->
  Forall (fun i => (id (List.last rest first) <= i)%N) (map id (first :: rest)).
Proof.
  revert first. induction rest as [|x rest IH]; intros first Hd.
  - constructor; [simpl; lia|constructor].
  - inversion Hd as [|? ? Hd' Hall]; subst.
    specialize (IH x Hd').
    change (List.last (x :: rest) first) with
      (match rest with [] => x | _ :: _ => List.last rest first end).
    assert (E : match rest with [] => x | _ :: _ => List.last rest first end
                = List.last rest x).
    { destruct rest; [reflexivity|]. apply last_default_irrelevant. }
    rewrite E. constructor; [|exact IH].
    change (map id (x :: rest)) with (id x :: map id rest) in Hall.
    inversion Hall; subst. inversion IH; subst. lia.
Qed.

Lemma ordered_rest b cs :
  cs = [] \/ cs = cursorList b -> descending cs /\ atMostCursor b cs.
Proof.
  intros [->| ->].
  - split; [constructor|]. destruct b; simpl; auto.
  - destruct b as [c|]; simpl.
    + split; [repeat constructor|]. constructor; [lia|constructor].
    + split; [constructor|exact I].
Qed.

Lemma ordered_step b first rest raw2 cs1 cs2 :
  descending (map id (first :: rest)) ->
  belowCursor b (map id (first :: rest)) ->
  cs1 = [] \/ cs1 = cursorList b ->
  descending (map id raw2) ->
  belowCursor (Some (id (List.last rest first))) (map id raw2) ->
  descending cs2 ->
  atMostCursor (Some (id (List.last rest first))) cs2 ->
  descending (map id ((first :: rest) ++ raw2))
  /\ belowCursor b (map id ((first :: rest) ++ raw2))
  /\ descending (cs1 ++ cs2)
  /\ atMostCursor b (cs1 ++ cs2).
Proof.
  intros Hd Hb Hcs Hd2 Hb2 Hc2 Ha2.
  pose proof (last_least first rest Hd) as Hleast.
  pose proof (in_map id _ _ (last_In rest first)) as Hlast.
  set (c' := id (List.last rest first)) in *.
  simpl in Hb2, Ha2. rewrite Forall_forall in Hleast, Hb2, Ha2.
  rewrite map_app.
  split.
  { apply descending_app; auto. intros x y Hx Hy.
    specialize (Hleast x Hx). specialize (Hb2 y Hy). simpl in *. lia. }
  destruct b as [c|].
  - simpl in Hb. rewrite Forall_forall in Hb.
    pose proof (Hb c' Hlast) as Hc'. simpl in Hc'.
    split.
    { unfold belowCursor. apply Forall_app. split; [rewrite Forall_forall; exact Hb|].
      rewrite Forall_forall. intros y Hy. specialize (Hb2 y Hy). simpl in *. lia. }
    destruct Hcs as [->| ->]; simpl.
    + split; [exact Hc2|]. rewrite Forall_forall. intros y Hy.
      specialize (Ha2 y Hy). simpl in *. lia.
    + split.
      * constructor; [exact Hc2|]. rewrite Forall_forall. intros y Hy.
        specialize (Ha2 y Hy). simpl in *. lia.
      * constructor; [lia|]. rewrite Forall_forall. intros y Hy.
        specialize (Ha2 y Hy). simpl in *. lia.
  - split; [exact I|].
    destruct Hcs as [->| ->]; simpl; split; auto.
Qed.

Lemma cursorList_length b : (List.length (cursorList b) <= 1)%nat.
Proof. destruct b; simpl; lia. Qed.

Lemma cursors_rest b cs :
  cs = [] \/ cs = cursorList b ->
  exists rest, cursorList b = cs ++ rest /\ (List.length rest <= 1)%nat.
Proof.
  intros [->| ->].
  - exists (cursorList b). split; [reflexivity|apply cursorList_length].
  - exists []. split; [symmetry; apply app_nil_r|simpl; lia].
Qed.

Section LoopInvariant.

Variable env : Env.
Variable c : string.
Variable K : Z.
Variables s e : option JsDate.

Lemma capReached_test kept :
  (K >? 0) && (Z.of_nat (List.length kept) >=? K) = true <-> capReached K kept.
Proof. unfold capReached. rewrite andb_true_iff. lia. Qed.

Lemma capTo_reached kept :
  capReached K kept -> capTo K kept = firstn (Z.to_nat K) kept.
Proof. intros [H _]. unfold capTo. replace (K >? 0) with true by lia. reflexivity. Qed.

Lemma scrapeLoop_spec :
  forall fuel acc ps w exit acc' ps' w',
    hasMore ps = true ->
    ~ capReached K acc ->
    scrapeLoop env fuel c K s e acc ps w = (exit, acc', ps', w') ->
    exists evs,
      Extends w w' evs
      /\ (Reachable env w -> Reachable env w')
      /\ LoopSpec env K s e acc ps evs exit acc' ps'.
Proof.
  induction fuel as [|fuel IH]; intros acc ps w exit acc' ps' w' Hmore Hcap Hrun.
  - simpl in Hrun. rewrite Hmore in Hrun. simpl in Hrun.
    inversion Hrun; subst. exists [].
    split; [apply extends_refl|]. split; [auto|].
    constructor; cbn [pages List.concat lastIdOf List.length sleeps];
      rewrite ?filterByTimestamp_nil, ?app_nil_r.
    + symmetry. apply capTo_below, Hcap.
    + reflexivity.
    + reflexivity.
    + simpl. lia.
    + discriminate.
    + intros _. split; [exact Hmore|]. split; [constructor|exact Hcap].
    + exact I.
    + cbn [lastIds flat_map]; rewrite ?app_nil_r.
      apply cursors_rest. left. reflexivity.
    + intros _. split; [constructor|]. split; [match goal with |- belowCursor ?b _ => destruct b; simpl; auto end|].
      apply ordered_rest. left. reflexivity.
    + constructor.
  - simpl in Hrun. rewrite Hmore in Hrun. cbn [negb] in Hrun. cbv iota in Hrun.
    destruct (fetchMessageBatch env c MESSAGE_LIMITS.MAX (before ps) w)
      as [out w1] eqn:Hfetch.
    destruct (batch_events env c _ _ _ _ _ Hfetch)
      as (evs1 & Hext1 & Hreach1 & Hpag1 & Hcs1 & Hout).
    destruct out as [batch|x].
    + destruct Hout as (pre & ev & -> & Hpre & Hpage & Hpages & Hempty & Hcsb & Hfeed).
      destruct batch as [|first rest].
      * (* the empty page *)
        inversion Hrun; subst. exists (pre ++ [ev]).
        split; [exact Hext1|]. split; [exact Hreach1|].
        constructor; rewrite ?Hpages, ?Hpag1;
          cbn [List.concat lastIdOf List.length app setHasMore before
                 lastMessageId totalFetched hasMore];
          rewrite ?filterByTimestamp_nil, ?app_nil_r.
        -- symmetry. apply capTo_below, Hcap.
        -- reflexivity.
        -- reflexivity.
        -- simpl. lia.
        -- intros _. split; [reflexivity|]. right. eauto.
        -- intros H; congruence.
        -- apply haltsProperly_inert; auto. simpl. auto.
        -- cbn [lastIds flat_map lastIdOf cursorList app]; rewrite ?app_nil_r.
           apply cursors_rest, Hcs1.
        -- intros _. split; [constructor|].
           split; [match goal with |- belowCursor ?b _ => destruct b; simpl; auto end|].
           apply ordered_rest, Hcs1.
        -- constructor.
      * (* a page with messages *)
        set (batch := first :: rest) in *.
        set (kept := acc ++ filterByTimestamp env batch s e) in *.
        set (ps1 := advance ps batch (List.last rest first)) in *.
        destruct ((K >? 0) && (Z.of_nat (List.length kept) >=? K)) eqn:Htest.
        -- (* the cap is reached *)
           apply capReached_test in Htest.
           inversion Hrun; subst acc' ps' w' exit. exists (pre ++ [ev]).
           split; [exact Hext1|]. split; [exact Hreach1|].
           constructor; rewrite ?Hpages, ?Hpag1;
             cbn [List.concat setHasMore before lastMessageId totalFetched
                    hasMore];
             rewrite ?app_nil_r; fold kept.
           ++ symmetry. apply capTo_reached, Htest.
           ++ reflexivity.
           ++ reflexivity.
           ++ reflexivity.
           ++ intros _. split; [reflexivity|]. left. exact Htest.
           ++ intros H; congruence.
           ++ apply haltsProperly_inert; auto. simpl. auto.
           ++ exists [id (List.last rest first)]. rewrite Hcsb.
              split; [reflexivity|simpl; lia].
           ++ intros Hf. destruct (Hfeed Hf) as [Hd Hb].
              split; [exact Hd|]. split; [exact Hb|]. apply ordered_rest, Hcs1.
           ++ constructor.
        -- (* the loop goes on *)
           assert (Hnot : ~ capReached K kept).
           { intros H. apply capReached_test in H. congruence. }
           assert (Hmore1 : hasMore ps1 = true) by exact Hmore.
           try rewrite Hmore1 in Hrun; try rewrite Hmore in Hrun.
           destruct (IH _ _ _ _ _ _ _ Hmore1 Hnot Hrun)
             as (evs2 & Hext2 & Hreach2 & Hspec).
           exists ((pre ++ [ev]) ++ [EvSleep Pagination PAGINATION_DELAY_MS] ++ evs2).
           split.
           { eapply extends_trans; [exact Hext1|].
             eapply extends_trans; [apply delay_extends|exact Hext2]. }
           split.
           { intros Hr. apply Hreach2, reach_delay, Hreach1, Hr. }
           destruct Hspec as [Hk Hb Hl Ht Hd Ho Hh Hcur Hord Hp].
           assert (Hraw : List.concat
                     (pages ((pre ++ [ev]) ++
                             [EvSleep Pagination PAGINATION_DELAY_MS] ++ evs2))
                   = batch ++ List.concat (pages evs2)).
           { rewrite pages_app, Hpages. simpl. reflexivity. }
           assert (Hkept : acc ++ filterByTimestamp env
                                    (batch ++ List.concat (pages evs2)) s e
                           = kept ++ filterByTimestamp env
                                       (List.concat (pages evs2)) s e).
           { unfold kept. rewrite filterByTimestamp_app, app_assoc. reflexivity. }
           constructor; rewrite ?Hraw, ?Hkept.
           ++ exact Hk.
           ++ rewrite Hb. unfold batch. rewrite lastIdOf_app. reflexivity.
           ++ rewrite Hl. unfold batch. rewrite lastIdOf_app. reflexivity.
           ++ rewrite Ht, length_app. simpl. lia.
           ++ intros Hx. destruct (Hd Hx) as [Hf [Hc|(tr & ev' & -> & He)]].
              ** split; [exact Hf|]. left. exact Hc.
              ** split; [exact Hf|]. right.
                 exists ((pre ++ [ev]) ++ [EvSleep Pagination PAGINATION_DELAY_MS] ++ tr), ev'.
                 split; [|exact He]. rewrite <- !app_assoc. reflexivity.
           ++ intros Hx. destruct (Ho Hx) as (Hf & Hne & Hc).
              split; [exact Hf|]. split; [|exact Hc].
              apply Forall_app. split.
              ** apply Forall_app. split; [apply inert_not_empty, Hpre|].
                 constructor; [|constructor]. rewrite Hempty. reflexivity.
              ** constructor; [reflexivity|exact Hne].
           ++ rewrite <- app_assoc. apply haltsProperly_inert; auto.
              cbn [app haltsProperly]. rewrite Hpage. fold kept. split.
              { intros [H|H]; [congruence|contradiction]. }
              cbn [eventPage]. rewrite filterByTimestamp_nil, app_nil_r.
              split; [|exact Hh].
              intros [H|H]; [discriminate|contradiction].
           ++ destruct Hcur as (more & Hmore' & Hlen).
              exists more. split; [|exact Hlen].
              rewrite pages_app, Hpages, cursors_app, Hcsb.
              cbn [pages cursors app lastIds flat_map lastIdOf cursorList].
              cbn [before ps1 advance cursorList app] in Hmore'.
              fold (lastIds (pages evs2)). rewrite <- app_assoc.
              f_equal. exact Hmore'.
           ++ intros Hf. destruct (Hfeed Hf) as [Hd1 Hb1].
              destruct (Hord Hf) as (Hd2 & Hb2 & Hc2 & Ha2).
              rewrite cursors_app. cbn [cursors app].
              apply ordered_step; auto.
           ++ rewrite sleeps_app, Hpag1. simpl. constructor; [reflexivity|exact Hp].
    + (* the fetch threw *)
      inversion Hrun; subst. exists evs1.
      split; [exact Hext1|]. split; [exact Hreach1|].
      pose proof (inert_pages _ Hout) as Hpages.
      constructor; rewrite ?Hpages, ?Hpag1;
        cbn [List.concat lastIdOf List.length];
        rewrite ?filterByTimestamp_nil, ?app_nil_r.
      * symmetry. apply capTo_below, Hcap.
      * reflexivity.
      * reflexivity.
      * simpl. lia.
      * discriminate.
      * intros _. split; [exact Hmore|]. split; [apply inert_not_empty, Hout|exact Hcap].
      * rewrite <- (app_nil_r evs1). apply haltsProperly_inert; simpl; auto.
      * cbn [lastIds flat_map]; rewrite ?app_nil_r.
        apply cursors_rest, Hcs1.
      * intros _. split; [constructor|].
        split; [match goal with |- belowCursor ?b _ => destruct b; simpl; auto end|].
        apply ordered_rest, Hcs1.
      * constructor.
Qed.

End LoopInvariant.

(** A response, of whatever status, ends [executeWithRetry] at once: the
    wrapped [fetch] did not throw. *)
Lemma executeWithRetry_response env b w r :
  0 < maxRetries (limiter w) ->
  httpOutcome env (requests w) b = Responded r ->
  exists w1 evs,
    executeWithRetry env (fetch env b) w = (Returned r, w1)
    /\ Extends w w1 evs
    /\ requests w1 = S (requests w)
    /\ sleeps Backoff evs = [] /\ httpCount evs = 1%nat.
Proof.
  intros Hmax Hout. unfold executeWithRetry, bind, getWorld.
  destruct (Z.to_nat (maxRetries (limiter w))) as [|n] eqn:En; [lia|].
  destruct (waitForRateLimit_shape env w)
    as (wa & evsa & Hw & Hext & Hreq & _ & _ & Hback & _ & Hcnt).
  rewrite (retryLoop_step env _ n 1 None w wa Hw).
  destruct (fetch_shape env b wa) as (Hfext & Hfreq & Hfout).
  rewrite Hreq, Hout in Hfout, Hfext.
  destruct (fetch env b wa) as [o wb]. simpl in Hfext, Hfreq, Hfout. subst o.
  exists wb, (evsa ++ [EvHttp b (Responded r)]).
  split; [reflexivity|]. split; [eapply extends_trans; eauto|].
  rewrite sleeps_app, httpCount_app, Hback, Hcnt. simpl.
  repeat split; auto. lia.
Qed.

(** The page of a good response is what [fetchMessageBatch] returns. *)
Lemma fetchMessageBatch_delivers env c l b w r batch :
  String.eqb (token w) "" = false ->
  0 < maxRetries (limiter w) ->
  httpOutcome env (requests w) b = Responded r ->
  pageOf r = Some batch ->
  exists w1,
    fetchMessageBatch env c l b w = (Returned batch, w1)
    /\ requests w1 = S (requests w)
    /\ token w1 = token w
    /\ maxRetries (limiter w1) = maxRetries (limiter w).
Proof.
  intros Htok Hmax Hout Hpage.
  rewrite fetchMessageBatch_unfold, Htok.
  destruct (executeWithRetry_response env b (snd (log (EvBatch b) w)) r Hmax Hout)
    as (w1 & evs & Hrun & [_ Ht Hm _] & Hreq & _).
  rewrite Hrun. unfold pageOf in Hpage.
  destruct (ok r); [|discriminate]. simpl.
  destruct (json r); [discriminate|]. inversion Hpage; subst.
  exists w1. repeat split; auto.
Qed.

(** A response that is not [ok] makes [fetchMessageBatch] throw after that
    single exchange, whatever its status: a 429 is not retried. *)
Lemma fetchMessageBatch_bad_status env c l b w r :
  String.eqb (token w) "" = false ->
  0 < maxRetries (limiter w) ->
  httpOutcome env (requests w) b = Responded r ->
  ok r = false ->
  exists w1 evs,
    fetchMessageBatch env c l b w
    = (Threw (JsError (String.append "API returned status "
                                     (string_of_Z (status r)))), w1)
    /\ trace w1 = trace w ++ evs
    /\ httpCount evs = 1%nat
    /\ sleeps Backoff evs = [].
Proof.
  intros Htok Hmax Hout Hok.
  rewrite fetchMessageBatch_unfold, Htok.
  destruct (executeWithRetry_response env b (snd (log (EvBatch b) w)) r Hmax Hout)
    as (w1 & evs & Hrun & [Ht _ _ _] & Hreq & Hback & Hcnt).
  rewrite Hrun, Hok. simpl.
  exists w1, (EvBatch b :: evs). split; [reflexivity|].
  split; [rewrite Ht; simpl; rewrite <- app_assoc; reflexivity|].
  simpl. auto.
Qed.

Section ScriptedFeed.

Variable env : Env.
Variable c : string.
Variable K : Z.
Variables s e : option JsDate.

Lemma capTo_app_reached kept more :
  capReached K kept -> capTo K (kept ++ more) = firstn (Z.to_nat K) kept.
Proof.
  intros [H1 H2]. unfold capTo. replace (K >? 0) with true by lia.
  rewrite firstn_app. replace (Z.to_nat K - List.length kept)%nat with O by lia.
  simpl. apply app_nil_r.
Qed.

Lemma scripted_loop :
  forall feed fuel acc ps w,
    hasMore ps = true ->
    ~ capReached K acc ->
    String.eqb (token w) "" = false ->
    0 < maxRetries (limiter w) ->
    servesPages env (requests w) (before ps) feed ->
    (List.length feed < fuel)%nat ->
    exists acc' ps' w',
      scrapeLoop env fuel c K s e acc ps w = (LoopDone, acc', ps', w')
      /\ acc' = capTo K (acc ++ filterByTimestamp env (List.concat feed) s e)
      /\ (requests w < requests w' <= requests w + List.length feed + 1)%nat
      /\ (forall j,
             capReached K
               (acc ++ filterByTimestamp env (List.concat (firstn j feed)) s e) ->
             (requests w' <= requests w + j)%nat)
      /\ (~ capReached K (acc ++ filterByTimestamp env (List.concat feed) s e) ->
          requests w' = (requests w + List.length feed + 1)%nat).
Proof.
  induction feed as [|page feed IH]; intros fuel acc ps w Hmore Hcap Htok Hmax [Hne Hfeed] Hfuel.
  - destruct fuel as [|fuel]; [simpl in Hfuel; lia|].
    destruct (Hfeed O) as (r & Hout & Hpage).
    rewrite Nat.add_0_r in Hout. simpl in Hpage, Hout.
    destruct (fetchMessageBatch_delivers env c MESSAGE_LIMITS.MAX (before ps) w r []
                Htok Hmax Hout Hpage) as (w1 & Hrun & Hreq & _).
    simpl. rewrite Hmore, Hrun. cbn [negb].
    do 3 eexists. split; [reflexivity|].
    rewrite filterByTimestamp_nil, app_nil_r.
    split; [symmetry; apply capTo_below, Hcap|].
    split; [simpl; lia|].
    split.
    + intros j Hj. destruct j; simpl in Hj;
        rewrite filterByTimestamp_nil, app_nil_r in Hj; contradiction.
    + intros _. simpl. lia.
  - destruct fuel as [|fuel]; [simpl in Hfuel; lia|].
    destruct (Hfeed O) as (r & Hout & Hpage).
    rewrite Nat.add_0_r in Hout. simpl in Hpage, Hout.
    destruct (fetchMessageBatch_delivers env c MESSAGE_LIMITS.MAX (before ps) w r page
                Htok Hmax Hout Hpage) as (w1 & Hrun & Hreq & Htok1 & Hmax1).
    inversion Hne as [|? ? Hpne Hne']; subst.
    destruct page as [|first rest]; [congruence|].
    cbn [scrapeLoop]. rewrite Hmore, Hrun. cbn [negb]. cbv iota.
    set (batch := first :: rest) in *.
    set (kept := acc ++ filterByTimestamp env batch s e).
    assert (Hall : acc ++ filterByTimestamp env (List.concat (batch :: feed)) s e
                   = kept ++ filterByTimestamp env (List.concat feed) s e).
    { change (List.concat (batch :: feed)) with (batch ++ List.concat feed).
      unfold kept. rewrite filterByTimestamp_app, app_assoc. reflexivity. }
    destruct ((K >? 0) && (Z.of_nat (List.length kept) >=? K)) eqn:Htest.
    + apply capReached_test in Htest.
      do 3 eexists. split; [reflexivity|].
      rewrite Hall. split; [symmetry; apply capTo_app_reached, Htest|].
      split; [simpl; lia|]. split.
      * intros j Hj. destruct j; [|lia].
        simpl in Hj. rewrite filterByTimestamp_nil, app_nil_r in Hj. contradiction.
      * intros Hn. exfalso. apply Hn. destruct Htest as [H1 H2]. split; [exact H1|].
        rewrite length_app. lia.
    + assert (Hnot : ~ capReached K kept).
      { intros H. apply capReached_test in H. congruence. }
      cbn [hasMore advance]. rewrite Hmore.
      set (w2 := snd (delay env Pagination PAGINATION_DELAY_MS w1)).
      set (ps1 := advance ps batch (List.last rest first)).
      assert (Hserve : servesPages env (requests w2) (before ps1) feed).
      { split; [exact Hne'|]. intros k. destruct (Hfeed (S k)) as (r' & Ho & Hp).
        exists r'. split; [|exact Hp].
        replace (requests w2 + k)%nat with (requests w + S k)%nat
          by (unfold w2; simpl; lia).
        change (List.concat (firstn (S k) (batch :: feed)))
          with (batch ++ List.concat (firstn k feed)) in Ho.
        unfold batch in Ho. rewrite lastIdOf_app in Ho. exact Ho. }
      destruct (IH fuel kept ps1 w2) as (acc' & ps' & w' & Hloop & Hacc & Hreqs & Hstop & Hfull);
        auto; try (simpl in Hfuel; lia).
      { unfold w2. simpl. rewrite Htok1. exact Htok. }
      { unfold w2. simpl. rewrite Hmax1. exact Hmax. }
      exists acc', ps', w'. split; [exact Hloop|].
      rewrite Hall. split; [exact Hacc|].
      assert (Hr2 : requests w2 = S (requests w)) by (unfold w2; simpl; lia).
      split; [simpl; lia|]. split.
      * intros j Hj. destruct j.
        -- simpl in Hj. rewrite filterByTimestamp_nil, app_nil_r in Hj. contradiction.
        -- change (List.concat (firstn (S j) (batch :: feed)))
             with (batch ++ List.concat (firstn j feed)) in Hj.
           rewrite filterByTimestamp_app, app_assoc in Hj. fold kept in Hj.
           specialize (Hstop j Hj). lia.
      * intros Hn. rewrite Hfull by exact Hn. simpl. lia.
Qed.

End ScriptedFeed.

Lemma setupAuthentication_signedIn env w :
  signedIn env ->
  exists tok,
    String.eqb tok "" = false
    /\ setupAuthentication env w = (Returned tt, snd (setToken tok w)).
Proof.
  intros [(tok & Hs & Htok) [Hv _]]. exists tok. split; [exact Htok|].
  unfold setupAuthentication, tryCatch, bind. rewrite Hs, Htok, Hv. reflexivity.
Qed.

Lemma capReached_nil K : ~ capReached K [].
Proof. unfold capReached. simpl. lia. Qed.

Lemma capTo_length K l :
  0 < K ->
  Z.of_nat (List.length (capTo K l)) = Z.min K (Z.of_nat (List.length l)).
Proof.
  intros H. unfold capTo. replace (K >? 0) with true by lia.
  rewrite length_firstn. lia.
Qed.

(** C3. The cap is enforced after filtering. Against a feed that holds the
    pages feed (and nothing after them), a signed-in run with enough fuel
    returns without error; it keeps the filtered messages of the whole feed
    cut at the cap: with maxMessages = K > 0 the first K of them, that is
    min(K, available) messages, and all of them with maxMessages = 0. The loop
    is left with hasMore = false, and as soon as the first j pages hold K
    kept messages no more than j requests are sent, however many pages the
    feed still has. *)
Theorem cap_enforced_after_filtering
    (env : Env) (feed : list (list DiscordMessage)) (fuel : nat)
    (server channel : string) (maxMessages : Z)
    (timestampStart timestampEnd : option string) (start : Z) :
  signedIn env ->
  servesPages env 0 None feed ->
  (List.length feed < fuel)%nat ->
  let startDate := parseBound env timestampStart in
  let endDate := parseBound env timestampEnd in
  let available :=
    filterByTimestamp env (List.concat feed) startDate endDate in
  exists res w1 ps' w',
    scrapeChannel env fuel server channel maxMessages
      timestampStart timestampEnd (initialWorld start) = (Some res, w')
    /\ setupAuthentication env (initialWorld start) = (Returned tt, w1)
    /\ scrapeLoop env fuel channel maxMessages startDate endDate
         [] initialPagination w1 = (LoopDone, messages res, ps', w')
    /\ hasMore ps' = false
    /\ errors res = []
    /\ messages res = capTo maxMessages available
    /\ (0 < maxMessages ->
        messages res = firstn (Z.to_nat maxMessages) available
        /\ totalScraped res
           = Z.min maxMessages (Z.of_nat (List.length available)))
    /\ (maxMessages = 0 -> messages res = available)
    /\ (forall j,
           capReached maxMessages
             (filterByTimestamp env (List.concat (firstn j feed))
                startDate endDate) ->
           (requests w' <= j)%nat)
    /\ (requests w' <= List.length feed + 1)%nat.
Proof.
  intros Hin Hfeed Hfuel startDate endDate available.
  destruct (setupAuthentication_signedIn env (initialWorld start) Hin)
    as (tok & Htok & Hauth).
  set (w1 := snd (setToken tok (initialWorld start))) in *.
  destruct (scripted_loop env channel maxMessages startDate endDate feed fuel
              [] initialPagination w1)
    as (acc' & ps' & w' & Hloop & Hacc & Hreqs & Hstop & _);
    auto using capReached_nil.
  { simpl. unfold RATE_LIMIT.MAX_RETRIES. lia. }
  destruct (scrapeLoop_spec env channel maxMessages startDate endDate fuel
              [] initialPagination w1 _ _ _ _ eq_refl (capReached_nil _) Hloop)
    as (evs & _ & _ & Hspec).
  destruct Hin as (_ & _ & Hvalid).
  exists {| res_serverId := server; res_channelId := channel;
            messages := acc';
            totalScraped := Z.of_nat (List.length acc');
            totalAppended := 0; errors := []; warnings := [];
            duration := clock w' - start |}, w1, ps', w'.
  simpl in Hacc, Hreqs, Hstop. fold available in Hacc.
  split.
  { unfold scrapeChannel. rewrite Hauth, Hvalid. cbn [negb].
    fold startDate endDate. rewrite Hloop. reflexivity. }
  split; [exact Hauth|]. split; [exact Hloop|].
  split; [apply (ls_done _ _ _ _ _ _ _ _ _ _ Hspec eq_refl)|].
  split; [reflexivity|]. cbn [messages totalScraped].
  split; [exact Hacc|].
  split.
  { intros Hpos. rewrite Hacc. split.
    - unfold capTo. replace (maxMessages >? 0) with true by lia. reflexivity.
    - apply capTo_length, Hpos. }
  split.
  { intros ->. rewrite Hacc. reflexivity. }
  split; [|lia].
  intros j Hj. specialize (Hstop j Hj). lia.
Qed.

Lemma filterByTimestamp_concat env s e (ps : list (list DiscordMessage)) :
  filterByTimestamp env (List.concat ps) s e
  = List.concat (map (fun p => filterByTimestamp env p s e) ps).
Proof.
  induction ps as [|p ps IH]; simpl.
  - apply filterByTimestamp_nil.
  - rewrite filterByTimestamp_app, IH. reflexivity.
Qed.

Lemma concat_pages_cons x l :
  List.concat (pages (x :: l)) = eventPage x ++ List.concat (pages l).
Proof.
  destruct x as [| | |b [r|y]]; simpl; auto.
  destruct (pageOf r); simpl; auto.
Qed.

Lemma haltsProperly_split env K s e :
  forall tr1 kept ev tr2,
    haltsProperly env K s e kept (tr1 ++ ev :: tr2) ->
    (emptyPage ev = true -> tr2 = [])
    /\ (capReached K
          (kept ++ filterByTimestamp env
                     (List.concat (pages (tr1 ++ [ev]))) s e) ->
        tr2 = []).
Proof.
  induction tr1 as [|x tr1 IH]; intros kept ev tr2 H.
  - simpl in H. destruct H as [H _]. split; [auto|].
    intros Hc. apply H. right.
    change ([] ++ [ev]) with [ev] in Hc.
    rewrite concat_pages_cons in Hc. simpl in Hc. rewrite app_nil_r in Hc.
    exact Hc.
  - simpl in H. destruct H as [_ H].
    destruct (IH _ _ _ H) as [H1 H2]. split; [exact H1|].
    intros Hc. apply H2.
    change ((x :: tr1) ++ [ev]) with (x :: (tr1 ++ [ev])) in Hc.
    rewrite concat_pages_cons, filterByTimestamp_app, app_assoc in Hc.
    exact Hc.
Qed.

Lemma setupAuthentication_frame env w out w1 :
  setupAuthentication env w = (out, w1) ->
  trace w1 = trace w /\ limiter w1 = limiter w /\ requests w1 = requests w
  /\ clock w1 = clock w
  /\ (Reachable env w -> Reachable env w1).
Proof.
  unfold setupAuthentication, tryCatch, bind, throw, ret.
  destruct (session env) as [x|t].
  - intros H; inversion H; subst. auto.
  - destruct (String.eqb t "").
    + intros H; inversion H; subst. auto.
    + change (setToken t w) with (Returned tt, snd (setToken t w)). cbv iota.
      destruct (negb (sessionValid env)); intros H; inversion H; subst; simpl;
        repeat split; auto; intros Hr; apply (reach_token env w t Hr).
Qed.

Lemma capTo_nil K : capTo K [] = [].
Proof. unfold capTo. destruct (K >? 0); [apply firstn_nil|reflexivity]. Qed.

(** What every returned result looks like. *)
Lemma scrapeChannel_result env fuel server c K ts te w res w' :
  scrapeChannel env fuel server c K ts te w = (Some res, w') ->
  exists evs,
    trace w' = trace w ++ evs
    /\ messages res
       = capTo K (filterByTimestamp env (List.concat (pages evs))
                    (parseBound env ts) (parseBound env te))
    /\ totalScraped res = Z.of_nat (List.length (messages res))
    /\ haltsProperly env K (parseBound env ts) (parseBound env te) [] evs
    /\ (errors res <> [] <-> aborted env fuel c K ts te w)
    /\ (aborted env fuel c K ts te w ->
        messages res
        = filterByTimestamp env (List.concat (pages evs))
            (parseBound env ts) (parseBound env te)).
Proof.
  unfold scrapeChannel, aborted.
  destruct (setupAuthentication env w) as [[[]|x] w1] eqn:Hauth;
    destruct (setupAuthentication_frame env w _ _ Hauth) as (Ht & _).
  - destruct (negb (isValid (validation env))) eqn:Hv.
    + intros H; inversion H; subst. exists []. rewrite app_nil_r.
      cbn [messages totalScraped errors pages List.concat].
      rewrite filterByTimestamp_nil, capTo_nil.
      repeat split; auto.
      * intros _. left. destruct (isValid (validation env)); [discriminate|reflexivity].
      * intros _ Hx. destruct (validationErrors (validation env)); discriminate.
    + destruct (scrapeLoop env fuel c K (parseBound env ts) (parseBound env te)
                  [] initialPagination w1) as [[[exit acc] ps] w2] eqn:Hloop.
      destruct (scrapeLoop_spec env c K _ _ fuel [] initialPagination w1 _ _ _ _
                  eq_refl (capReached_nil K) Hloop)
        as (evs & [Htr _ _ _] & _ & Hspec).
      assert (Hvalid : isValid (validation env) = true)
        by (destruct (isValid (validation env)); [reflexivity|discriminate]).
      destruct exit; intros H; inversion H; subst; exists evs;
        (split; [rewrite Htr, Ht; reflexivity|]);
        cbn [messages totalScraped errors];
        (split; [apply (ls_kept _ _ _ _ _ _ _ _ _ _ Hspec)|]);
        (split; [reflexivity|]);
        (split; [apply (ls_halts _ _ _ _ _ _ _ _ _ _ Hspec)|]).
      * split.
        -- split; [intros Hx; congruence|].
           intros [Hx|(x & a & p & w3 & Hx)]; congruence.
        -- intros [Hx|(x & a & p & w3 & Hx)]; congruence.
      * split.
        -- split; [intros _; right; eauto|intros _; discriminate].
        -- intros _. rewrite (ls_kept _ _ _ _ _ _ _ _ _ _ Hspec).
           apply capTo_below.
           apply (ls_open _ _ _ _ _ _ _ _ _ _ Hspec). discriminate.
  - intros H; inversion H; subst. exists []. rewrite app_nil_r.
    cbn [messages totalScraped errors pages List.concat].
    rewrite filterByTimestamp_nil, capTo_nil.
    repeat split; auto. intros _; discriminate.
Qed.

Lemma aborted_returns env fuel server c K ts te w :
  aborted env fuel c K ts te w ->
  exists res w', scrapeChannel env fuel server c K ts te w = (Some res, w').
Proof.
  unfold aborted, scrapeChannel.
  destruct (setupAuthentication env w) as [[[]|x] w1]; [|eauto].
  intros [Hv|(x & acc & ps & w2 & Hloop)].
  - rewrite Hv. simpl. eauto.
  - destruct (negb (isValid (validation env))); [eauto|].
    rewrite Hloop. eauto.
Qed.

(** C9. A run that is aborted by an error (authentication, validation, or an
    exception that leaves the fetch loop) still returns a ScrapeResult. Its
    messages are the kept messages of all the pages that were delivered
    before the failure, in order; totalScraped is their number; and the error
    list is not empty. Case by case: when authentication throws, or the
    validation fails, nothing was accumulated and the result holds no message
    and the error; when an exception e leaves the loop, the result holds
    exactly the messages the loop had accumulated when it was left, which are
    the kept messages of the pages of the loop's own trace, and the one error
    e. *)
Theorem partial_results_survive_failure
    (env : Env) (fuel : nat) (server channel : string) (maxMessages : Z)
    (timestampStart timestampEnd : option string) (w : World) :
  aborted env fuel channel maxMessages timestampStart timestampEnd w ->
  exists res w' evs,
    scrapeChannel env fuel server channel maxMessages
      timestampStart timestampEnd w = (Some res, w')
    /\ trace w' = trace w ++ evs
    /\ messages res
       = List.concat
           (map (fun page =>
                   filterByTimestamp env page
                     (parseBound env timestampStart)
                     (parseBound env timestampEnd))
                (pages evs))
    /\ totalScraped res = Z.of_nat (List.length (messages res))
    /\ errors res <> []
    /\ match setupAuthentication env w with
       | (Threw e, _) => messages res = [] /\ errors res = [errorMessage e]
       | (Returned _, w1) =>
           if isValid (validation env) then
             exists e allMessages ps w2,
               scrapeLoop env fuel channel maxMessages
                 (parseBound env timestampStart) (parseBound env timestampEnd)
                 [] initialPagination w1
               = (LoopThrew e, allMessages, ps, w2)
               /\ messages res = allMessages
               /\ errors res = [errorMessage e]
               /\ w' = w2
               /\ trace w2 = trace w1 ++ evs
           else
             messages res = []
             /\ errors res
                = validationErrors (validation env)
                  ++ [String.append "Validation failed: "
                        (String.concat "; "
                           (validationErrors (validation env)))]
       end.
Proof.
  intros Hab.
  destruct (aborted_returns env fuel server channel maxMessages
              timestampStart timestampEnd w Hab) as (res & w' & Hrun).
  destruct (scrapeChannel_result _ _ _ _ _ _ _ _ _ _ Hrun)
    as (evs & Htr & _ & Htot & _ & Herr & Hmsgs).
  exists res, w', evs. split; [exact Hrun|]. split; [exact Htr|].
  split; [rewrite (Hmsgs Hab); apply filterByTimestamp_concat|].
  split; [exact Htot|]. split; [apply Herr, Hab|].
  revert Hrun Hab. unfold scrapeChannel, aborted.
  destruct (setupAuthentication env w) as [[[]|x] w1] eqn:Hauth.
  - destruct (setupAuthentication_frame env w _ _ Hauth) as (Ht & _).
    destruct (isValid (validation env)) eqn:Hv; cbn [negb].
    + intros Hrun [Hx|(e & acc & ps & w2 & Hloop)]; [discriminate Hx|].
      rewrite Hloop in Hrun. inversion Hrun; subst.
      exists e, acc, ps, w'. cbn [messages errors].
      repeat split; try reflexivity; try exact Hloop.
      rewrite Htr, Ht. reflexivity.
    + intros Hrun _. inversion Hrun; subst. cbn [messages errors]. auto.
  - intros Hrun _. inversion Hrun; subst. cbn [messages errors]. auto.
Qed.

Lemma loop_cursors_descend env channel K s e fuel w exit acc' ps' w' :
  feedOrdered env ->
  scrapeLoop env fuel channel K s e [] initialPagination w
  = (exit, acc', ps', w') ->
  exists evs,
    trace w' = trace w ++ evs
    /\ descending (cursors evs)
    /\ NoDup (map id (List.concat (pages evs))).
Proof.
  intros Hfeed Hrun.
  destruct (scrapeLoop_spec env channel K s e fuel
              [] initialPagination w _ _ _ _ eq_refl (capReached_nil _) Hrun)
    as (evs & [Htr _ _ _] & _ & Hspec).
  destruct (ls_ordered _ _ _ _ _ _ _ _ _ _ Hspec Hfeed) as (Hd & _ & Hc & _).
  exists evs. auto using descending_NoDup.
Qed.

(** C1. Under the feed contract (pages newest first, every message older than
    the before cursor of its request), for a run of the fetch loop of any
    length: the cursor is the id of the last message of the last raw page
    that held messages, and the before cursors of the successive fetches are
    the last ids of the raw pages, page after page (the last page may not
    have been followed by a fetch); they are strictly decreasing without
    repeats, and so are the ids of all fetched messages: no message is fetched
    twice. *)
Theorem cursor_strictly_decreases
    (env : Env) (channel : string) (maxMessages : Z)
    (startDate endDate : option JsDate) (fuel : nat) (w : World)
    (exit : LoopExit) (allMessages' : list DiscordMessage)
    (ps' : PaginationState) (w' : World) :
  feedOrdered env ->
  scrapeLoop env fuel channel maxMessages startDate endDate
    [] initialPagination w = (exit, allMessages', ps', w') ->
  exists evs,
    trace w' = trace w ++ evs
    /\ before ps' = lastIdOf None (List.concat (pages evs))
    /\ (exists rest,
           lastIds (pages evs) = cursors evs ++ rest
           /\ (List.length rest <= 1)%nat)
    /\ descending (cursors evs)
    /\ NoDup (cursors evs)
    /\ descending (map id (List.concat (pages evs)))
    /\ NoDup (map id (List.concat (pages evs))).
Proof.
  intros Hfeed Hrun.
  destruct (scrapeLoop_spec env channel maxMessages startDate endDate fuel
              [] initialPagination w _ _ _ _ eq_refl (capReached_nil _) Hrun)
    as (evs & [Htr _ _ _] & _ & Hspec).
  destruct (ls_ordered _ _ _ _ _ _ _ _ _ _ Hspec Hfeed) as (Hd & _ & Hc & _).
  exists evs. split; [exact Htr|].
  split; [apply (ls_before _ _ _ _ _ _ _ _ _ _ Hspec)|].
  split; [apply (ls_cursors _ _ _ _ _ _ _ _ _ _ Hspec)|].
  auto using descending_NoDup.
Qed.

(** The same over a whole scrape, however it ends. *)
Theorem scrape_never_refetches
    (env : Env) (fuel : nat) (server channel : string) (maxMessages : Z)
    (timestampStart timestampEnd : option string) (w : World)
    (out : option ScraperResult) (w' : World) :
  feedOrdered env ->
  scrapeChannel env fuel server channel maxMessages
    timestampStart timestampEnd w = (out, w') ->
  exists evs,
    trace w' = trace w ++ evs
    /\ descending (cursors evs)
    /\ NoDup (map id (List.concat (pages evs))).
Proof.
  intros Hfeed. unfold scrapeChannel.
  assert (Hnil : exists evs : list Event,
             trace w = trace w ++ evs /\ descending (cursors evs)
             /\ NoDup (map id (List.concat (pages evs)))).
  { exists []. rewrite app_nil_r. repeat split; constructor. }
  destruct (setupAuthentication env w) as [[[]|x] w1] eqn:Hauth;
    destruct (setupAuthentication_frame env w _ _ Hauth) as (Ht & _).
  - destruct (negb (isValid (validation env))).
    + intros H; inversion H; subst. rewrite Ht. exact Hnil.
    + destruct (scrapeLoop env fuel channel maxMessages
                  (parseBound env timestampStart) (parseBound env timestampEnd)
                  [] initialPagination w1) as [[[exit acc] ps] w2] eqn:Hloop.
      destruct (loop_cursors_descend env channel maxMessages _ _ fuel
                  w1 _ _ _ _ Hfeed Hloop) as (evs & Htr & Hc & Hn).
      assert (Hres : trace w2 = trace w ++ evs) by (rewrite Htr, Ht; reflexivity).
      destruct exit; intros H; inversion H; subst; eauto.
  - intros H; inversion H; subst. rewrite Ht. exact Hnil.
Qed.

(** C2. In every run of the fetch loop, the delivery of a page of size 0 is
    the last event: nothing is fetched after it, the loop is left normally
    and hasMore is false. Conversely a loop that is left normally was ended
    by the cap or by an empty page, so without a cap the empty page is the
    only signal that ends it. *)
Theorem empty_page_ends_run
    (env : Env) (channel : string) (maxMessages : Z)
    (startDate endDate : option JsDate) (fuel : nat) (w : World)
    (exit : LoopExit) (allMessages' : list DiscordMessage)
    (ps' : PaginationState) (w' : World) :
  scrapeLoop env fuel channel maxMessages startDate endDate
    [] initialPagination w = (exit, allMessages', ps', w') ->
  exists evs,
    trace w' = trace w ++ evs
    /\ (forall tr1 ev tr2,
           evs = tr1 ++ ev :: tr2 -> emptyPage ev = true ->
           tr2 = [] /\ exit = LoopDone /\ hasMore ps' = false)
    /\ (exit = LoopDone ->
        hasMore ps' = false
        /\ (capReached maxMessages
              (filterByTimestamp env (List.concat (pages evs))
                 startDate endDate)
            \/ exists tr ev, evs = tr ++ [ev] /\ emptyPage ev = true))
    /\ (exit = LoopDone -> maxMessages = 0 ->
        exists tr ev, evs = tr ++ [ev] /\ emptyPage ev = true).
Proof.
  intros Hrun.
  destruct (scrapeLoop_spec env channel maxMessages startDate endDate fuel
              [] initialPagination w _ _ _ _ eq_refl (capReached_nil _) Hrun)
    as (evs & [Htr _ _ _] & _ & Hspec).
  pose proof (ls_done _ _ _ _ _ _ _ _ _ _ Hspec) as Hdone.
  pose proof (ls_open _ _ _ _ _ _ _ _ _ _ Hspec) as Hopen.
  pose proof (ls_halts _ _ _ _ _ _ _ _ _ _ Hspec) as Hhalts.
  simpl in Hdone, Hopen.
  exists evs. split; [exact Htr|]. split; [|split; [exact Hdone|]].
  - intros tr1 ev tr2 -> Hev.
    destruct (haltsProperly_split _ _ _ _ _ _ _ _ Hhalts) as [H1 _].
    split; [auto|].
    assert (Hexit : exit = LoopDone).
    { destruct exit; [reflexivity| |];
        (destruct Hopen as (_ & Hne & _); [discriminate|]);
        rewrite Forall_forall in Hne;
        specialize (Hne ev (in_elt ev tr1 tr2)); congruence. }
    split; [exact Hexit|]. apply Hdone, Hexit.
  - intros Hexit ->. destruct (Hdone Hexit) as [_ [[Hc _]|H]]; [lia|exact H].
Qed.

(** Over a whole scrape that returns a result: nothing happens after an
    empty page, nor after the page with which the kept messages reach the
    cap. *)
Theorem scrape_halts_properly
    (env : Env) (fuel : nat) (server channel : string) (maxMessages : Z)
    (timestampStart timestampEnd : option string) (w : World)
    (res : ScraperResult) (w' : World) :
  scrapeChannel env fuel server channel maxMessages
    timestampStart timestampEnd w = (Some res, w') ->
  exists evs,
    trace w' = trace w ++ evs
    /\ forall tr1 ev tr2,
         evs = tr1 ++ ev :: tr2 ->
         (emptyPage ev = true -> tr2 = [])
         /\ (capReached maxMessages
               (filterByTimestamp env (List.concat (pages (tr1 ++ [ev])))
                  (parseBound env timestampStart)
                  (parseBound env timestampEnd)) ->
             tr2 = []).
Proof.
  intros Hrun.
  destruct (scrapeChannel_result _ _ _ _ _ _ _ _ _ _ Hrun)
    as (evs & Htr & _ & _ & Hhalts & _).
  exists evs. split; [exact Htr|].
  intros tr1 ev tr2 ->.
  exact (haltsProperly_split _ _ _ _ _ _ _ _ Hhalts).
Qed.

(** C4. A message with timestamp t is kept by the filter exactly when
    lo <= t <= hi, a bound that is not set imposing no constraint. And in
    every run of the fetch loop the cursor and totalFetched are computed from
    the raw pages, whatever the bounds keep: the cursor is the id of the last
    raw message, totalFetched the number of raw messages, while the kept
    messages are the filtered raw messages, cut at the cap. *)
Theorem filter_keeps_the_range_only
    (env : Env) (lo hi : option Z) (msgs : list DiscordMessage)
    (msg : DiscordMessage) (t : Z)
    (channel : string) (maxMessages : Z) (fuel : nat) (w : World)
    (exit : LoopExit) (allMessages' : list DiscordMessage)
    (ps' : PaginationState) (w' : World) :
  newDate env (timestamp msg) = Some t ->
  scrapeLoop env fuel channel maxMessages (bound lo) (bound hi)
    [] initialPagination w = (exit, allMessages', ps', w') ->
  (In msg (filterByTimestamp env msgs (bound lo) (bound hi))
   <-> In msg msgs /\ inRange lo hi t)
  /\ exists evs,
       trace w' = trace w ++ evs
       /\ before ps' = lastIdOf None (List.concat (pages evs))
       /\ totalFetched ps' = Z.of_nat (List.length (List.concat (pages evs)))
       /\ allMessages'
          = capTo maxMessages
              (filterByTimestamp env (List.concat (pages evs))
                 (bound lo) (bound hi)).
Proof.
  intros Ht Hrun. split.
  - rewrite filterByTimestamp_filter, filter_In.
    unfold keeps, inRange, bound, date_gt, date_lt. rewrite Ht.
    destruct lo as [l|], hi as [h|]; simpl;
      repeat match goal with
        | |- context [?a <? ?b] => destruct (Z.ltb_spec a b)
        end; intuition (try lia; try discriminate).
  - destruct (scrapeLoop_spec env channel maxMessages _ _ fuel
                [] initialPagination w _ _ _ _ eq_refl (capReached_nil _) Hrun)
      as (evs & [Htr _ _ _] & _ & Hspec).
    exists evs. split; [exact Htr|].
    split; [apply (ls_before _ _ _ _ _ _ _ _ _ _ Hspec)|].
    split; [apply (ls_totalFetched _ _ _ _ _ _ _ _ _ _ Hspec)|].
    apply (ls_kept _ _ _ _ _ _ _ _ _ _ Hspec).
Qed.

Lemma prefix_empty s : String.prefix "" s = true.
Proof. destruct s; reflexivity. Qed.

Lemma includes_char c s :
  includes s (str1 c) = true <-> In c (chars s).
Proof.
  induction s as [|a s IH]; simpl.
  - split; [discriminate|intros []].
  - unfold str1 in *. destruct (ascii_dec c a) as [->|Hne].
    + rewrite prefix_empty. split; auto.
    + rewrite IH. split; [auto|]. intros [H|H]; [congruence|exact H].
Qed.

Lemma includes_char_false c s :
  includes s (str1 c) = false <-> ~ In c (chars s).
Proof.
  rewrite <- includes_char. destruct (includes s (str1 c)); split; congruence.
Qed.

Lemma fieldEnd_not_quote rest :
  fieldEnd rest ->
  rest = EmptyString
  \/ exists c tail, rest = String c tail /\ Ascii.eqb c dquote = false.
Proof.
  intros [->|(tail & [->| ->])]; [left; reflexivity| |]; right; eauto.
Qed.

Lemma readQuoted_replaceQuotes v rest :
  fieldEnd rest ->
  readQuoted (String.append (replaceQuotes v) (String dquote rest))
  = Some (v, rest).
Proof.
  intros Hend. apply fieldEnd_not_quote in Hend.
  induction v as [|a v IH]; simpl.
  - destruct Hend as [->|(c & tail & -> & Hc)]; [reflexivity|].
    rewrite Hc. reflexivity.
  - destruct (Ascii.eqb a dquote) eqn:Ea.
    + apply Ascii.eqb_eq in Ea. subst a. simpl. rewrite IH. reflexivity.
    + simpl. rewrite Ea, IH. reflexivity.
Qed.

Lemma readUnquoted_plain v rest :
  ~ In comma (chars v) -> ~ In newline (chars v) ->
  fieldEnd rest ->
  readUnquoted (String.append v rest) = (v, rest).
Proof.
  intros Hc Hn Hend. induction v as [|a v IH]; simpl.
  - destruct Hend as [->|(tail & [->| ->])]; reflexivity.
  - simpl in Hc, Hn.
    destruct (Ascii.eqb a comma) eqn:Ea;
      [apply Ascii.eqb_eq in Ea; exfalso; apply Hc; left; congruence|].
    destruct (Ascii.eqb a newline) eqn:Eb;
      [apply Ascii.eqb_eq in Eb; exfalso; apply Hn; left; congruence|].
    simpl. rewrite IH; auto.
Qed.

Lemma escapeCSVField_cases v :
  (In comma (chars v) \/ In dquote (chars v) \/ In newline (chars v) ->
   escapeCSVField v
   = String dquote (String.append (replaceQuotes v) (str1 dquote)))
  /\ (~ In comma (chars v) /\ ~ In dquote (chars v) /\ ~ In newline (chars v) ->
      escapeCSVField v = v).
Proof.
  unfold escapeCSVField. split.
  - intros H.
    replace (includes v (str1 comma) || includes v (str1 dquote)
             || includes v (str1 newline)) with true; [reflexivity|].
    symmetry. rewrite !orb_true_iff, !includes_char. tauto.
  - intros (H1 & H2 & H3).
    apply includes_char_false in H1, H2, H3. rewrite H1, H2, H3. reflexivity.
Qed.

Lemma append_assoc (a b c : string) :
  String.append (String.append a b) c = String.append a (String.append b c).
Proof. induction a as [|x a IH]; simpl; [reflexivity|]. rewrite IH. reflexivity. Qed.

Lemma readField_escape v rest :
  fieldEnd rest ->
  readField (String.append (escapeCSVField v) rest) = Some (v, rest).
Proof.
  intros Hend. unfold escapeCSVField.
  destruct (includes v (str1 comma)) eqn:E1;
    [|destruct (includes v (str1 dquote)) eqn:E2;
      [|destruct (includes v (str1 newline)) eqn:E3]]; simpl orb; cbv iota.
  1-3: simpl; unfold str1; rewrite append_assoc; simpl;
       apply readQuoted_replaceQuotes, Hend.
  apply includes_char_false in E1, E2, E3.
  destruct v as [|a v].
  - simpl. destruct Hend as [->|(tail & [->| ->])]; reflexivity.
  - cbn [String.append readField].
    destruct (Ascii.eqb a dquote) eqn:Ea.
    + apply Ascii.eqb_eq in Ea. exfalso. apply E2. left. congruence.
    + change (String a (String.append v rest))
        with (String.append (String a v) rest).
      rewrite readUnquoted_plain; auto.
Qed.

(** Reading back a line of escaped fields. *)
Lemma readRecord_fields fields :
  fields <> [] ->
  forall fuel rest,
    (List.length fields <= fuel)%nat ->
    readRecord fuel
      (String.append (String.concat (str1 comma) (map escapeCSVField fields))
                     (String newline rest))
    = Some (fields, rest).
Proof.
  induction fields as [|f fields IH]; [congruence|]. intros _ fuel rest Hfuel.
  destruct fuel as [|fuel]; [simpl in Hfuel; lia|].
  destruct fields as [|g fields].
  - simpl. rewrite readField_escape.
    + rewrite Ascii.eqb_refl. reflexivity.
    + right. eauto.
  - change (String.concat (str1 comma) (map escapeCSVField (f :: g :: fields)))
      with (String.append (escapeCSVField f)
              (String.append (str1 comma)
                 (String.concat (str1 comma) (map escapeCSVField (g :: fields))))).
    rewrite !append_assoc. cbn [readRecord].
    rewrite readField_escape by (right; unfold str1; simpl; eauto).
    unfold str1 at 1. cbn [String.append]. rewrite Ascii.eqb_refl.
    rewrite IH; [reflexivity|discriminate|simpl in *; lia].
Qed.

Lemma length_append (a b : string) :
  String.length (String.append a b) = (String.length a + String.length b)%nat.
Proof. induction a as [|x a IH]; simpl; [reflexivity|]. rewrite IH. reflexivity. Qed.

Lemma length_concat_fields (fields : list string) :
  (List.length fields
   <= S (String.length (String.concat (str1 comma) fields)))%nat.
Proof.
  induction fields as [|f fields IH]; [simpl; lia|].
  destruct fields as [|g fields]; [simpl; lia|].
  change (String.concat (str1 comma) (f :: g :: fields))
    with (String.append f
            (String.append (str1 comma)
               (String.concat (str1 comma) (g :: fields)))).
  rewrite !length_append.
  change (List.length (f :: g :: fields)) with (S (List.length (g :: fields))).
  unfold str1 at 1. simpl String.length at 2. lia.
Qed.

(** C8. escapeCSVField wraps a value in double quotes, with every inner
    quote doubled, exactly when the value contains a comma, a double quote or
    a line feed, and leaves it unchanged otherwise. The quoting is
    reversible: a reader that follows the RFC 4180 rule gets the value back
    from the escaped field, and gets the five fields of a row, the serialized
    message in the data field included, back from the line rowToCSV writes,
    whatever commas, quotes and line feeds the values contain. *)
Theorem csv_quoting_round_trips
    (value : string) (row : CSVRow) (rest : string) :
  ((In comma (chars value) \/ In dquote (chars value)
    \/ In newline (chars value)) ->
   escapeCSVField value
   = String dquote (String.append (replaceQuotes value) (str1 dquote)))
  /\ (~ In comma (chars value) /\ ~ In dquote (chars value)
      /\ ~ In newline (chars value) ->
      escapeCSVField value = value)
  /\ readField (escapeCSVField value) = Some (value, EmptyString)
  /\ readField (String.append (escapeCSVField value) (String comma rest))
     = Some (value, String comma rest)
  /\ readField (String.append (escapeCSVField value) (String newline rest))
     = Some (value, String newline rest)
  /\ parseCSVRecord (String.append (rowToCSV row) (String newline rest))
     = Some ([server_name row; server_id row; channel_name row;
              channel_id row; data row], rest).
Proof.
  destruct (escapeCSVField_cases value) as [H1 H2].
  split; [exact H1|]. split; [exact H2|].
  split.
  { replace (escapeCSVField value)
      with (String.append (escapeCSVField value) EmptyString) at 1.
    - apply readField_escape. left. reflexivity.
    - generalize (escapeCSVField value). intros s.
      induction s as [|a s IH]; simpl; [reflexivity|]. rewrite IH. reflexivity. }
  split; [apply readField_escape; right; eauto|].
  split; [apply readField_escape; right; eauto|].
  unfold parseCSVRecord, rowToCSV.
  apply (readRecord_fields (rowFields row)); [discriminate|].
  rewrite length_append.
  pose proof (length_concat_fields (map escapeCSVField (rowFields row))) as H.
  rewrite length_map in H. simpl String.length at 2. lia.
Qed.

Lemma subsequence_refl {A} (l : list A) : subsequence l l.
Proof. induction l; constructor; assumption. Qed.

Lemma subsequence_app_keep {A} (p a b : list A) :
  subsequence a b -> subsequence (p ++ a) (p ++ b).
Proof. intros H. induction p; simpl; [exact H|constructor; assumption]. Qed.

Lemma subsequence_app_drop {A} (p a b : list A) :
  subsequence a b -> subsequence a (p ++ b).
Proof. intros H. induction p; simpl; [exact H|constructor; assumption]. Qed.

Lemma in_firstn {A} (x : A) n l : In x (firstn n l) -> In x l.
Proof.
  intros H. rewrite <- (firstn_skipn n l). apply in_or_app. left. exact H.
Qed.

Lemma in_skipn {A} (x : A) n l : In x (skipn n l) -> In x l.
Proof.
  intros H. rewrite <- (firstn_skipn n l). apply in_or_app. right. exact H.
Qed.

Section ArtifactFacts.

Variable JSON_stringify : DiscordMessage -> Thrown + string.
Variable appendFailure : nat -> option Thrown.
Variable metadata : ServerMetadata.

Lemma append_empty_r (s : string) : String.append s EmptyString = s.
Proof. induction s as [|a s IH]; simpl; [reflexivity|]. rewrite IH. reflexivity. Qed.

Lemma csvLines_app a b :
  csvLines JSON_stringify metadata (a ++ b)
  = String.append (csvLines JSON_stringify metadata a)
                  (csvLines JSON_stringify metadata b).
Proof.
  unfold csvLines. induction a as [|x a IH]; [reflexivity|].
  destruct a as [|y a].
  - simpl. destruct b as [|z b]; simpl; [rewrite append_empty_r; reflexivity|].
    reflexivity.
  - change (String.concat "" (map (csvLine JSON_stringify metadata) ((x :: y :: a) ++ b)))
      with (String.append (csvLine JSON_stringify metadata x)
              (String.append ""
                 (String.concat "" (map (csvLine JSON_stringify metadata) ((y :: a) ++ b))))).
    rewrite IH. simpl String.append at 2.
    change (String.concat "" (map (csvLine JSON_stringify metadata) (x :: y :: a)))
      with (String.append (csvLine JSON_stringify metadata x)
              (String.append ""
                 (String.concat "" (map (csvLine JSON_stringify metadata) (y :: a))))).
    simpl String.append at 4. rewrite append_assoc. reflexivity.
Qed.

Lemma convertToCsvRows_ok batch rows :
  convertToCsvRows JSON_stringify batch metadata = inr rows ->
  rows = map (fun msg => toCsvRow metadata (payloadOf JSON_stringify msg)) batch.
Proof.
  revert rows. induction batch as [|m batch IH]; intros rows; simpl.
  - intros H; inversion H; reflexivity.
  - unfold payloadOf. destruct (JSON_stringify m) as [x|p]; [discriminate|].
    destruct (convertToCsvRows JSON_stringify batch metadata) as [x|rs];
      [discriminate|].
    intros H; inversion H; subst. rewrite (IH rs eq_refl). reflexivity.
Qed.

Lemma convertToCsvRows_total batch :
  (forall msg, In msg batch -> exists payload, JSON_stringify msg = inr payload) ->
  exists rows, convertToCsvRows JSON_stringify batch metadata = inr rows.
Proof.
  induction batch as [|m batch IH]; intros H; simpl; [eauto|].
  destruct (H m (or_introl eq_refl)) as (p & ->).
  destruct IH as (rows & ->); [intros x Hx; apply H; right; exact Hx|].
  eauto.
Qed.

Lemma csvContent_lines batch :
  batch <> [] ->
  csvContent
    (map (fun msg => toCsvRow metadata (payloadOf JSON_stringify msg)) batch)
  = csvLines JSON_stringify metadata batch.
Proof.
  unfold csvContent, csvLines, csvLine.
  induction batch as [|m batch IH]; [congruence|]. intros _.
  destruct batch as [|m' batch]; [reflexivity|].
  specialize (IH ltac:(discriminate)).
  set (line := fun msg => rowToCSV (toCsvRow metadata (payloadOf JSON_stringify msg))) in *.
  change (String.append
            (String.append (line m)
               (String.append (str1 newline)
                  (String.concat (str1 newline)
                     (map rowToCSV
                        (map (fun msg => toCsvRow metadata (payloadOf JSON_stringify msg))
                           (m' :: batch))))))
            (str1 newline)
          = String.append (String.append (line m) (str1 newline))
              (String.append ""
                 (String.concat ""
                    (map (fun msg => String.append (line msg) (str1 newline))
                         (m' :: batch))))).
  rewrite !append_assoc. rewrite IH. reflexivity.
Qed.

Lemma slice_batch {A} (i size : nat) (l : list A) :
  slice i (Nat.min (i + size) (List.length l)) l = firstn size (skipn i l).
Proof.
  unfold slice. destruct (Nat.le_gt_cases (i + size) (List.length l)) as [H|H].
  - rewrite Nat.min_l by exact H. f_equal. lia.
  - rewrite Nat.min_r by lia.
    rewrite (firstn_all2 (n := size)) by (rewrite length_skipn; lia).
    apply firstn_all2. rewrite length_skipn. lia.
Qed.

Lemma skipn_batch {A} (i size : nat) (l : list A) :
  skipn i l = firstn size (skipn i l) ++ skipn (i + size) l.
Proof.
  rewrite <- (firstn_skipn size (skipn i l)) at 1. f_equal.
  rewrite skipn_skipn. f_equal. lia.
Qed.

(** What the batch loop writes. *)
Lemma appendLoop_spec msgs :
  forall fuel i disk cnt errs disk' cnt' errs',
    appendLoop JSON_stringify appendFailure fuel i msgs metadata disk cnt errs
    = (disk', cnt', errs') ->
    exists written,
      subsequence written (skipn i msgs)
      /\ fileContent disk'
         = String.append (fileContent disk)
                         (csvLines JSON_stringify metadata written)
      /\ cnt' = cnt + Z.of_nat (List.length written)
      /\ (noFailure JSON_stringify appendFailure msgs ->
          (List.length msgs - i < fuel)%nat ->
          written = skipn i msgs /\ errs' = errs).
Proof.
  induction fuel as [|fuel IH]; intros i disk cnt errs disk' cnt' errs' Hrun.
  - simpl in Hrun. inversion Hrun; subst. exists [].
    split.
    { clear. generalize (skipn i msgs). intros l.
      induction l; constructor; assumption. }
    split; [unfold csvLines; simpl; rewrite append_empty_r; reflexivity|].
    split; [simpl; lia|]. intros _ H. lia.
  - cbn [appendLoop] in Hrun.
    destruct (i <? List.length msgs)%nat eqn:Hi.
    + apply Nat.ltb_lt in Hi.
      rewrite slice_batch in Hrun.
      set (size := Z.to_nat BATCH_INSERT_SIZE) in *.
      assert (Hsize : size = 100%nat) by reflexivity.
      set (batch := firstn size (skipn i msgs)) in *.
      assert (Hne : batch <> []).
      { unfold batch. intros E. apply (f_equal (@List.length _)) in E.
        rewrite length_firstn, length_skipn in E. cbn [List.length] in E. lia. }
      pose proof (skipn_batch i size msgs) as Hsplit. fold batch in Hsplit.
      destruct (convertToCsvRows JSON_stringify batch metadata) as [x|rows] eqn:Hrows.
      * destruct (IH _ _ _ _ _ _ _ Hrun) as (written & Hsub & Hfile & Hcnt & Hall).
        exists written. rewrite Hsplit.
        split; [apply subsequence_app_drop, Hsub|]. split; [exact Hfile|].
        split; [exact Hcnt|]. intros [Hs Hw] _. exfalso.
        destruct (convertToCsvRows_total batch) as (rows & Hr); [|congruence].
        intros m Hm. apply Hs. unfold batch in Hm.
        apply (in_skipn _ i), (in_firstn _ size), Hm.
      * destruct (appendFailure (appendCalls disk)) as [x|] eqn:Hfail.
        -- destruct (IH _ _ _ _ _ _ _ Hrun) as (written & Hsub & Hfile & Hcnt & Hall).
           exists written. rewrite Hsplit.
           split; [apply subsequence_app_drop, Hsub|]. split; [exact Hfile|].
           split; [exact Hcnt|]. intros [Hs Hw] _. rewrite Hw in Hfail. discriminate.
        -- destruct (IH _ _ _ _ _ _ _ Hrun) as (written & Hsub & Hfile & Hcnt & Hall).
           exists (batch ++ written). rewrite Hsplit.
           split; [apply subsequence_app_keep, Hsub|].
           rewrite (convertToCsvRows_ok _ _ Hrows), csvContent_lines in Hfile by exact Hne.
           cbn [fileContent] in Hfile.
           split; [rewrite Hfile, csvLines_app, append_assoc; reflexivity|].
           split; [rewrite Hcnt, length_app; lia|].
           intros Hno Hfuel. destruct (Hall Hno) as [-> ->]; [lia|].
           split; reflexivity.
    + inversion Hrun; subst. apply Nat.ltb_ge in Hi.
      rewrite skipn_all2 by exact Hi. exists []. split; [constructor|].
      split; [unfold csvLines; simpl; rewrite append_empty_r; reflexivity|].
      split; [simpl; lia|]. intros _ _. split; reflexivity.
Qed.

End ArtifactFacts.

(** C10. Order is preserved from the feed to the artifact. The messages of a
    returned ScrapeResult are the per-page filtered batches, concatenated in
    fetch order and cut to the first maxMessages when there is a cap; the
    filter is a plain filter of each page, so it keeps the relative order and
    adds no duplicate; and appendMessages appends the lines of its input in
    the order of the input: the lines of the batches that were written, all
    of them when nothing fails. *)
Theorem order_is_preserved
    (env : Env) (fuel : nat) (server channel : string) (maxMessages : Z)
    (timestampStart timestampEnd : option string) (w : World)
    (res : ScraperResult) (w' : World)
    (JSON_stringify : DiscordMessage -> Thrown + string)
    (appendFailure : nat -> option Thrown)
    (csvFilePath : string) (metadata : ServerMetadata) (disk : Disk)
    (result : AppendResult) (disk' : Disk) :
  scrapeChannel env fuel server channel maxMessages
    timestampStart timestampEnd w = (Some res, w') ->
  appendMessages JSON_stringify appendFailure csvFilePath (messages res)
    metadata disk = (Returned result, disk') ->
  let startDate := parseBound env timestampStart in
  let endDate := parseBound env timestampEnd in
  (exists evs,
      trace w' = trace w ++ evs
      /\ messages res
         = capTo maxMessages
             (List.concat
                (map (fun page => filterByTimestamp env page startDate endDate)
                     (pages evs))))
  /\ (forall page,
         filterByTimestamp env page startDate endDate
         = filter (keeps env startDate endDate) page
         /\ (NoDup page ->
             NoDup (filterByTimestamp env page startDate endDate)))
  /\ (forall kept,
         0 < maxMessages ->
         capTo maxMessages kept = firstn (Z.to_nat maxMessages) kept)
  /\ exists written,
       subsequence written (messages res)
       /\ fileContent disk'
          = String.append (fileContent disk)
                          (csvLines JSON_stringify metadata written)
       /\ appended result = Z.of_nat (List.length written)
       /\ (noFailure JSON_stringify appendFailure (messages res) ->
           written = messages res /\ appendErrors result = []).
Proof.
  intros Hrun Happend startDate endDate.
  destruct (scrapeChannel_result _ _ _ _ _ _ _ _ _ _ Hrun)
    as (evs & Htr & Hmsgs & _).
  split.
  { exists evs. split; [exact Htr|].
    rewrite Hmsgs, filterByTimestamp_concat. reflexivity. }
  split.
  { intros page. rewrite filterByTimestamp_filter.
    split; [reflexivity|apply NoDup_filter]. }
  split.
  { intros kept Hpos. unfold capTo. replace (maxMessages >? 0) with true by lia.
    reflexivity. }
  unfold appendMessages in Happend.
  destruct (String.eqb csvFilePath ""); [discriminate|].
  destruct (appendLoop _ _ _ _ _ _ _ _ _) as [[d cnt] errs] eqn:Hloop.
  inversion Happend; subst result disk'.
  destruct (appendLoop_spec _ _ _ _ _ _ _ _ _ _ _ _ Hloop)
    as (written & Hsub & Hfile & Hcnt & Hall).
  exists written. simpl skipn in Hsub. split; [exact Hsub|].
  split; [exact Hfile|]. split; [simpl; lia|].
  intros Hno. apply Hall; [exact Hno|lia].
Qed.

(** *** The rate window over a whole scrape *)

Lemma scrapeChannel_reachable env fuel server c K ts te w out w' :
  Reachable env w ->
  scrapeChannel env fuel server c K ts te w = (out, w') ->
  Reachable env w'.
Proof.
  intros Hr. unfold scrapeChannel.
  destruct (setupAuthentication env w) as [[[]|x] w1] eqn:Hauth;
    destruct (setupAuthentication_frame env w _ _ Hauth) as (_ & _ & _ & _ & Hr1).
  - destruct (negb (isValid (validation env))).
    + intros H; inversion H; subst. auto.
    + destruct (scrapeLoop env fuel c K (parseBound env ts) (parseBound env te)
                  [] initialPagination w1) as [[[exit acc] ps] w2] eqn:Hloop.
      destruct (scrapeLoop_spec env c K _ _ fuel [] initialPagination w1 _ _ _ _
                  eq_refl (capReached_nil K) Hloop) as (evs & _ & Hr2 & _).
      destruct exit; intros H; inversion H; subst; auto.
  - intros H; inversion H; subst. auto.
Qed.

(** X5. Over a whole scrape, retries and pauses included, no trailing window
    of 1000ms ever holds more than ten recorded requests, provided timers
    never fire early and the clock never goes back. *)
Theorem scrape_respects_rate_limit env fuel server c K ts te start out w' :
  timeFlows env ->
  scrapeChannel env fuel server c K ts te (initialWorld start) = (out, w') ->
  forall t,
    Z.of_nat (windowCount t (admissions (trace w')))
    <= RATE_LIMIT.REQUESTS_PER_SECOND.
Proof.
  intros Hflow Hrun t.
  pose proof (scrapeChannel_reachable _ _ _ _ _ _ _ _ _ _
                (reach_start env start) Hrun) as Hr.
  destruct (reachable_inv env w' Hflow Hr) as [Hinv Hcap].
  rewrite <- Hcap. apply (inv_window w' Hinv).
Qed.

(** Fifteen requests in a burst: the eleventh waits for the window. *)
Example burst_of_fifteen :
  trace (requestBurst Sample.env 15 (initialWorld 0))
  = repeat (EvRequest 0) 10
    ++ [EvSleep RateWindow 1000]
    ++ repeat (EvRequest 1000) 5.
Proof. vm_compute. reflexivity. Qed.

(** *** The sample feed *)

Lemma descending_filter (f : DiscordMessage -> bool) l :
  descending (map id l) -> descending (map id (filter f l)).
Proof.
  unfold descending. induction l as [|m l IH]; simpl; intros H; [constructor|].
  inversion H as [|? ? Hl Hm]; subst. destruct (f m); simpl; [|auto].
  constructor; [auto|].
  rewrite Forall_forall in *. intros x Hx. apply Hm.
  apply in_map_iff in Hx. destruct Hx as (y & <- & Hy).
  apply filter_In in Hy. apply in_map, Hy.
Qed.

Lemma descending_firstn n l :
  descending (map id l) -> descending (map id (firstn n l)).
Proof.
  unfold descending. revert l. induction n as [|n IH]; intros [|m l] H;
    simpl; try constructor.
  - inversion H; subst. auto.
  - inversion H as [|? ? Hl Hm]; subst.
    rewrite Forall_forall in *. intros x Hx. apply Hm.
    apply in_map_iff in Hx. destruct Hx as (y & <- & Hy).
    apply in_map, (in_firstn _ n), Hy.
Qed.

Lemma pageFor_ordered size channel cursor :
  descending (map id channel) ->
  descending (map id (Sample.pageFor size channel cursor))
  /\ belowCursor cursor (map id (Sample.pageFor size channel cursor)).
Proof.
  intros H. unfold Sample.pageFor. split.
  - apply descending_firstn, descending_filter, H.
  - destruct cursor as [c|]; simpl; [|exact I].
    rewrite Forall_forall. intros x Hx.
    apply in_map_iff in Hx. destruct Hx as (y & <- & Hy).
    apply in_firstn, filter_In in Hy. destruct Hy as [_ Hy]. simpl in Hy.
    apply N.ltb_lt in Hy. exact Hy.
Qed.

Lemma history_descending : descending (map id Sample.history).
Proof.
  unfold descending. simpl.
  repeat (constructor; [|repeat (constructor; try reflexivity)]). constructor.
Qed.

Lemma sample_feedOrdered : feedOrdered Sample.env.
Proof.
  intros n b r msgs Hout Hpage. simpl in Hout. unfold Sample.good in Hout.
  inversion Hout; subst r. unfold pageOf in Hpage. simpl in Hpage.
  inversion Hpage; subst msgs. apply pageFor_ordered, history_descending.
Qed.

Lemma sample_timeFlows : timeFlows Sample.env.
Proof. split; intros n; simpl; lia. Qed.

Lemma sample_signedIn : signedIn Sample.env.
Proof. repeat split. exists "token". split; reflexivity. Qed.

Lemma sample_servesPages :
  servesPages Sample.env 0 None
    [[Sample.message 5 "50"; Sample.message 4 "40"];
     [Sample.message 3 "30"; Sample.message 2 "20"];
     [Sample.message 1 "10"]].
Proof.
  split; [repeat constructor; discriminate|].
  intros k. eexists. split; [reflexivity|].
  destruct k as [|[|[|k]]]; try reflexivity.
  destruct k; reflexivity.
Qed.

Lemma cursor_strictly_decreases_witness :
  feedOrdered Sample.env
  /\ exists evs,
       trace (snd sampleLoop) = trace Sample.ready ++ evs
       /\ before (snd (fst sampleLoop))
          = lastIdOf None (List.concat (pages evs))
       /\ (exists rest,
              lastIds (pages evs) = cursors evs ++ rest
              /\ (List.length rest <= 1)%nat)
       /\ descending (cursors evs)
       /\ NoDup (cursors evs)
       /\ descending (map id (List.concat (pages evs)))
       /\ NoDup (map id (List.concat (pages evs))).
Proof.
  assert (Hrun : scrapeLoop Sample.env 10 "channel" 0 None None []
                   initialPagination Sample.ready
                 = (fst (fst (fst sampleLoop)), snd (fst (fst sampleLoop)),
                    snd (fst sampleLoop), snd sampleLoop))
    by (vm_compute; reflexivity).
  split; [exact sample_feedOrdered|].
  exact (cursor_strictly_decreases Sample.env "channel" 0 None None 10
           Sample.ready _ _ _ _ sample_feedOrdered Hrun).
Defined.

Lemma empty_page_ends_run_witness :
  sampleLoop
  = (LoopDone, Sample.history,
     {| before := Some 1%N; hasMore := false; totalFetched := 5;
        lastMessageId := Some 1%N |},
     snd sampleLoop)
  /\ exists evs,
       trace (snd sampleLoop) = trace Sample.ready ++ evs
       /\ (forall tr1 ev tr2,
              evs = tr1 ++ ev :: tr2 -> emptyPage ev = true ->
              tr2 = [] /\ LoopDone = LoopDone /\ false = false)
       /\ exists tr ev, evs = tr ++ [ev] /\ emptyPage ev = true.
Proof.
  assert (Hrun : sampleLoop
                 = (LoopDone, Sample.history,
                    {| before := Some 1%N; hasMore := false; totalFetched := 5;
                       lastMessageId := Some 1%N |},
                    snd sampleLoop))
    by (vm_compute; reflexivity).
  assert (Hrun' : scrapeLoop Sample.env 10 "channel" 0 None None []
                    initialPagination Sample.ready
                  = (LoopDone, Sample.history,
                     {| before := Some 1%N; hasMore := false;
                        totalFetched := 5; lastMessageId := Some 1%N |},
                     snd sampleLoop))
    by (vm_compute; reflexivity).
  split; [exact Hrun|].
  destruct (empty_page_ends_run Sample.env "channel" 0 None None 10
              Sample.ready _ _ _ _ Hrun') as (evs & Htr & Hlast & _ & Hsole).
  exists evs. split; [exact Htr|]. split; [exact Hlast|].
  apply Hsole; reflexivity.
Defined.

Lemma filter_keeps_the_range_only_witness :
  newDate Sample.env (timestamp (Sample.message 3 "30")) = Some 30
  /\ (In (Sample.message 3 "30")
         (filterByTimestamp Sample.env Sample.history
            (bound (Some 20)) (bound (Some 40)))
      <-> In (Sample.message 3 "30") Sample.history
          /\ inRange (Some 20) (Some 40) 30)
  /\ exists evs,
       trace (snd sampleBoundedLoop) = trace Sample.ready ++ evs
       /\ before (snd (fst sampleBoundedLoop))
          = lastIdOf None (List.concat (pages evs))
       /\ totalFetched (snd (fst sampleBoundedLoop))
          = Z.of_nat (List.length (List.concat (pages evs)))
       /\ snd (fst (fst sampleBoundedLoop))
          = capTo 0 (filterByTimestamp Sample.env (List.concat (pages evs))
                       (bound (Some 20)) (bound (Some 40))).
Proof.
  assert (Ht : newDate Sample.env (timestamp (Sample.message 3 "30")) = Some 30)
    by reflexivity.
  assert (Hrun : scrapeLoop Sample.env 10 "channel" 0 (bound (Some 20))
                   (bound (Some 40)) [] initialPagination Sample.ready
                 = (fst (fst (fst sampleBoundedLoop)),
                    snd (fst (fst sampleBoundedLoop)),
                    snd (fst sampleBoundedLoop), snd sampleBoundedLoop))
    by (vm_compute; reflexivity).
  split; [exact Ht|].
  exact (filter_keeps_the_range_only Sample.env (Some 20) (Some 40)
           Sample.history (Sample.message 3 "30") 30 "channel" 0 10
           Sample.ready _ _ _ _ Ht Hrun).
Defined.

Lemma cap_enforced_after_filtering_witness :
  signedIn Sample.env
  /\ servesPages Sample.env 0 None sampleFeed
  /\ (List.length sampleFeed < 10)%nat
  /\ exists res w',
       scrapeChannel Sample.env 10 "server" "channel" 3
         (Some "20") (Some "40") (initialWorld 0) = (Some res, w')
       /\ errors res = []
       /\ messages res
          = [Sample.message 4 "40"; Sample.message 3 "30";
             Sample.message 2 "20"]
       /\ totalScraped res = 3
       /\ (requests w' <= 2)%nat.
Proof.
  assert (Hlen : (List.length sampleFeed < 10)%nat) by (simpl; lia).
  split; [exact sample_signedIn|]. split; [exact sample_servesPages|].
  split; [exact Hlen|].
  destruct (cap_enforced_after_filtering Sample.env sampleFeed 10
              "server" "channel" 3 (Some "20") (Some "40") 0
              sample_signedIn sample_servesPages Hlen)
    as (res & w1 & ps' & w' & Hrun & _ & _ & _ & Herr & Hmsgs & Hcap & _ & Hstop & _).
  exists res, w'. split; [exact Hrun|]. split; [exact Herr|].
  split; [rewrite Hmsgs; reflexivity|].
  split; [destruct Hcap as [_ ->]; [lia|reflexivity]|].
  apply Hstop. split; [lia|]. simpl. lia.
Defined.

Lemma executeWithRetry_follows_policy_witness :
  keepsConfig (fetch Sample.rejectingEnv None)
  /\ defaultConfig (initialWorld 0)
  /\ (forall r w',
         executeWithRetry Sample.rejectingEnv (fetch Sample.rejectingEnv None)
           (initialWorld 0) = (r, w')
         <-> RetryPolicy Sample.rejectingEnv (fetch Sample.rejectingEnv None)
               1 (initialWorld 0) r w')
  /\ backoffDelay (limiter (initialWorld 0)) 1 = 1000
  /\ backoffDelay (limiter (initialWorld 0)) 2 = 2000
  /\ backoffDelay (limiter (initialWorld 0)) 3 = 4000.
Proof.
  assert (Hcfg : defaultConfig (initialWorld 0)) by (split; reflexivity).
  split; [apply fetch_keepsConfig|]. split; [exact Hcfg|].
  exact (executeWithRetry_follows_policy Sample.rejectingEnv
           (fetch Sample.rejectingEnv None) (initialWorld 0)
           (fetch_keepsConfig Sample.rejectingEnv None) Hcfg).
Defined.

Lemma sampleBurst_reachable : Reachable Sample.env sampleBurst.
Proof.
  unfold sampleBurst. cbn [requestBurst].
  repeat apply reach_wait. apply reach_start.
Qed.

Lemma rate_window_never_exceeded_witness :
  timeFlows Sample.env
  /\ Reachable Sample.env sampleBurst
  /\ trace (snd (waitForRateLimit Sample.env sampleBurst))
     = trace sampleBurst ++ [EvSleep RateWindow 1000; EvRequest 1000]
  /\ forall t,
       Z.of_nat
         (windowCount t
            (admissions (trace (snd (waitForRateLimit Sample.env sampleBurst)))))
       <= RATE_LIMIT.REQUESTS_PER_SECOND.
Proof.
  split; [exact sample_timeFlows|]. split; [exact sampleBurst_reachable|].
  destruct (rate_window_never_exceeded Sample.env sampleBurst
              sample_timeFlows sampleBurst_reachable)
    as (_ & _ & _ & _ & _ & Hwin).
  split; [vm_compute; reflexivity|exact Hwin].
Defined.

Lemma sample_aborted :
  aborted Sample.brokenEnv 10 "channel" 0 None None (initialWorld 0).
Proof.
  unfold aborted.
  change (setupAuthentication Sample.brokenEnv (initialWorld 0))
    with (Returned tt, Sample.ready).
  right. do 4 eexists. vm_compute. reflexivity.
Qed.

Lemma partial_results_survive_failure_witness :
  aborted Sample.brokenEnv 10 "channel" 0 None None (initialWorld 0)
  /\ (exists res w' evs,
        scrapeChannel Sample.brokenEnv 10 "server" "channel" 0 None None
          (initialWorld 0) = (Some res, w')
        /\ trace w' = trace (initialWorld 0) ++ evs
        /\ messages res
           = List.concat
               (map (fun page =>
                       filterByTimestamp Sample.brokenEnv page
                         (parseBound Sample.brokenEnv None)
                         (parseBound Sample.brokenEnv None))
                    (pages evs))
        /\ totalScraped res = Z.of_nat (List.length (messages res))
        /\ errors res <> []
        /\ match setupAuthentication Sample.brokenEnv (initialWorld 0) with
           | (Threw e, _) => messages res = [] /\ errors res = [errorMessage e]
           | (Returned _, w1) =>
               if isValid (validation Sample.brokenEnv) then
                 exists e allMessages ps w2,
                   scrapeLoop Sample.brokenEnv 10 "channel" 0
                     (parseBound Sample.brokenEnv None)
                     (parseBound Sample.brokenEnv None)
                     [] initialPagination w1
                   = (LoopThrew e, allMessages, ps, w2)
                   /\ messages res = allMessages
                   /\ errors res = [errorMessage e]
                   /\ w' = w2
                   /\ trace w2 = trace w1 ++ evs
               else
                 messages res = []
                 /\ errors res
                    = validationErrors (validation Sample.brokenEnv)
                      ++ [String.append "Validation failed: "
                            (String.concat "; "
                               (validationErrors
                                  (validation Sample.brokenEnv)))]
           end)
  /\ fst (fst (fst (scrapeLoop Sample.brokenEnv 10 "channel" 0 None None
                      [] initialPagination Sample.ready)))
     = LoopThrew (JsError "fetch failed")
  /\ snd (fst (fst (scrapeLoop Sample.brokenEnv 10 "channel" 0 None None
                      [] initialPagination Sample.ready)))
     = [Sample.message 5 "50"; Sample.message 4 "40"]
  /\ messages
       (resultOf (scrapeChannel Sample.brokenEnv 10 "server" "channel" 0
                    None None (initialWorld 0)))
     = [Sample.message 5 "50"; Sample.message 4 "40"]
  /\ totalScraped
       (resultOf (scrapeChannel Sample.brokenEnv 10 "server" "channel" 0
                    None None (initialWorld 0)))
     = 2
  /\ errors
       (resultOf (scrapeChannel Sample.brokenEnv 10 "server" "channel" 0
                    None None (initialWorld 0)))
     = ["fetch failed"].
Proof.
  split; [exact sample_aborted|].
  split; [exact (partial_results_survive_failure Sample.brokenEnv 10 "server"
                   "channel" 0 None None (initialWorld 0) sample_aborted)|].
  repeat split; vm_compute; reflexivity.
Defined.

Lemma sample_noFailure msgs :
  noFailure Sample.stringify (fun _ => None) msgs.
Proof. split; [intros msg _; eexists; reflexivity|reflexivity]. Qed.

Lemma order_is_preserved_witness :
  sampleScrape = (Some (resultOf sampleScrape), snd sampleScrape)
  /\ messages (resultOf sampleScrape) = Sample.history
  /\ exists result disk',
       appendMessages Sample.stringify (fun _ => None) "out.csv"
         (messages (resultOf sampleScrape)) Sample.metadata Sample.emptyDisk
       = (Returned result, disk')
       /\ fileContent disk'
          = csvLines Sample.stringify Sample.metadata Sample.history
       /\ appended result = 5.
Proof.
  assert (Hrun : sampleScrape = (Some (resultOf sampleScrape), snd sampleScrape))
    by (vm_compute; reflexivity).
  assert (Hrun' : scrapeChannel Sample.env 10 "server" "channel" 0 None None
                    (initialWorld 0)
                  = (Some (resultOf sampleScrape), snd sampleScrape))
    by (vm_compute; reflexivity).
  assert (Hmsgs : messages (resultOf sampleScrape) = Sample.history)
    by (vm_compute; reflexivity).
  split; [exact Hrun|]. split; [exact Hmsgs|].
  destruct (appendMessages Sample.stringify (fun _ => None) "out.csv"
              (messages (resultOf sampleScrape)) Sample.metadata
              Sample.emptyDisk) as [out disk'] eqn:Happend.
  assert (Hout : exists result, out = Returned result).
  { unfold appendMessages in Happend. simpl String.eqb in Happend.
    cbv iota in Happend.
    destruct (appendLoop _ _ _ _ _ _ _ _ _) as [[d n] errs].
    inversion Happend. eauto. }
  destruct Hout as (result & ->).
  destruct (order_is_preserved Sample.env 10 "server" "channel" 0 None None
              (initialWorld 0) _ _ Sample.stringify (fun _ => None) "out.csv"
              Sample.metadata Sample.emptyDisk result disk' Hrun' Happend)
    as (_ & _ & _ & written & _ & Hfile & Hcount & Hall).
  destruct (Hall (sample_noFailure _)) as [Hw _].
  exists result, disk'. split; [reflexivity|].
  rewrite Hw, Hmsgs in Hfile, Hcount.
  split; [exact Hfile|exact Hcount].
Defined.

(** Two rejections that mention 429, then a page: the wrapper backs off for
    1000ms and 2000ms and returns the page. *)
Example retry_then_success :
  let run := executeWithRetry Sample.rejectingEnv
               (fetch Sample.rejectingEnv None) Sample.ready in
  fst run = Returned {| status := 200;
                        json := inr [Sample.message 5 "50";
                                     Sample.message 4 "40"] |}
  /\ sleeps Backoff (trace (snd run)) = [1000; 2000]
  /\ httpCount (trace (snd run)) = 3%nat
  /\ clock (snd run) = 3000.
Proof. vm_compute. repeat split. Qed.

(** Three rejections that mention 429: two backoffs, no third one, and the
    last error is thrown, wrapped in an [Error]. *)
Example retry_gives_up_after_three :
  let run := executeWithRetry Sample.overloadedEnv
               (fetch Sample.overloadedEnv None) Sample.ready in
  fst run = Threw (JsError "429 Too Many Requests")
  /\ sleeps Backoff (trace (snd run)) = [1000; 2000]
  /\ httpCount (trace (snd run)) = 3%nat
  /\ List.length (admissions (trace (snd run))) = 3%nat.
Proof. vm_compute. repeat split. Qed.

(** A rejection that does not mention 429 is thrown at once. *)
Example other_failures_propagate :
  let run := scrapeChannel Sample.brokenEnv 10 "server" "channel" 0 None None
               (initialWorld 0) in
  errors (resultOf run) = ["fetch failed"]
  /\ sleeps Backoff (trace (snd run)) = []
  /\ httpCount (trace (snd run)) = 2%nat.
Proof. vm_compute. repeat split. Qed.

(** C6. The feed answers the first two requests with status 429 and the
    third with a page. fetchMessageBatch does not return the page: fetch
    resolves with the 429 response, so executeWithRetry sees no failure and
    returns it after one exchange, and the status check outside the wrapper
    throws. There is one exchange, no backoff and no elapsed suspension, and
    the scrape ends with that error and no message. When fetch itself rejects
    with an error that mentions 429, the same wrapper does back off for 1000ms
    and 2000ms and the page is returned. *)
Theorem throttled_response_is_not_retried :
  let batch := fetchMessageBatch Sample.throttledEnv "channel"
                 MESSAGE_LIMITS.MAX None Sample.ready in
  let scrape := scrapeChannel Sample.throttledEnv 10 "server" "channel" 0
                  None None (initialWorld 0) in
  let rejected := fetchMessageBatch Sample.rejectingEnv "channel"
                    MESSAGE_LIMITS.MAX None Sample.ready in
  fst batch = Threw (JsError "API returned status 429")
  /\ httpCount (trace (snd batch)) = 1%nat
  /\ sleeps Backoff (trace (snd batch)) = []
  /\ clock (snd batch) = 0
  /\ messages (resultOf scrape) = []
  /\ errors (resultOf scrape) = ["API returned status 429"]
  /\ fst rejected = Returned [Sample.message 5 "50"; Sample.message 4 "40"]
  /\ sleeps Backoff (trace (snd rejected)) = [1000; 2000]
  /\ clock (snd rejected) = 3000.
Proof. vm_compute. repeat split. Qed.

(** *** The backoffs of a retried exchange *)

Lemma seq_shift_map (f : nat -> Z) k :
  map f (seq 0 (S k)) = f O :: map (fun i => f (S i)) (seq 0 k).
Proof. simpl. f_equal. rewrite <- seq_shift, map_map. reflexivity. Qed.

Lemma retryLoop_backoffs env b n :
  forall attempt last w out w',
    defaultConfig w ->
    Z.of_nat n = RATE_LIMIT.MAX_RETRIES - attempt + 1 ->
    retryLoop env (fetch env b) n attempt last w = (out, w') ->
    exists evs,
      Extends w w' evs
      /\ (httpCount evs <= n)%nat
      /\ (0 < n -> 0 < httpCount evs)%nat
      /\ sleeps Backoff evs
         = map (fun i => RATE_LIMIT.RETRY_DELAY_MS
                         * 2 ^ (attempt + Z.of_nat i - 1))
               (seq 0 (httpCount evs - 1)).
Proof.
  induction n as [|n IH]; intros attempt last w out w' Hcfg Hn Hrun.
  - simpl in Hrun. unfold throw in Hrun. inversion Hrun; subst.
    exists []. split; [apply extends_refl|]. simpl. repeat split; auto; lia.
  - destruct (waitForRateLimit_shape env w)
      as (wa & evsa & Hw & Hext & Hreq & _ & _ & Hback & _ & Hcnt).
    rewrite (retryLoop_step env _ n attempt last w wa Hw) in Hrun.
    destruct (fetch_shape env b wa) as (Hfext & Hfreq & Hfout).
    destruct (fetch env b wa) as [o wb] eqn:Hf. simpl in Hfext, Hfreq, Hfout.
    assert (Hextb : Extends w wb (evsa ++ [EvHttp b (httpOutcome env (requests wa) b)]))
      by (eapply extends_trans; eauto).
    assert (Hcfgb : defaultConfig wb).
    { destruct Hcfg as [Hm Hd]. destruct Hextb as [_ _ Hm1 Hd1]. split; congruence. }
    assert (Hc : forall x, httpCount (evsa ++ [EvHttp b x]) = 1%nat)
      by (intros x; rewrite httpCount_app, Hcnt; reflexivity).
    assert (Hs : forall x, sleeps Backoff (evsa ++ [EvHttp b x]) = [])
      by (intros x; rewrite sleeps_app, Hback; reflexivity).
    destruct (httpOutcome env (requests wa) b) as [r|x] eqn:Hout; subst o.
    + inversion Hrun; subst out w'. eexists. split; [exact Hextb|].
      rewrite Hc, Hs. simpl. repeat split; auto; lia.
    + destruct (rateLimitSignal x).
      * destruct Hcfgb as [Hm Hd]. rewrite Hm in Hrun.
        destruct (attempt <? RATE_LIMIT.MAX_RETRIES) eqn:Hlt.
        -- unfold backoffDelay in Hrun. rewrite Hd in Hrun.
           assert (Hn' : Z.of_nat n = RATE_LIMIT.MAX_RETRIES - (attempt + 1) + 1)
             by lia.
           assert (Hcfgc : defaultConfig
                     (snd (delay env Backoff
                             (RATE_LIMIT.RETRY_DELAY_MS * 2 ^ (attempt - 1)) wb)))
             by (split; assumption).
           destruct (IH _ _ _ _ _ Hcfgc Hn' Hrun)
             as (evs & Hext' & Hle & Hpos & Hsl).
           assert (Hk : (0 < httpCount evs)%nat) by (apply Hpos; lia).
           exists ((evsa ++ [EvHttp b (Rejected x)])
                   ++ [EvSleep Backoff (RATE_LIMIT.RETRY_DELAY_MS * 2 ^ (attempt - 1))]
                   ++ evs).
           split.
           { eapply extends_trans; [exact Hextb|].
             eapply extends_trans; [apply delay_extends|exact Hext']. }
           rewrite !httpCount_app, !sleeps_app, Hcnt, Hback, Hsl.
           cbn [httpCount sleeps app Nat.add].
           split; [lia|]. split; [lia|].
           replace (S (httpCount evs) - 1)%nat with (S (httpCount evs - 1)) by lia.
           rewrite seq_shift_map. f_equal.
           ++ f_equal. f_equal. lia.
           ++ apply map_ext. intros i. f_equal. f_equal. lia.
        -- destruct n; [|lia].
           simpl in Hrun. unfold throw in Hrun. inversion Hrun; subst out w'.
           eexists. split; [exact Hextb|].
           rewrite Hc, Hs. simpl. repeat split; auto; lia.
      * inversion Hrun; subst out w'. eexists. split; [exact Hextb|].
        rewrite Hc, Hs. simpl. repeat split; auto; lia.
Qed.

(** X4. Around [fetch] the wrapper makes one to three exchanges, and
    between them it backs off for 1000ms and then for 2000ms, never
    longer. *)
Theorem backoffs_are_one_then_two_seconds env b w out w' :
  defaultConfig w ->
  executeWithRetry env (fetch env b) w = (out, w') ->
  exists evs,
    trace w' = trace w ++ evs
    /\ (1 <= httpCount evs <= 3)%nat
    /\ sleeps Backoff evs = firstn (httpCount evs - 1) [1000; 2000].
Proof.
  intros Hcfg Hrun. unfold executeWithRetry, bind, getWorld in Hrun.
  destruct Hcfg as [Hm Hd]. rewrite Hm in Hrun.
  assert (Hn : Z.of_nat (Z.to_nat RATE_LIMIT.MAX_RETRIES)
               = RATE_LIMIT.MAX_RETRIES - 1 + 1) by reflexivity.
  destruct (retryLoop_backoffs env b _ _ _ _ _ _ (conj Hm Hd) Hn Hrun)
    as (evs & [Htr _ _ _] & Hle & Hpos & Hsl).
  exists evs. split; [exact Htr|].
  change (Z.to_nat RATE_LIMIT.MAX_RETRIES) with 3%nat in Hle, Hpos.
  specialize (Hpos ltac:(lia)). split; [lia|].
  rewrite Hsl.
  destruct (httpCount evs) as [|[|[|[|k]]]]; try lia; reflexivity.
Qed.

(* ------------------------------------------------------------------ *)
(** ** The rate limiter: status and size of the window *)

Lemma filter_none {A} (f : A -> bool) (l : list A) :
  (forall x, In x l -> f x = false) -> filter f l = [].
Proof.
  induction l as [|a l IH]; intros H; [reflexivity|].
  simpl. rewrite (H a) by (left; reflexivity).
  apply IH. intros x Hx. apply H. right. exact Hx.
Qed.

Lemma getStatus_unfold w :
  getStatus w
  = (Returned {| requestsInLastSecond := Z.of_nat (List.length (pruned w));
                 availableRequests :=
                   Z.max 0 (requestsPerSecond (limiter w)
                            - Z.of_nat (List.length (pruned w))) |}, w).
Proof. reflexivity. Qed.

Lemma rateInv_window_now w :
  RateInv w ->
  windowCount (clock w) (admissions (trace w)) = List.length (pruned w).
Proof.
  intros [Hpast Hrec _ _].
  specialize (Hrec (clock w - 1000) ltac:(lia)).
  unfold pruned. fold (newer (clock w - 1000) (requestTimes (limiter w))).
  rewrite <- Hrec. unfold windowCount, newer. f_equal. apply filter_ext_in.
  intros x Hx. rewrite Forall_forall in Hpast. specialize (Hpast x Hx).
  simpl in Hpast. lia.
Qed.

(** X1. In every world a run can reach (timers never firing early, the
    clock never going back), getStatus changes nothing and reports the true number of requests recorded in the last 1000ms (counted
    in the log of all admissions, not only in what the window still stores);
    that number is at most 10 and availableRequests is 10 minus it. *)
Theorem getStatus_reports_the_window (env : Env) (w : World) :
  timeFlows env -> Reachable env w ->
  exists st,
    getStatus w = (Returned st, w)
    /\ requestsInLastSecond st
       = Z.of_nat (windowCount (clock w) (admissions (trace w)))
    /\ 0 <= requestsInLastSecond st <= RATE_LIMIT.REQUESTS_PER_SECOND
    /\ availableRequests st
       = RATE_LIMIT.REQUESTS_PER_SECOND - requestsInLastSecond st.
Proof.
  intros Hflow Hreach.
  destruct (reachable_inv env w Hflow Hreach) as [Hinv Hcap].
  pose proof (rateInv_cap_bound w Hinv) as Hb.
  rewrite getStatus_unfold. eexists. split; [reflexivity|].
  cbn [requestsInLastSecond availableRequests].
  rewrite (rateInv_window_now w Hinv). rewrite Hcap in *.
  split; [reflexivity|]. split; lia.
Qed.

Lemma getStatus_reports_the_window_witness :
  exists st,
    getStatus sampleBurst = (Returned st, sampleBurst)
    /\ requestsInLastSecond st
       = Z.of_nat (windowCount (clock sampleBurst)
                     (admissions (trace sampleBurst)))
    /\ 0 <= requestsInLastSecond st <= RATE_LIMIT.REQUESTS_PER_SECOND
    /\ availableRequests st
       = RATE_LIMIT.REQUESTS_PER_SECOND - requestsInLastSecond st.
Proof.
  exact (getStatus_reports_the_window Sample.env sampleBurst
           sample_timeFlows sampleBurst_reachable).
Defined.

(** X2. getStatus predicts the next admission: in a world a run can reach
    (timers never firing early, the clock never going back), the next
    waitForRateLimit returns at once (no sleep, the clock does not move)
    exactly when availableRequests is positive; when it is 0 the call sleeps
    once, for a positive time of at most 1000ms. *)
Theorem getStatus_predicts_the_wait (env : Env) (w : World) (st : RateStatus) :
  timeFlows env -> Reachable env w ->
  getStatus w = (Returned st, w) ->
  let w' := snd (waitForRateLimit env w) in
  (0 < availableRequests st ->
   trace w' = trace w ++ [EvRequest (clock w)] /\ clock w' = clock w)
  /\ (availableRequests st = 0 ->
      exists ms, 0 < ms <= 1000
        /\ trace w' = trace w ++ [EvSleep RateWindow ms; EvRequest (clock w')]
        /\ clock w' = clock w + ms + timerLag env (timers w)).
Proof.
  intros Hflow Hreach Hst. cbv zeta.
  destruct (reachable_inv env w Hflow Hreach) as [Hinv Hcap].
  pose proof (rateInv_cap_bound w Hinv) as Hb.
  rewrite getStatus_unfold in Hst. injection Hst as <-.
  cbn [availableRequests]. rewrite Hcap in *.
  unfold RATE_LIMIT.REQUESTS_PER_SECOND in *.
  split.
  - intros Hpos.
    rewrite (waitForRateLimit_free env w) by (rewrite Hcap; unfold RATE_LIMIT.REQUESTS_PER_SECOND; lia).
    simpl. split; reflexivity.
  - intros Hzero.
    destruct (pruned w) as [|oldest rest] eqn:E; [simpl in Hzero; lia|].
    assert (Hy : clock w - 1000 < oldest)
      by (apply pruned_young; rewrite E; left; reflexivity).
    assert (Hold : oldest <= clock w).
    { assert (Hin : In oldest (requestTimes (limiter w))).
      { assert (Hp : In oldest (pruned w)) by (rewrite E; left; reflexivity).
        unfold pruned in Hp. apply filter_In in Hp. tauto. }
      destruct Hinv as [Hpast Hrec _ _].
      specialize (Hrec (clock w) ltac:(lia)).
      assert (Hn : newer (clock w) (admissions (trace w)) = 0%nat).
      { unfold newer. apply length_zero_iff_nil.
        apply filter_none. intros x Hx. rewrite Forall_forall in Hpast.
        specialize (Hpast x Hx). simpl in Hpast. lia. }
      rewrite Hn in Hrec.
      destruct (Z_le_gt_dec oldest (clock w)) as [Hle|Hgt]; [exact Hle|].
      exfalso.
      assert (Hf : In oldest (filter (fun x => x >? clock w)
                                (requestTimes (limiter w))))
        by (apply filter_In; split; [exact Hin|lia]).
      unfold newer in Hrec.
      destruct (filter (fun x => x >? clock w) (requestTimes (limiter w)));
        [contradiction|discriminate]. }
    rewrite (waitForRateLimit_full env w oldest rest)
      by (rewrite ?E, ?Hcap; unfold RATE_LIMIT.REQUESTS_PER_SECOND; simpl List.length in *; auto; lia).
    exists (oldest + 1000 - clock w). simpl. split; [lia|]. split; [reflexivity|lia].
Qed.

Lemma getStatus_predicts_the_wait_witness :
  (0 < 0 ->
   trace (snd (waitForRateLimit Sample.env sampleBurst))
   = trace sampleBurst ++ [EvRequest (clock sampleBurst)]
   /\ clock (snd (waitForRateLimit Sample.env sampleBurst)) = clock sampleBurst)
  /\ (0 = 0 ->
      exists ms, 0 < ms <= 1000
        /\ trace (snd (waitForRateLimit Sample.env sampleBurst))
           = trace sampleBurst
             ++ [EvSleep RateWindow ms;
                 EvRequest (clock (snd (waitForRateLimit Sample.env sampleBurst)))]
        /\ clock (snd (waitForRateLimit Sample.env sampleBurst))
           = clock sampleBurst + ms + timerLag Sample.env (timers sampleBurst)).
Proof.
  assert (Hst : getStatus sampleBurst
                = (Returned {| requestsInLastSecond := 10;
                               availableRequests := 0 |}, sampleBurst))
    by (vm_compute; reflexivity).
  exact (getStatus_predicts_the_wait Sample.env sampleBurst _
           sample_timeFlows sampleBurst_reachable Hst).
Defined.

Lemma waitForRateLimit_times env w :
  exists c,
    requestTimes (limiter (snd (waitForRateLimit env w))) = pruned w ++ [c].
Proof.
  destruct (Z_lt_le_dec (Z.of_nat (List.length (pruned w)))
                        (requestsPerSecond (limiter w))) as [Hfree|Hfull].
  - rewrite (waitForRateLimit_free env w Hfree). eexists. reflexivity.
  - destruct (pruned w) as [|oldest rest] eqn:E.
    + unfold waitForRateLimit, bind, dateNow, getWorld, setRequestTimes, log, ret.
      cbn [limiter requestTimes requestsPerSecond fst snd clock trace timers
           requests token maxRetries retryDelay].
      fold (pruned w). rewrite E.
      destruct (_ >=? _); eexists; reflexivity.
    + rewrite (waitForRateLimit_full env w oldest rest) by (rewrite ?E; auto).
      cbn [snd withAdmission limiter requestTimes]. rewrite E.
      eexists. reflexivity.
Qed.

(** X3. The rate window stays small: in every world a run can reach
    (timers never firing early, the clock never going back) it is sorted and stores at most requestsPerSecond + 1 = 11 timestamps, however
    many requests the run has made. *)
Theorem rate_window_stays_small (env : Env) (w : World) :
  timeFlows env -> Reachable env w ->
  StronglySorted Z.le (requestTimes (limiter w))
  /\ Z.of_nat (List.length (requestTimes (limiter w)))
     <= RATE_LIMIT.REQUESTS_PER_SECOND + 1.
Proof.
  intros Hflow Hreach.
  split; [apply (reachable_inv env w Hflow Hreach)|].
  induction Hreach as [s|w Hr IH|w why ms Hr IH|w b Hr IH|w t Hr IH|w b Hr IH].
  - intros H; discriminate H.
  - destruct (reachable_inv env w Hflow Hr) as [Hinv Hcap].
    pose proof (rateInv_cap_bound w Hinv) as Hb.
    destruct (waitForRateLimit_times env w) as [c ->].
    rewrite length_app, Nat2Z.inj_add. cbn [List.length].
    rewrite <- Hcap. lia.
  - exact IH.
  - unfold fetch. destruct (httpOutcome env (requests w) b); exact IH.
  - exact IH.
  - exact IH.
Qed.

Lemma rate_window_stays_small_witness :
  StronglySorted Z.le (requestTimes (limiter sampleBurst))
  /\ Z.of_nat (List.length (requestTimes (limiter sampleBurst)))
     <= RATE_LIMIT.REQUESTS_PER_SECOND + 1.
Proof.
  exact (rate_window_stays_small Sample.env sampleBurst sample_timeFlows
           sampleBurst_reachable).
Defined.

(* ------------------------------------------------------------------ *)
(** ** The scraper: more on fetchMessageBatch and scrapeChannel *)

(** X6. A success response whose body cannot be parsed makes
    fetchMessageBatch throw the parse error after that single exchange and
    without any backoff, even when the text of the error mentions 429:
    response.json() runs outside executeWithRetry. *)
Theorem unparsable_body_is_not_retried
    (env : Env) (channel : string) (limit : Z) (before : option Id)
    (w : World) (r : Response) (e : Thrown) :
  String.eqb (token w) "" = false ->
  0 < maxRetries (limiter w) ->
  httpOutcome env (requests w) before = Responded r ->
  ok r = true ->
  json r = inl e ->
  exists w1 evs,
    fetchMessageBatch env channel limit before w = (Threw e, w1)
    /\ trace w1 = trace w ++ evs
    /\ httpCount evs = 1%nat
    /\ sleeps Backoff evs = []
    /\ requests w1 = S (requests w).
Proof.
  intros Htok Hmax Hout Hok Hjson.
  rewrite fetchMessageBatch_unfold, Htok.
  destruct (executeWithRetry_response env before
              (snd (log (EvBatch before) w)) r Hmax Hout)
    as (w1 & evs & Hrun & [Ht _ _ _] & Hreq & Hback & Hcnt).
  rewrite Hrun, Hok. simpl. rewrite Hjson.
  exists w1, (EvBatch before :: evs). split; [reflexivity|].
  split; [rewrite Ht; simpl; rewrite <- app_assoc; reflexivity|].
  simpl. auto.
Qed.

Lemma unparsable_body_is_not_retried_witness :
  exists w1 evs,
    fetchMessageBatch garbledEnv "channel" 100 None Sample.ready
    = (Threw (JsError "Unexpected token < in JSON at position 429"), w1)
    /\ trace w1 = trace Sample.ready ++ evs
    /\ httpCount evs = 1%nat
    /\ sleeps Backoff evs = []
    /\ requests w1 = S (requests Sample.ready).
Proof.
  assert (Htok : String.eqb (token Sample.ready) "" = false) by reflexivity.
  assert (Hmax : 0 < maxRetries (limiter Sample.ready)) by reflexivity.
  exact (unparsable_body_is_not_retried garbledEnv "channel" 100 None
           Sample.ready _ _ Htok Hmax eq_refl eq_refl eq_refl).
Defined.

(** X7. Whatever the feed does, a result of scrapeChannel echoes the server
    and channel ids, counts in totalScraped exactly the messages it returns,
    has appended nothing and warns of nothing, measures its duration on the
    clock, and with a positive cap never returns more messages than the
    cap. *)
Theorem scrapeChannel_totals
    (env : Env) (fuel : nat) (server channel : string) (maxMessages : Z)
    (timestampStart timestampEnd : option string) (w : World)
    (res : ScraperResult) (w' : World) :
  scrapeChannel env fuel server channel maxMessages
    timestampStart timestampEnd w = (Some res, w') ->
  res_serverId res = server
  /\ res_channelId res = channel
  /\ totalScraped res = Z.of_nat (List.length (messages res))
  /\ totalAppended res = 0
  /\ warnings res = []
  /\ duration res = clock w' - clock w
  /\ (0 < maxMessages -> totalScraped res <= maxMessages).
Proof.
  intros Hrun.
  destruct (scrapeChannel_result _ _ _ _ _ _ _ _ _ _ Hrun)
    as (evs & _ & Hmsgs & Htot & _).
  assert (Hcap : 0 < maxMessages -> totalScraped res <= maxMessages).
  { intros HK. rewrite Htot, Hmsgs. unfold capTo.
    replace (maxMessages >? 0) with true by lia.
    rewrite length_firstn. lia. }
  revert Hrun. unfold scrapeChannel.
  destruct (setupAuthentication env w) as [[[]|x] w1].
  - destruct (negb (isValid (validation env))).
    + intros H; inversion H; subst; cbn in *. repeat split; auto.
    + destruct (scrapeLoop env fuel channel maxMessages
                  (parseBound env timestampStart) (parseBound env timestampEnd)
                  [] initialPagination w1) as [[[exit acc] ps] w2].
      destruct exit; intros H; inversion H; subst; cbn in *;
        repeat split; auto.
  - intros H; inversion H; subst; cbn in *. repeat split; auto.
Qed.

Lemma scrapeChannel_totals_witness :
  let run :=
    scrapeChannel Sample.env 10 "server" "channel" 3 None None
      (initialWorld 0) in
  res_serverId (resultOf run) = "server"
  /\ res_channelId (resultOf run) = "channel"
  /\ totalScraped (resultOf run)
     = Z.of_nat (List.length (messages (resultOf run)))
  /\ totalAppended (resultOf run) = 0
  /\ warnings (resultOf run) = []
  /\ duration (resultOf run) = clock (snd run) - clock (initialWorld 0)
  /\ (0 < 3 -> totalScraped (resultOf run) <= 3).
Proof.
  cbv zeta.
  assert (Hrun : scrapeChannel Sample.env 10 "server" "channel" 3 None None
                   (initialWorld 0)
                 = (Some (resultOf
                            (scrapeChannel Sample.env 10 "server" "channel" 3
                               None None (initialWorld 0))),
                    snd (scrapeChannel Sample.env 10 "server" "channel" 3
                           None None (initialWorld 0))))
    by (vm_compute; reflexivity).
  exact (scrapeChannel_totals Sample.env 10 "server" "channel" 3 None None
           (initialWorld 0) _ _ Hrun).
Defined.

(** X8. A failed sign-in skips the fetch loop: when setupAuthentication
    throws or fullValidation fails, scrapeChannel returns no message and
    totalScraped 0. The error list is the thrown message alone, or the errors
    of the validator followed by one line that joins them after
    Validation failed. The rate limiter is not touched: it admits no request
    and keeps its window, fetchMessageBatch is not called and no delay is
    slept. (The requests of the session manager and of the validator
    themselves do not pass through the rate limiter and are not counted
    here.) *)
Theorem failed_sign_in_skips_the_fetch_loop
    (env : Env) (fuel : nat) (server channel : string) (maxMessages : Z)
    (timestampStart timestampEnd : option string) (w : World) :
  (exists e, fst (setupAuthentication env w) = Threw e)
  \/ isValid (validation env) = false ->
  exists res w',
    scrapeChannel env fuel server channel maxMessages
      timestampStart timestampEnd w = (Some res, w')
    /\ messages res = []
    /\ totalScraped res = 0
    /\ errors res
       = match fst (setupAuthentication env w) with
         | Threw e => [errorMessage e]
         | Returned _ =>
             validationErrors (validation env)
             ++ [String.append "Validation failed: "
                   (String.concat "; " (validationErrors (validation env)))]
         end
    /\ errors res <> []
    /\ limiter w' = limiter w
    /\ admissions (trace w') = admissions (trace w)
    /\ cursors (trace w') = cursors (trace w)
    /\ forall why, sleeps why (trace w') = sleeps why (trace w).
Proof.
  intros H. unfold scrapeChannel.
  destruct (setupAuthentication env w) as [[[]|x] w1] eqn:Hauth;
    destruct (setupAuthentication_frame env w _ _ Hauth)
      as (Ht & Hl & Hr & Hc & _); cbn [fst].
  - destruct H as [[e He]|Hv]; [discriminate He|]. rewrite Hv. simpl.
    do 2 eexists. split; [reflexivity|].
    cbn [messages errors totalScraped List.length].
    split; [reflexivity|]. split; [reflexivity|]. split; [reflexivity|].
    split; [destruct (validationErrors (validation env)); discriminate|].
    rewrite Ht. repeat split; auto.
  - do 2 eexists. split; [reflexivity|].
    cbn [messages errors totalScraped List.length].
    split; [reflexivity|]. split; [reflexivity|]. split; [reflexivity|].
    split; [discriminate|]. rewrite Ht. repeat split; auto.
Qed.

Lemma failed_sign_in_skips_the_fetch_loop_witness :
  (exists res w',
     scrapeChannel lockedOutEnv 10 "server" "channel" 0 None None
       (initialWorld 0) = (Some res, w')
     /\ messages res = []
     /\ totalScraped res = 0
     /\ errors res
        = match fst (setupAuthentication lockedOutEnv (initialWorld 0)) with
          | Threw e => [errorMessage e]
          | Returned _ =>
              validationErrors (validation lockedOutEnv)
              ++ [String.append "Validation failed: "
                    (String.concat "; "
                       (validationErrors (validation lockedOutEnv)))]
          end
     /\ errors res <> []
     /\ limiter w' = limiter (initialWorld 0)
     /\ admissions (trace w') = admissions (trace (initialWorld 0))
     /\ cursors (trace w') = cursors (trace (initialWorld 0))
     /\ forall why, sleeps why (trace w') = sleeps why (trace (initialWorld 0)))
  /\ errors
       (resultOf (scrapeChannel lockedOutEnv 10 "server" "channel" 0 None None
                    (initialWorld 0)))
     = ["Channel access validation failed: No permission to access this channel";
        "Validation failed: Channel access validation failed: No permission to access this channel"].
Proof.
  assert (H : (exists e, fst (setupAuthentication lockedOutEnv (initialWorld 0))
                         = Threw e)
              \/ isValid (validation lockedOutEnv) = false)
    by (right; reflexivity).
  split; [|vm_compute; reflexivity].
  exact (failed_sign_in_skips_the_fetch_loop lockedOutEnv 10 "server"
           "channel" 0 None None (initialWorld 0) H).
Defined.

(** A whole scrape on the sample feed stays within the rate limit. *)
Lemma scrape_respects_rate_limit_witness :
  timeFlows Sample.env
  /\ forall t,
       Z.of_nat (windowCount t (admissions (trace (snd sampleScrape))))
       <= RATE_LIMIT.REQUESTS_PER_SECOND.
Proof.
  assert (Hrun : scrapeChannel Sample.env 10 "server" "channel" 0 None None
                   (initialWorld 0)
                 = (fst sampleScrape, snd sampleScrape))
    by (vm_compute; reflexivity).
  split; [exact sample_timeFlows|].
  exact (scrape_respects_rate_limit Sample.env 10 "server" "channel" 0
           None None 0 _ _ sample_timeFlows Hrun).
Defined.

(** Three rejected exchanges: backoffs of 1000ms and 2000ms, and no third
    one. *)
Lemma backoffs_are_one_then_two_seconds_witness :
  defaultConfig (initialWorld 0)
  /\ exists evs,
       trace (snd (executeWithRetry Sample.overloadedEnv
                     (fetch Sample.overloadedEnv None) (initialWorld 0)))
       = trace (initialWorld 0) ++ evs
       /\ (1 <= httpCount evs <= 3)%nat
       /\ sleeps Backoff evs = firstn (httpCount evs - 1) [1000; 2000].
Proof.
  assert (Hcfg : defaultConfig (initialWorld 0)) by (split; reflexivity).
  assert (Hrun : executeWithRetry Sample.overloadedEnv
                   (fetch Sample.overloadedEnv None) (initialWorld 0)
                 = (fst (executeWithRetry Sample.overloadedEnv
                           (fetch Sample.overloadedEnv None) (initialWorld 0)),
                    snd (executeWithRetry Sample.overloadedEnv
                           (fetch Sample.overloadedEnv None) (initialWorld 0))))
    by (vm_compute; reflexivity).
  split; [exact Hcfg|].
  exact (backoffs_are_one_then_two_seconds Sample.overloadedEnv None
           (initialWorld 0) _ _ Hcfg Hrun).
Defined.

(* ------------------------------------------------------------------ *)
(** ** Strings: trim and split *)

Lemma chars_append a b : chars (String.append a b) = chars a ++ chars b.
Proof.
  unfold chars. induction a as [|c a IH]; simpl; [reflexivity|].
  rewrite IH. reflexivity.
Qed.

Lemma chars_reverse s : chars (reverse s) = rev (chars s).
Proof. unfold chars, reverse. apply list_ascii_of_string_of_list_ascii. Qed.

Lemma chars_nil s : chars s = [] -> s = EmptyString.
Proof. destruct s; [reflexivity|discriminate]. Qed.

Lemma trimStart_blank s :
  trimStart s = EmptyString <-> forallb isWhiteSpace (chars s) = true.
Proof.
  induction s as [|c s IH]; simpl; [tauto|].
  destruct (isWhiteSpace c); simpl; [exact IH|].
  split; discriminate.
Qed.

Lemma trimStart_head s c rest :
  trimStart s = String c rest ->
  isWhiteSpace c = false /\ In c (chars s).
Proof.
  induction s as [|a s IH]; simpl; [discriminate|].
  destruct (isWhiteSpace a) eqn:E.
  - intros H. destruct (IH H). auto.
  - intros H. inversion H; subst. auto.
Qed.

Lemma forallb_rev {A} (f : A -> bool) l :
  forallb f (rev l) = true <-> forallb f l = true.
Proof.
  rewrite !forallb_forall. split; intros H x Hx; apply H.
  - apply (proj1 (in_rev l x)). exact Hx.
  - apply (proj2 (in_rev l x)). exact Hx.
Qed.

Lemma trim_blank s :
  trim s = EmptyString <-> forallb isWhiteSpace (chars s) = true.
Proof.
  unfold trim, trimEnd. split.
  - intros H.
    assert (H1 : trimStart (reverse (trimStart s)) = EmptyString).
    { apply chars_nil. apply (f_equal chars) in H.
      rewrite chars_reverse in H. simpl in H.
      destruct (chars (trimStart (reverse (trimStart s)))) as [|x l];
        [reflexivity|].
      simpl in H. destruct (rev l); discriminate. }
    apply trimStart_blank in H1. rewrite chars_reverse, forallb_rev in H1.
    destruct (trimStart s) as [|c rest] eqn:E.
    + apply trimStart_blank. exact E.
    + destruct (trimStart_head s c rest E) as [Hc _].
      simpl in H1. rewrite Hc in H1. discriminate.
  - intros H. apply trimStart_blank in H. rewrite H. reflexivity.
Qed.

Lemma not_blank line c :
  In c (chars line) -> isWhiteSpace c = false ->
  negb (String.eqb (trim line) "") = true.
Proof.
  intros Hin Hc. apply negb_true_iff. apply String.eqb_neq. intros H.
  apply trim_blank in H. rewrite forallb_forall in H.
  rewrite (H c Hin) in Hc. discriminate.
Qed.

Lemma splitLines_line a rest :
  oneLine a ->
  splitLines (String.append a (String newline rest)) = a :: splitLines rest.
Proof.
  unfold oneLine. induction a as [|c a IH]; intros H.
  - simpl. reflexivity.
  - simpl in H. cbn [String.append splitLines].
    destruct (Ascii.eqb c newline) eqn:E.
    + apply Ascii.eqb_eq in E. subst. exfalso. apply H. left. reflexivity.
    + rewrite IH by (intros Hx; apply H; right; exact Hx). reflexivity.
Qed.

(* ------------------------------------------------------------------ *)
(** ** The artifact: initializeCSV and getCSVStats *)

Lemma fileText_withFile p text fs : fileText p (withFile p text fs) = Some text.
Proof. unfold fileText, withFile. simpl. rewrite String.eqb_refl. reflexivity. Qed.

Lemma fileText_withFile_other p q text fs :
  q <> p -> fileText q (withFile p text fs) = fileText q fs.
Proof.
  intros H. unfold fileText, withFile. simpl.
  destruct (String.eqb p q) eqn:E; [|reflexivity].
  apply String.eqb_eq in E. congruence.
Qed.

Lemma existsSync_withFile p text fs : existsSync p (withFile p text fs) = true.
Proof. unfold existsSync. rewrite fileText_withFile. apply orb_true_r. Qed.

Lemma existsSync_mkdir dir fs :
  existsSync dir {| directories := dir :: directories fs; files := files fs |}
  = true.
Proof. unfold existsSync. simpl. rewrite String.eqb_refl. reflexivity. Qed.

Lemma existsSync_mkdir_more p dir fs :
  existsSync p fs = true ->
  existsSync p {| directories := dir :: directories fs; files := files fs |}
  = true.
Proof.
  unfold existsSync, fileText. simpl. intros H.
  destruct (String.eqb p dir); [reflexivity|exact H].
Qed.

Lemma existsSync_withFile_more q p text fs :
  existsSync q fs = true -> existsSync q (withFile p text fs) = true.
Proof.
  unfold existsSync, fileText, withFile. simpl. intros H.
  destruct (String.eqb p q); [apply orb_true_r|exact H].
Qed.

Lemma statSize_existing io p fs :
  io (StatFile p) = None -> existsSync p fs = true ->
  exists n, statSize io p fs = inr n.
Proof.
  intros Hio H. unfold statSize. rewrite Hio. unfold existsSync in H.
  destruct (fileText p fs); [eauto|].
  rewrite orb_false_r in H. rewrite H. eauto.
Qed.

(** What a call of initializeCSV that returns has done. *)
Lemma initializeCSV_returned join io dir ch p0 fs p p1 fs1 :
  initializeCSV join io dir ch p0 fs = (Returned p, p1, fs1) ->
  p = join dir (csvFileName ch) /\ p1 = p
  /\ existsSync dir fs1 = true
  /\ exists fs0,
       (fs0 = fs
        \/ fs0 = {| directories := dir :: directories fs; files := files fs |})
       /\ ((existsSync p fs0 = true /\ fs1 = fs0)
           \/ (existsSync p fs0 = false
               /\ fs1 = withFile p (String.append headerLine (str1 newline))
                          fs0)).
Proof.
  unfold initializeCSV.
  destruct (existsSync dir fs) eqn:Hdir; cbn [negb].
  - destruct (existsSync (join dir (csvFileName ch)) fs) eqn:Hp; cbn [negb].
    + destruct (statSize io _ fs); intros H; inversion H; subst.
      repeat split; auto. eexists. split; [left; reflexivity|].
      left. auto.
    + unfold writeFileSync. destruct (io (WriteFile _));
        intros H; inversion H; subst.
      repeat split; auto.
      * apply existsSync_withFile_more. exact Hdir.
      * eexists. split; [left; reflexivity|]. right. auto.
  - unfold mkdirSync. destruct (io (Mkdir dir)); [intros H; inversion H|].
    set (fs0 := {| directories := dir :: directories fs; files := files fs |}).
    destruct (existsSync (join dir (csvFileName ch)) fs0) eqn:Hp; cbn [negb].
    + destruct (statSize io _ fs0); intros H; inversion H; subst.
      repeat split; auto; [apply existsSync_mkdir|].
      exists fs0. split; [right; reflexivity|]. left. auto.
    + unfold writeFileSync. destruct (io (WriteFile _));
        intros H; inversion H; subst.
      repeat split; auto.
      * apply existsSync_withFile_more, existsSync_mkdir.
      * exists fs0. split; [right; reflexivity|]. right. auto.
Qed.

(** X11. initializeCSV never rewrites an artifact: a call that returns gives
    the path of the artifact, which then exists; an artifact that was there
    before the call keeps its text, rows included; and a second call returns
    the same path and leaves the text of the artifact as the first call left
    it. (The statement is about the artifact; the lines the logger writes to
    its own file are not part of it.) *)
Theorem initializeCSV_keeps_the_artifact
    (path_join : string -> string -> string)
    (ioFailure : FsCall -> option Thrown)
    (outputDir channelId csvFilePath : string) (fs : FileSystem)
    (p p1 : string) (fs1 : FileSystem) :
  initializeCSV path_join ioFailure outputDir channelId csvFilePath fs
  = (Returned p, p1, fs1) ->
  ioFailure (StatFile p) = None ->
  p = path_join outputDir (csvFileName channelId)
  /\ p1 = p
  /\ existsSync p fs1 = true
  /\ (forall text, fileText p fs = Some text -> fileText p fs1 = Some text)
  /\ exists fs2,
       initializeCSV path_join ioFailure outputDir channelId p1 fs1
       = (Returned p, p, fs2)
       /\ fileText p fs2 = fileText p fs1.
Proof.
  intros Hrun Hio.
  destruct (initializeCSV_returned _ _ _ _ _ _ _ _ _ Hrun)
    as (Hp & Hp1 & Hdir & fs0 & Hfs0 & Hcase).
  assert (Hex : existsSync p fs1 = true).
  { destruct Hcase as [[H ->]|[_ ->]]; [exact H|apply existsSync_withFile]. }
  assert (H0 : fileText p fs0 = fileText p fs)
    by (destruct Hfs0 as [->| ->]; reflexivity).
  split; [exact Hp|]. split; [exact Hp1|]. split; [exact Hex|].
  split.
  - intros text Htext.
    assert (Hbefore : existsSync p fs0 = true).
    { unfold existsSync. rewrite H0, Htext. apply orb_true_r. }
    destruct Hcase as [[_ ->]|[H _]]; [|congruence].
    rewrite H0. exact Htext.
  - exists fs1. split; [|reflexivity].
    unfold initializeCSV. rewrite Hdir. cbn [negb]. rewrite <- Hp, Hex.
    cbn [negb].
    destruct (statSize_existing ioFailure p fs1 Hio Hex) as [n ->].
    reflexivity.
Qed.

Lemma initializeCSV_keeps_the_artifact_witness :
  let rows := String.append headerLine
                (String.append (str1 newline) "Guild,1,general,42,{}") in
  let p := "out/discord_messages_42.csv" in
  let fs := {| directories := ["out"]; files := [(p, rows)] |} in
  p = joinPlain "out" (csvFileName "42")
  /\ p = p
  /\ existsSync p fs = true
  /\ (forall text, fileText p fs = Some text -> fileText p fs = Some text)
  /\ exists fs2,
       initializeCSV joinPlain noIoFailure "out" "42" p fs
       = (Returned p, p, fs2)
       /\ fileText p fs2 = fileText p fs.
Proof.
  cbv zeta.
  assert (Hrun :
            initializeCSV joinPlain noIoFailure "out" "42" ""
              {| directories := ["out"];
                 files := [("out/discord_messages_42.csv",
                            String.append headerLine
                              (String.append (str1 newline)
                                 "Guild,1,general,42,{}"))] |}
            = (Returned "out/discord_messages_42.csv",
               "out/discord_messages_42.csv",
               {| directories := ["out"];
                  files := [("out/discord_messages_42.csv",
                             String.append headerLine
                               (String.append (str1 newline)
                                  "Guild,1,general,42,{}"))] |}))
    by (vm_compute; reflexivity).
  exact (initializeCSV_keeps_the_artifact joinPlain noIoFailure "out" "42" ""
           _ _ _ _ Hrun eq_refl).
Defined.

(** X12. A file initializeCSV creates holds exactly the header line, and the
    header reads back as the five column names; getCSVStats then reports an
    existing file of 51 bytes with 0 rows. *)
Theorem fresh_artifact_holds_the_header
    (path_join : string -> string -> string)
    (ioFailure : FsCall -> option Thrown)
    (outputDir channelId csvFilePath : string) (fs : FileSystem)
    (p p1 : string) (fs1 : FileSystem) :
  initializeCSV path_join ioFailure outputDir channelId csvFilePath fs
  = (Returned p, p1, fs1) ->
  existsSync p fs = false ->
  p <> outputDir ->
  ioFailure (StatFile p) = None ->
  ioFailure (ReadFile p) = None ->
  fileText p fs1 = Some (String.append headerLine (str1 newline))
  /\ parseCSV (String.append headerLine (str1 newline)) = Some [CSV_HEADERS]
  /\ getCSVStats ioFailure p fs1
     = {| filePath := p; fileExists := true; size := 51; sizeKB := "0.05";
          rowCount := 0 |}.
Proof.
  intros Hrun Hnew Hdir Hstat Hread.
  destruct (initializeCSV_returned _ _ _ _ _ _ _ _ _ Hrun)
    as (Hp & Hp1 & _ & fs0 & Hfs0 & Hcase).
  assert (H0 : existsSync p fs0 = false).
  { destruct Hfs0 as [->| ->]; [exact Hnew|].
    unfold existsSync, fileText in *. simpl.
    destruct (String.eqb p outputDir) eqn:E; [|exact Hnew].
    apply String.eqb_eq in E. congruence. }
  destruct Hcase as [[H _]|[_ ->]]; [congruence|].
  split; [apply fileText_withFile|]. split; [vm_compute; reflexivity|].
  unfold getCSVStats, statSize, readFileSync.
  rewrite existsSync_withFile, Hstat, Hread, fileText_withFile.
  vm_compute. reflexivity.
Qed.

Lemma fresh_artifact_holds_the_header_witness :
  let p := "out/discord_messages_42.csv" in
  let fs1 :=
    {| directories := ["out"];
       files := [("out/discord_messages_42.csv",
                  String.append headerLine (str1 newline))] |} in
  fileText p fs1 = Some (String.append headerLine (str1 newline))
  /\ parseCSV (String.append headerLine (str1 newline)) = Some [CSV_HEADERS]
  /\ getCSVStats noIoFailure p fs1
     = {| filePath := p; fileExists := true; size := 51; sizeKB := "0.05";
          rowCount := 0 |}.
Proof.
  cbv zeta.
  assert (Hrun : initializeCSV joinPlain noIoFailure "out" "42" "" emptyFs
                 = (Returned "out/discord_messages_42.csv",
                    "out/discord_messages_42.csv",
                    {| directories := ["out"];
                       files := [("out/discord_messages_42.csv",
                                  String.append headerLine (str1 newline))] |}))
    by (vm_compute; reflexivity).
  assert (Hnew : existsSync "out/discord_messages_42.csv" emptyFs = false)
    by reflexivity.
  assert (Hdir : "out/discord_messages_42.csv" <> "out") by discriminate.
  exact (fresh_artifact_holds_the_header joinPlain noIoFailure "out" "42" ""
           emptyFs _ _ _ Hrun Hnew Hdir eq_refl eq_refl).
Defined.

(* ------------------------------------------------------------------ *)
(** ** The artifact after appendMessages *)

Section FreshArtifact.

Variable JSON_stringify : DiscordMessage -> Thrown + string.
Variable appendFailure : nat -> option Thrown.
Variable metadata : ServerMetadata.

Lemma csvLines_cons msg msgs :
  csvLines JSON_stringify metadata (msg :: msgs)
  = String.append (rowToCSV (toCsvRow metadata (payloadOf JSON_stringify msg)))
      (String newline (csvLines JSON_stringify metadata msgs)).
Proof.
  change (msg :: msgs) with ([msg] ++ msgs). rewrite csvLines_app.
  unfold csvLines at 1. simpl. unfold csvLine. rewrite append_assoc.
  reflexivity.
Qed.






(** What appendMessages leaves when nothing fails. *)
Lemma appendMessages_all csvFilePath msgs disk result disk' :
  appendMessages JSON_stringify appendFailure csvFilePath msgs metadata disk
  = (Returned result, disk') ->
  noFailure JSON_stringify appendFailure msgs ->
  fileContent disk'
  = String.append (fileContent disk) (csvLines JSON_stringify metadata msgs)
  /\ appended result = Z.of_nat (List.length msgs)
  /\ appendErrors result = [].
Proof.
  unfold appendMessages. destruct (String.eqb csvFilePath ""); [discriminate|].
  destruct (appendLoop JSON_stringify appendFailure (S (List.length msgs)) 0
              msgs metadata disk 0 []) as [[d c] e] eqn:Hloop.
  intros H Hno. inversion H; subst. cbn [appended appendErrors].
  destruct (appendLoop_spec JSON_stringify appendFailure metadata msgs
              _ _ _ _ _ _ _ _ Hloop) as (written & _ & Hfile & Hcnt & Hall).
  destruct (Hall Hno ltac:(lia)) as [-> ->]. simpl skipn in *.
  repeat split; auto.
Qed.

End FreshArtifact.



(* ------------------------------------------------------------------ *)
(** ** Counting the rows *)

Lemma in_replaceQuotes c v :
  In c (chars (replaceQuotes v)) -> c = dquote \/ In c (chars v).
Proof.
  induction v as [|a v IH]; simpl; [tauto|].
  destruct (Ascii.eqb a dquote) eqn:E; simpl.
  - apply Ascii.eqb_eq in E. subst. intros [H|[H|H]]; auto.
    destruct (IH H); auto.
  - intros [H|H]; auto. destruct (IH H); auto.
Qed.

Lemma oneLine_escape v : oneLine v -> oneLine (escapeCSVField v).
Proof.
  unfold oneLine, escapeCSVField. intros H.
  destruct (includes v (str1 comma) || includes v (str1 dquote)
            || includes v (str1 newline)); [|exact H].
  change (chars (String dquote (String.append (replaceQuotes v) (str1 dquote))))
    with (dquote :: chars (String.append (replaceQuotes v) (str1 dquote))).
  rewrite chars_append. intros [Hx|Hx]; [discriminate Hx|].
  apply in_app_or in Hx. destruct Hx as [Hx|Hx].
  - apply in_replaceQuotes in Hx. destruct Hx as [Hx|Hx]; [discriminate Hx|].
    exact (H Hx).
  - simpl in Hx. destruct Hx as [Hx|[]]. discriminate Hx.
Qed.

Lemma oneLine_append a b : oneLine a -> oneLine b -> oneLine (String.append a b).
Proof.
  unfold oneLine. rewrite chars_append. intros Ha Hb H.
  apply in_app_or in H. tauto.
Qed.

Lemma rowToCSV_shape row :
  rowToCSV row
  = String.append (escapeCSVField (server_name row))
      (String comma
         (String.append (escapeCSVField (server_id row))
            (String comma
               (String.append (escapeCSVField (channel_name row))
                  (String comma
                     (String.append (escapeCSVField (channel_id row))
                        (String comma (escapeCSVField (data row))))))))).
Proof. reflexivity. Qed.

Lemma oneLine_comma s : oneLine s -> oneLine (String comma s).
Proof.
  unfold oneLine. intros H [Hx|Hx]; [discriminate Hx|]. exact (H Hx).
Qed.

Lemma oneLine_row row :
  oneLine (server_name row) -> oneLine (server_id row) ->
  oneLine (channel_name row) -> oneLine (channel_id row) ->
  oneLine (data row) ->
  oneLine (rowToCSV row).
Proof.
  intros. rewrite rowToCSV_shape.
  repeat (apply oneLine_append || apply oneLine_comma || apply oneLine_escape);
    assumption.
Qed.

Lemma comma_in_row row : In comma (chars (rowToCSV row)).
Proof.
  rewrite rowToCSV_shape, chars_append. apply in_or_app. right. left.
  reflexivity.
Qed.

Section RowCount.

Variable JSON_stringify : DiscordMessage -> Thrown + string.
Variable metadata : ServerMetadata.

Hypothesis metadata_oneLine :
  oneLine (serverName metadata) /\ oneLine (serverId metadata)
  /\ oneLine (channelName metadata) /\ oneLine (channelId metadata).

Lemma nonBlank_lines msgs :
  (forall msg, In msg msgs -> oneLine (payloadOf JSON_stringify msg)) ->
  List.length
    (filter nonBlank (splitLines (csvLines JSON_stringify metadata msgs)))
  = List.length msgs.
Proof.
  induction msgs as [|msg msgs IH]; intros H; [reflexivity|].
  rewrite csvLines_cons, splitLines_line.
  - cbn [filter]. unfold nonBlank at 1.
    rewrite (not_blank _ comma (comma_in_row _) eq_refl).
    cbn [List.length]. f_equal. apply IH. intros m Hm. apply H. right. exact Hm.
  - destruct metadata_oneLine as (H1 & H2 & H3 & H4).
    apply oneLine_row; cbn [toCsvRow server_name server_id channel_name
                            channel_id data]; auto.
    apply H. left. reflexivity.
Qed.

End RowCount.

(** X14. getCSVStats counts the messages: after initializeCSV has created
    the file and appendMessages has appended a list of messages without a
    failure, rowCount is the number of those messages, provided the metadata
    values and the serialized messages hold no line feed (the count is one of
    non-blank physical lines). *)
Theorem rowCount_counts_the_messages
    (path_join : string -> string -> string)
    (ioFailure : FsCall -> option Thrown)
    (JSON_stringify : DiscordMessage -> Thrown + string)
    (appendFailure : nat -> option Thrown)
    (outputDir channel csvFilePath : string) (fs : FileSystem)
    (p p1 : string) (fs1 : FileSystem)
    (msgs : list DiscordMessage) (metadata : ServerMetadata)
    (result : AppendResult) (disk' : Disk) :
  initializeCSV path_join ioFailure outputDir channel csvFilePath fs
  = (Returned p, p1, fs1) ->
  existsSync p fs = false ->
  p <> outputDir ->
  appendMessages JSON_stringify appendFailure p1 msgs metadata (diskOf p1 fs1)
  = (Returned result, disk') ->
  noFailure JSON_stringify appendFailure msgs ->
  ioFailure (StatFile p) = None ->
  ioFailure (ReadFile p) = None ->
  oneLine (serverName metadata) /\ oneLine (serverId metadata)
  /\ oneLine (channelName metadata) /\ oneLine (channelId metadata) ->
  (forall msg, In msg msgs -> oneLine (payloadOf JSON_stringify msg)) ->
  let stats := getCSVStats ioFailure p1 (withFile p1 (fileContent disk') fs1) in
  fileExists stats = true
  /\ rowCount stats = Z.of_nat (List.length msgs)
  /\ rowCount stats = appended result.
Proof.
  intros Hinit Hnew Hdir Happend Hno Hstat Hread Hmeta Hpay. cbv zeta.
  destruct (initializeCSV_returned _ _ _ _ _ _ _ _ _ Hinit)
    as (Hp & Hp1 & _ & fs0 & Hfs0 & Hcase).
  assert (H0 : existsSync p fs0 = false).
  { destruct Hfs0 as [->| ->]; [exact Hnew|].
    unfold existsSync, fileText in *. simpl.
    destruct (String.eqb p outputDir) eqn:E; [|exact Hnew].
    apply String.eqb_eq in E. congruence. }
  destruct Hcase as [[H _]|[_ Hfs1]]; [congruence|].
  destruct (appendMessages_all _ _ _ _ _ _ _ _ Happend Hno)
    as (Hfile & Hcnt & Herr).
  rewrite Hcnt. subst p1.
  unfold getCSVStats, statSize, readFileSync.
  rewrite existsSync_withFile, Hstat, Hread, fileText_withFile.
  cbn [fileExists rowCount]. split; [reflexivity|].
  assert (Hrows : rowCount
                    {| filePath := p; fileExists := true;
                       size := utf8Length (fileContent disk');
                       sizeKB := toFixed2 (utf8Length (fileContent disk'));
                       rowCount :=
                         Z.of_nat
                           (List.length
                              (filter nonBlank
                                 (splitLines (fileContent disk')))) - 1 |}
                  = Z.of_nat (List.length msgs)).
  { cbn [rowCount]. rewrite Hfile. unfold diskOf. cbn [fileContent].
    rewrite Hfs1, fileText_withFile.
    rewrite append_assoc.
    change (String.append (str1 newline)
              (csvLines JSON_stringify metadata msgs))
      with (String newline (csvLines JSON_stringify metadata msgs)).
    rewrite splitLines_line by (vm_compute; intuition discriminate).
    cbn [filter].
    replace (nonBlank headerLine) with true by (vm_compute; reflexivity).
    cbn [List.length].
    rewrite (nonBlank_lines JSON_stringify metadata Hmeta msgs Hpay). lia. }
  split; exact Hrows.
Qed.

Lemma rowCount_counts_the_messages_witness :
  let disk' :=
    snd (appendMessages Sample.stringify (fun _ => None)
           "out/discord_messages_42.csv" Sample.history Sample.metadata
           (diskOf "out/discord_messages_42.csv"
              (withFile "out/discord_messages_42.csv"
                 (String.append headerLine (str1 newline))
                 {| directories := ["out"]; files := [] |}))) in
  let stats :=
    getCSVStats noIoFailure "out/discord_messages_42.csv"
      (withFile "out/discord_messages_42.csv" (fileContent disk')
         (withFile "out/discord_messages_42.csv"
            (String.append headerLine (str1 newline))
            {| directories := ["out"]; files := [] |})) in
  fileExists stats = true
  /\ rowCount stats = Z.of_nat (List.length Sample.history)
  /\ rowCount stats = appended {| appended := 5; appendErrors := [] |}.
Proof.
  assert (Hrun : initializeCSV joinPlain noIoFailure "out" "42" "" emptyFs
                 = (Returned "out/discord_messages_42.csv",
                    "out/discord_messages_42.csv",
                    withFile "out/discord_messages_42.csv"
                      (String.append headerLine (str1 newline))
                      {| directories := ["out"]; files := [] |}))
    by (vm_compute; reflexivity).
  assert (Hnew : existsSync "out/discord_messages_42.csv" emptyFs = false)
    by reflexivity.
  assert (Hdir : "out/discord_messages_42.csv" <> "out") by discriminate.
  assert (Happend :
            appendMessages Sample.stringify (fun _ => None)
              "out/discord_messages_42.csv" Sample.history Sample.metadata
              (diskOf "out/discord_messages_42.csv"
                 (withFile "out/discord_messages_42.csv"
                    (String.append headerLine (str1 newline))
                    {| directories := ["out"]; files := [] |}))
            = (Returned {| appended := 5; appendErrors := [] |},
               snd (appendMessages Sample.stringify (fun _ => None)
                      "out/discord_messages_42.csv" Sample.history
                      Sample.metadata
                      (diskOf "out/discord_messages_42.csv"
                         (withFile "out/discord_messages_42.csv"
                            (String.append headerLine (str1 newline))
                            {| directories := ["out"]; files := [] |})))))
    by (vm_compute; reflexivity).
  assert (Hno : noFailure Sample.stringify (fun _ => None) Sample.history).
  { split; [|reflexivity]. intros msg _. eexists. reflexivity. }
  assert (Hmeta : oneLine (serverName Sample.metadata)
                  /\ oneLine (serverId Sample.metadata)
                  /\ oneLine (channelName Sample.metadata)
                  /\ oneLine (channelId Sample.metadata))
    by (unfold oneLine; vm_compute; intuition discriminate).
  assert (Hpay : forall msg, In msg Sample.history ->
                   oneLine (payloadOf Sample.stringify msg)).
  { intros msg Hin. unfold oneLine.
    repeat (destruct Hin as [<-|Hin]; [vm_compute; intuition discriminate|]).
    destruct Hin. }
  exact (rowCount_counts_the_messages joinPlain noIoFailure Sample.stringify
           (fun _ => None) "out" "42" "" emptyFs _ _ _ Sample.history
           Sample.metadata _ _ Hrun Hnew Hdir Happend Hno eq_refl eq_refl
           Hmeta Hpay).
Defined.

(* ------------------------------------------------------------------ *)
(** ** A blank artifact *)

Lemma splitLines_chars text :
  forall line c,
    In line (splitLines text) -> In c (chars line) -> In c (chars text).
Proof.
  induction text as [|a text IH]; intros line c Hl Hc.
  - simpl in Hl. destruct Hl as [<-|[]]. exact Hc.
  - cbn [splitLines] in Hl. destruct (Ascii.eqb a newline).
    + destruct Hl as [<-|Hl]; [destruct Hc|].
      right. exact (IH line c Hl Hc).
    + destruct (splitLines text) as [|l ls] eqn:E.
      * destruct Hl as [<-|[]]. simpl in Hc. destruct Hc as [<-|[]].
        left. reflexivity.
      * destruct Hl as [<-|Hl].
        -- simpl in Hc. destruct Hc as [<-|Hc]; [left; reflexivity|].
           right. apply (IH l c); [left; reflexivity|exact Hc].
        -- right. apply (IH line c); [right; exact Hl|exact Hc].
Qed.

(** X15. An artifact that exists but holds only white space (an empty file,
    for one) is reported with a rowCount of -1: the line count has 1
    subtracted for a header that is not there. *)
Theorem blank_artifact_counts_minus_one
    (ioFailure : FsCall -> option Thrown) (csvFilePath : string)
    (fs : FileSystem) (text : string) :
  fileText csvFilePath fs = Some text ->
  ioFailure (StatFile csvFilePath) = None ->
  ioFailure (ReadFile csvFilePath) = None ->
  forallb isWhiteSpace (chars text) = true ->
  getCSVStats ioFailure csvFilePath fs
  = {| filePath := csvFilePath; fileExists := true;
       size := utf8Length text; sizeKB := toFixed2 (utf8Length text);
       rowCount := -1 |}.
Proof.
  intros Htext Hstat Hread Hblank.
  unfold getCSVStats, statSize, readFileSync, existsSync.
  rewrite Htext, Hstat, Hread, orb_true_r.
  rewrite filter_none; [reflexivity|].
  intros line Hline. apply negb_false_iff, String.eqb_eq, trim_blank.
  apply forallb_forall. intros c Hc.
  rewrite forallb_forall in Hblank. apply Hblank.
  exact (splitLines_chars text line c Hline Hc).
Qed.

Lemma blank_artifact_counts_minus_one_witness :
  getCSVStats noIoFailure "out.csv" (withFile "out.csv" " " emptyFs)
  = {| filePath := "out.csv"; fileExists := true;
       size := utf8Length " "; sizeKB := toFixed2 (utf8Length " ");
       rowCount := -1 |}.
Proof.
  exact (blank_artifact_counts_minus_one noIoFailure "out.csv"
           (withFile "out.csv" " " emptyFs) " "
           eq_refl eq_refl eq_refl eq_refl).
Defined.

(* ------------------------------------------------------------------ *)
(** ** What appendMessages reports *)

Section Accounting.

Variable JSON_stringify : DiscordMessage -> Thrown + string.
Variable appendFailure : nat -> option Thrown.
Variable metadata : ServerMetadata.

Lemma appendLoop_accounts msgs :
  forall fuel i disk cnt errs disk' cnt' errs',
    appendLoop JSON_stringify appendFailure fuel i msgs metadata disk cnt errs
    = (disk', cnt', errs') ->
    (List.length msgs - i < fuel)%nat ->
    exists failed,
      errs' = errs ++ failed
      /\ cnt' - cnt + Z.of_nat (List.length failed)
         <= Z.of_nat (List.length msgs - i)
      /\ Z.of_nat (List.length msgs - i)
         <= cnt' - cnt + BATCH_INSERT_SIZE * Z.of_nat (List.length failed)
      /\ cnt <= cnt'.
Proof.
  unfold BATCH_INSERT_SIZE.
  induction fuel as [|fuel IH]; intros i disk cnt errs disk' cnt' errs' Hrun Hfuel;
    [lia|].
  cbn [appendLoop] in Hrun.
  destruct (i <? List.length msgs)%nat eqn:Hi.
  - apply Nat.ltb_lt in Hi. rewrite slice_batch in Hrun.
    change (Z.to_nat BATCH_INSERT_SIZE) with 100%nat in Hrun.
    assert (Hlen : List.length (firstn 100 (skipn i msgs))
                   = Nat.min 100 (List.length msgs - i))
      by (rewrite length_firstn, length_skipn; reflexivity).
    destruct (convertToCsvRows JSON_stringify (firstn 100 (skipn i msgs))
                metadata) as [x|rows].
    + destruct (IH _ _ _ _ _ _ _ Hrun ltac:(lia)) as (failed & -> & H1 & H2 & H3).
      exists (batchErrorText i x :: failed).
      split; [rewrite <- app_assoc; reflexivity|].
      cbn [List.length]. lia.
    + destruct (appendFailure (appendCalls disk)) as [x|].
      * destruct (IH _ _ _ _ _ _ _ Hrun ltac:(lia))
          as (failed & -> & H1 & H2 & H3).
        exists (batchErrorText i x :: failed).
        split; [rewrite <- app_assoc; reflexivity|].
        cbn [List.length]. lia.
      * destruct (IH _ _ _ _ _ _ _ Hrun ltac:(lia))
          as (failed & -> & H1 & H2 & H3).
        exists failed. split; [reflexivity|]. rewrite Hlen in *. lia.
  - inversion Hrun; subst. apply Nat.ltb_ge in Hi. exists [].
    rewrite app_nil_r. split; [reflexivity|]. cbn [List.length]. lia.
Qed.

End Accounting.

(** X16. appendMessages accounts for every message: the count it returns
    never exceeds the number of messages, each reported error stands for at
    least one and at most BATCH_INSERT_SIZE (100) messages that were not
    written, and the error list is empty exactly when the count is the number
    of messages. *)
Theorem appendMessages_accounts_for_every_message
    (JSON_stringify : DiscordMessage -> Thrown + string)
    (appendFailure : nat -> option Thrown)
    (csvFilePath : string) (msgs : list DiscordMessage)
    (metadata : ServerMetadata) (disk : Disk)
    (result : AppendResult) (disk' : Disk) :
  appendMessages JSON_stringify appendFailure csvFilePath msgs metadata disk
  = (Returned result, disk') ->
  let total := Z.of_nat (List.length msgs) in
  let failures := Z.of_nat (List.length (appendErrors result)) in
  0 <= appended result <= total
  /\ appended result + failures <= total
  /\ total <= appended result + BATCH_INSERT_SIZE * failures
  /\ (appendErrors result = [] <-> appended result = total).
Proof.
  unfold appendMessages. destruct (String.eqb csvFilePath ""); [discriminate|].
  destruct (appendLoop JSON_stringify appendFailure (S (List.length msgs)) 0
              msgs metadata disk 0 []) as [[d c] e] eqn:Hloop.
  intros H. inversion H; subst. cbn [appended appendErrors]. cbv zeta.
  destruct (appendLoop_accounts JSON_stringify appendFailure metadata msgs
              _ _ _ _ _ _ _ _ Hloop ltac:(lia))
    as (failed & -> & H1 & H2 & H3).
  cbn [app] in *. rewrite Nat.sub_0_r in *. unfold BATCH_INSERT_SIZE in *.
  split; [lia|]. split; [lia|]. split; [lia|].
  split.
  - intros ->. cbn [List.length] in *. lia.
  - intros Hc. destruct failed; [reflexivity|]. cbn [List.length] in *. lia.
Qed.

Lemma appendMessages_accounts_for_every_message_witness :
  let result :=
    {| appended := 0; appendErrors := ["Batch 1: ENOSPC: no space left"] |} in
  let total := Z.of_nat (List.length Sample.history) in
  let failures := Z.of_nat (List.length (appendErrors result)) in
  0 <= appended result <= total
  /\ appended result + failures <= total
  /\ total <= appended result + BATCH_INSERT_SIZE * failures
  /\ (appendErrors result = [] <-> appended result = total).
Proof.
  assert (Hrun :
            appendMessages Sample.stringify
              (fun _ => Some (JsError "ENOSPC: no space left"))
              "out.csv" Sample.history Sample.metadata Sample.emptyDisk
            = (Returned {| appended := 0;
                           appendErrors := ["Batch 1: ENOSPC: no space left"] |},
               {| fileContent := ""; appendCalls := 1 |}))
    by (vm_compute; reflexivity).
  exact (appendMessages_accounts_for_every_message Sample.stringify
           (fun _ => Some (JsError "ENOSPC: no space left"))
           "out.csv" Sample.history Sample.metadata Sample.emptyDisk _ _ Hrun).
Defined.

(* ------------------------------------------------------------------ *)
(** ** The input validators *)

Lemma digit_not_space c : isDigit c = true -> isWhiteSpace c = false.
Proof.
  unfold isDigit, isWhiteSpace. intros H.
  apply andb_true_iff in H. destruct H as [H1 H2].
  apply Nat.leb_le in H1, H2.
  destruct (Nat.leb 9 (nat_of_ascii c) && Nat.leb (nat_of_ascii c) 13) eqn:E1.
  { apply andb_true_iff in E1. destruct E1 as [_ E]. apply Nat.leb_le in E. lia. }
  destruct (Nat.eqb (nat_of_ascii c) 32) eqn:E2.
  { apply Nat.eqb_eq in E2. lia. }
  destruct (Nat.eqb (nat_of_ascii c) 160) eqn:E3.
  { apply Nat.eqb_eq in E3. lia. }
  reflexivity.
Qed.

Lemma digitsOnly_not_blank s :
  digitsOnly s = true ->
  String.eqb s "" = false /\ String.eqb (trim s) "" = false.
Proof.
  unfold digitsOnly. intros H. apply andb_true_iff in H. destruct H as [H1 H2].
  apply negb_true_iff in H1. split; [exact H1|].
  destruct s as [|c rest]; [discriminate|].
  simpl in H2. apply andb_true_iff in H2. destruct H2 as [Hc _].
  apply negb_true_iff.
  apply (not_blank (String c rest) c); [left; reflexivity|].
  apply digit_not_space, Hc.
Qed.

Lemma checked_valid errs warns :
  check_isValid (checked errs warns) = true <-> errs = [].
Proof.
  unfold checked. cbn [check_isValid]. destruct errs; simpl; split; congruence.
Qed.

Lemma validateServerId_valid s :
  check_isValid (validateServerId s) = true
  <-> digitsOnly s = true /\ (String.length s <= 20)%nat.
Proof.
  unfold validateServerId. rewrite checked_valid.
  destruct (digitsOnly s) eqn:Hd.
  - destruct (digitsOnly_not_blank s Hd) as [-> ->]. cbn [orb negb].
    destruct (Nat.ltb 20 (String.length s)) eqn:Hl.
    + apply Nat.ltb_lt in Hl. split; [discriminate|]. intros [_ H]. lia.
    + apply Nat.ltb_ge in Hl. split; auto.
  - destruct (String.eqb s "" || String.eqb (trim s) ""); cbn [negb];
      split; try discriminate; intros [H _]; discriminate.
Qed.

Lemma validateChannelId_valid s :
  check_isValid (validateChannelId s) = true
  <-> digitsOnly s = true /\ (String.length s <= 20)%nat.
Proof.
  unfold validateChannelId. rewrite checked_valid.
  destruct (digitsOnly s) eqn:Hd.
  - destruct (digitsOnly_not_blank s Hd) as [-> ->]. cbn [orb negb].
    destruct (Nat.ltb 20 (String.length s)) eqn:Hl.
    + apply Nat.ltb_lt in Hl. split; [discriminate|]. intros [_ H]. lia.
    + apply Nat.ltb_ge in Hl. split; auto.
  - destruct (String.eqb s "" || String.eqb (trim s) ""); cbn [negb];
      split; try discriminate; intros [H _]; discriminate.
Qed.

(** X17. validateServerId and validateChannelId accept exactly the strings
    of 1 to 20 decimal digits; they report at most one error and never a
    warning. *)
Theorem ids_are_short_digit_strings (value : string) :
  (check_isValid (validateServerId value) = true
   <-> digitsOnly value = true /\ (String.length value <= 20)%nat)
  /\ (check_isValid (validateChannelId value) = true
      <-> digitsOnly value = true /\ (String.length value <= 20)%nat)
  /\ (List.length (check_errors (validateServerId value)) <= 1)%nat
  /\ (List.length (check_errors (validateChannelId value)) <= 1)%nat
  /\ check_warnings (validateServerId value) = []
  /\ check_warnings (validateChannelId value) = [].
Proof.
  split; [apply validateServerId_valid|].
  split; [apply validateChannelId_valid|].
  unfold validateServerId, validateChannelId, checked.
  cbn [check_errors check_warnings].
  destruct (String.eqb value "" || String.eqb (trim value) "");
    destruct (negb (digitsOnly value));
    destruct (Nat.ltb 20 (String.length value)); simpl; repeat split; lia.
Qed.

Lemma validateToken_valid t :
  check_isValid (validateToken t) = true ->
  (50 <= String.length t)%nat /\ includes t " " = false
  /\ String.eqb t "" = false.
Proof.
  unfold validateToken. rewrite checked_valid.
  destruct (String.eqb t "") eqn:E1; cbn [orb]; [discriminate|].
  destruct (String.eqb (trim t) ""); [discriminate|].
  destruct (Nat.ltb (String.length t) 50) eqn:E2; [discriminate|].
  destruct (includes t " "); [discriminate|].
  apply Nat.ltb_ge in E2. auto.
Qed.

Lemma validateTimestamp_valid env ts :
  String.eqb ts "" = false ->
  check_errors (validateTimestamp env ts) = [] ->
  isoRegex ts || dateRegex ts = true
  /\ exists t, newDate env ts = Some t.
Proof.
  intros Hne. unfold validateTimestamp. rewrite Hne.
  cbn [checked check_errors]. intros H.
  apply app_eq_nil in H. destruct H as [H1 H2].
  split.
  - destruct (isoRegex ts); [reflexivity|].
    destruct (dateRegex ts); [reflexivity|]. discriminate.
  - destruct (newDate env ts); [eauto|discriminate].
Qed.

Lemma given_some s text :
  given s = Some text -> s = Some text /\ String.eqb text "" = false.
Proof.
  unfold given. destruct s as [x|]; [|discriminate].
  destruct (String.eqb x "") eqn:E; [discriminate|].
  intros H; inversion H; subst. auto.
Qed.

Lemma given_none env s : given s = None -> parseBound env s = None.
Proof.
  unfold given, parseBound. destruct s as [x|]; [|reflexivity].
  destruct (String.eqb x ""); [reflexivity|discriminate].
Qed.

Lemma given_bound env s text :
  given s = Some text -> parseBound env s = Some (newDate env text).
Proof.
  intros H. destruct (given_some _ _ H) as [-> Hne].
  unfold parseBound. rewrite Hne. reflexivity.
Qed.

(** X18. A configuration validateAllConfig accepts is fit for scrapeChannel:
    both ids are strings of 1 to 20 digits, the token has at least 50
    characters and no space, and the two time bounds scrapeChannel parses
    from the same strings are each either not set or a valid date written in
    one of the two accepted formats, the start not after the end. *)
Theorem validated_config_is_fit_for_the_scrape
    (env : Env) (server channel tok : string)
    (timestampStart timestampEnd : option string) :
  check_isValid
    (validateAllConfig env server channel tok timestampStart timestampEnd)
  = true ->
  (digitsOnly server = true /\ (String.length server <= 20)%nat)
  /\ (digitsOnly channel = true /\ (String.length channel <= 20)%nat)
  /\ ((50 <= String.length tok)%nat /\ includes tok " " = false)
  /\ exists lo hi,
       parseBound env timestampStart = bound lo
       /\ parseBound env timestampEnd = bound hi
       /\ (forall a b, lo = Some a -> hi = Some b -> a <= b)
       /\ (forall text, given timestampStart = Some text ->
             isoRegex text || dateRegex text = true)
       /\ (forall text, given timestampEnd = Some text ->
             isoRegex text || dateRegex text = true).
Proof.
  unfold validateAllConfig. rewrite checked_valid. intros H.
  assert (Hparts :
            check_errors (validateServerId server) = []
            /\ check_errors (validateChannelId channel) = []
            /\ check_errors (validateToken tok) = []
            /\ (forall text, given timestampStart = Some text ->
                  check_errors (validateTimestamp env text) = [])
            /\ (forall text, given timestampEnd = Some text ->
                  check_errors (validateTimestamp env text) = [])
            /\ (forall s e, given timestampStart = Some s ->
                  given timestampEnd = Some e ->
                  date_gt (newDate env s) (newDate env e) = false)).
  { destruct (given timestampStart) as [s|];
      destruct (given timestampEnd) as [e|];
      try destruct (date_gt (newDate env s) (newDate env e)) eqn:Hgt;
      repeat match goal with
             | Hx : _ ++ _ = [] |- _ =>
                 apply app_eq_nil in Hx; destruct Hx
             end;
      try discriminate;
      repeat split; auto; intros; congruence. }
  destruct Hparts as (Hs & Hc & Ht & Hstart & Hend & Hrange).
  split.
  { apply validateServerId_valid, checked_valid. unfold validateServerId in *.
    exact Hs. }
  split.
  { apply validateChannelId_valid, checked_valid. unfold validateChannelId in *.
    exact Hc. }
  split.
  { assert (Hv : check_isValid (validateToken tok) = true)
      by (unfold validateToken in *; apply checked_valid; exact Ht).
    destruct (validateToken_valid tok Hv) as (H1 & H2 & _). auto. }
  assert (Hlo : exists lo,
             parseBound env timestampStart = bound lo
             /\ (forall a, lo = Some a ->
                   exists text, given timestampStart = Some text
                                /\ newDate env text = Some a)).
  { destruct (given timestampStart) as [s|] eqn:Hg.
    - destruct (given_some _ _ Hg) as [_ Hne].
      destruct (validateTimestamp_valid env s Hne (Hstart s eq_refl))
        as (_ & t & Hd).
      exists (Some t). rewrite (given_bound env _ _ Hg), Hd.
      split; [reflexivity|]. intros a Ha. inversion Ha; subst. eauto.
    - exists None. rewrite (given_none env _ Hg). split; [reflexivity|].
      discriminate. }
  assert (Hhi : exists hi,
             parseBound env timestampEnd = bound hi
             /\ (forall b, hi = Some b ->
                   exists text, given timestampEnd = Some text
                                /\ newDate env text = Some b)).
  { destruct (given timestampEnd) as [s|] eqn:Hg.
    - destruct (given_some _ _ Hg) as [_ Hne].
      destruct (validateTimestamp_valid env s Hne (Hend s eq_refl))
        as (_ & t & Hd).
      exists (Some t). rewrite (given_bound env _ _ Hg), Hd.
      split; [reflexivity|]. intros a Ha. inversion Ha; subst. eauto.
    - exists None. rewrite (given_none env _ Hg). split; [reflexivity|].
      discriminate. }
  destruct Hlo as (lo & Hlo & Hlo'). destruct Hhi as (hi & Hhi & Hhi').
  exists lo, hi. split; [exact Hlo|]. split; [exact Hhi|].
  split.
  { intros a b Ha Hb.
    destruct (Hlo' a Ha) as (s & Hgs & Hds).
    destruct (Hhi' b Hb) as (e & Hge & Hde).
    specialize (Hrange s e Hgs Hge). rewrite Hds, Hde in Hrange.
    unfold date_gt, date_lt in Hrange. lia. }
  split.
  - intros text Hg. destruct (given_some _ _ Hg) as [_ Hne].
    apply (validateTimestamp_valid env text Hne (Hstart text Hg)).
  - intros text Hg. destruct (given_some _ _ Hg) as [_ Hne].
    apply (validateTimestamp_valid env text Hne (Hend text Hg)).
Qed.

Lemma validated_config_is_fit_for_the_scrape_witness :
  let tok := "MTIzNDU2Nzg5MDEyMzQ1Njc4.Gh7k2a.abcdefghijklmnopqrstuvwxyz012345" in
  (digitsOnly "1184093068289843260" = true
   /\ (String.length "1184093068289843260" <= 20)%nat)
  /\ (digitsOnly "1184093068289843263" = true
      /\ (String.length "1184093068289843263" <= 20)%nat)
  /\ ((50 <= String.length tok)%nat /\ includes tok " " = false)
  /\ exists lo hi,
       parseBound calendarEnv (Some "2026-01-27") = bound lo
       /\ parseBound calendarEnv (Some "2026-01-28T10:00:00Z") = bound hi
       /\ (forall a b, lo = Some a -> hi = Some b -> a <= b)
       /\ (forall text, given (Some "2026-01-27") = Some text ->
             isoRegex text || dateRegex text = true)
       /\ (forall text, given (Some "2026-01-28T10:00:00Z") = Some text ->
             isoRegex text || dateRegex text = true).
Proof.
  exact (validated_config_is_fit_for_the_scrape calendarEnv
           "1184093068289843260" "1184093068289843263"
           "MTIzNDU2Nzg5MDEyMzQ1Njc4.Gh7k2a.abcdefghijklmnopqrstuvwxyz012345"
           (Some "2026-01-27") (Some "2026-01-28T10:00:00Z") eq_refl).
Defined.

(* ------------------------------------------------------------------ *)
(** ** The session manager *)

Section SessionFacts.

Variable path_dirname : string -> string.
Variable ioFailure : FsCall -> option Thrown.
Variable JSON_parse : string -> Thrown + TokenConfig.
Variable JSON_stringify : string -> string -> string.

Lemma loadFromFile_returned sm fs t sm' :
  SessionManager.loadFromFile ioFailure JSON_parse sm fs = (Returned t, sm') ->
  String.eqb t "" = false /\ String.eqb (trim t) "" = false
  /\ SessionManager.token sm' = t
  /\ SessionManager.filePath sm' = SessionManager.filePath sm
  /\ exists text, fileText (SessionManager.filePath sm) fs = Some text.
Proof.
  unfold SessionManager.loadFromFile.
  destruct (readFileSync ioFailure (SessionManager.filePath sm) fs)
    as [e|text] eqn:Hread; [discriminate|].
  assert (Hfile : exists text0,
             fileText (SessionManager.filePath sm) fs = Some text0).
  { revert Hread. unfold readFileSync.
    destruct (ioFailure (ReadFile (SessionManager.filePath sm)));
      [discriminate|].
    destruct (fileText (SessionManager.filePath sm) fs);
      [eauto|discriminate]. }
  destruct (String.eqb (trim text) ""); [discriminate|].
  destruct (JSON_parse (trim text)) as [e|data]; [discriminate|].
  destruct (config_token data) as [tok|]; [|discriminate].
  destruct (String.eqb tok "") eqn:E1; [discriminate|].
  destruct (String.eqb (trim tok) "") eqn:E2; [discriminate|].
  intros H. inversion H; subst. auto.
Qed.

End SessionFacts.

(** What a call of loadOrCreateSession that returns has done. *)
Lemma loadOrCreateSession_returned
    (path_dirname : string -> string)
    (ioFailure : FsCall -> option Thrown)
    (JSON_parse : string -> Thrown + TokenConfig)
    (JSON_stringify : string -> string -> string)
    (tok : option string) (createdAt : string)
    (sm : SessionManager.State) (fs : FileSystem)
    (t : string) (sm' : SessionManager.State) (fs' : FileSystem) :
  SessionManager.loadOrCreateSession path_dirname ioFailure JSON_parse
    JSON_stringify tok createdAt sm fs = (Returned t, sm', fs') ->
  t <> ""
  /\ SessionManager.token sm' = t
  /\ SessionManager.getToken sm' = inr t
  /\ SessionManager.filePath sm' = SessionManager.filePath sm
  /\ (forall provided, given tok = Some provided -> t = provided)
  /\ (given tok = None ->
      exists text,
        fileText (SessionManager.filePath sm) fs = Some text
        /\ fileText (SessionManager.filePath sm) fs' = Some text).
Proof.
  unfold SessionManager.loadOrCreateSession.
  destruct (given tok) as [x|] eqn:Hg.
  - intros H. inversion H; subst. destruct (given_some _ _ Hg) as [_ Hne].
    assert (Hx : t <> "") by (apply String.eqb_neq; exact Hne).
    split; [exact Hx|]. split; [reflexivity|].
    split; [unfold SessionManager.getToken; cbn [SessionManager.token];
            rewrite Hne; reflexivity|].
    split; [reflexivity|]. split; [intros p Hp; congruence|discriminate].
  - destruct (existsSync (SessionManager.filePath sm) fs); [|discriminate].
    destruct (SessionManager.loadFromFile ioFailure JSON_parse sm fs)
      as [out sm1] eqn:Hload.
    intros H. inversion H; subst.
    destruct (loadFromFile_returned _ _ _ _ _ _ Hload)
      as (H1 & _ & H3 & H4 & text & Htext).
    split; [apply String.eqb_neq; exact H1|]. split; [exact H3|].
    split; [unfold SessionManager.getToken; rewrite H3, H1; reflexivity|].
    split; [exact H4|]. split; [discriminate|]. intros _. eauto.
Qed.

(** X19. A session that loads has a token: whenever loadOrCreateSession
    returns, the token it returns is not empty, it is the one the manager
    keeps and getToken hands out afterwards, and it is the provided token
    whenever one was provided, whatever the token file holds; without a
    provided token the token file is only read: it keeps its text. *)
Theorem loaded_token_is_never_empty
    (path_dirname : string -> string)
    (ioFailure : FsCall -> option Thrown)
    (JSON_parse : string -> Thrown + TokenConfig)
    (JSON_stringify : string -> string -> string)
    (tok : option string) (createdAt : string)
    (sm : SessionManager.State) (fs : FileSystem)
    (t : string) (sm' : SessionManager.State) (fs' : FileSystem) :
  SessionManager.loadOrCreateSession path_dirname ioFailure JSON_parse
    JSON_stringify tok createdAt sm fs = (Returned t, sm', fs') ->
  t <> ""
  /\ SessionManager.token sm' = t
  /\ SessionManager.getToken sm' = inr t
  /\ SessionManager.filePath sm' = SessionManager.filePath sm
  /\ (forall provided, given tok = Some provided -> t = provided)
  /\ (given tok = None ->
      exists text,
        fileText (SessionManager.filePath sm) fs = Some text
        /\ fileText (SessionManager.filePath sm) fs' = Some text).
Proof.
  unfold SessionManager.loadOrCreateSession.
  destruct (given tok) as [x|] eqn:Hg.
  - intros H. inversion H; subst. destruct (given_some _ _ Hg) as [_ Hne].
    assert (Hx : t <> "") by (apply String.eqb_neq; exact Hne).
    split; [exact Hx|]. split; [reflexivity|].
    split; [unfold SessionManager.getToken; cbn [SessionManager.token];
            rewrite Hne; reflexivity|].
    split; [reflexivity|]. split; [intros p Hp; congruence|discriminate].
  - destruct (existsSync (SessionManager.filePath sm) fs); [|discriminate].
    destruct (SessionManager.loadFromFile ioFailure JSON_parse sm fs)
      as [out sm1] eqn:Hload.
    intros H. inversion H; subst.
    destruct (loadFromFile_returned _ _ _ _ _ _ Hload)
      as (H1 & _ & H3 & H4 & text & Htext).
    split; [apply String.eqb_neq; exact H1|]. split; [exact H3|].
    split; [unfold SessionManager.getToken; rewrite H3, H1; reflexivity|].
    split; [exact H4|]. split; [discriminate|]. intros _. eauto.
Qed.

Lemma loaded_token_is_never_empty_witness :
  let sm' := {| SessionManager.token := sampleToken;
                SessionManager.filePath := FILE_PATHS.TOKEN_FILE;
                SessionManager.tokenConfig :=
                  Some {| config_token := TokenText sampleToken;
                          config_createdAt := None |} |} in
  let fs := withFile FILE_PATHS.TOKEN_FILE (writeConfig sampleToken "now")
              {| directories := [FILE_PATHS.SESSIONS_DIR]; files := [] |} in
  sampleToken <> ""
  /\ SessionManager.token sm' = sampleToken
  /\ SessionManager.getToken sm' = inr sampleToken
  /\ SessionManager.filePath sm'
     = SessionManager.filePath (SessionManager.create FILE_PATHS.TOKEN_FILE)
  /\ (forall provided, given None = Some provided -> sampleToken = provided)
  /\ (given None = None ->
      exists text,
        fileText
          (SessionManager.filePath (SessionManager.create FILE_PATHS.TOKEN_FILE))
          fs = Some text
        /\ fileText
             (SessionManager.filePath
                (SessionManager.create FILE_PATHS.TOKEN_FILE))
             fs = Some text).
Proof.
  cbv zeta.
  assert (Hrun :
            SessionManager.loadOrCreateSession dirnamePlain noIoFailure
              readConfig writeConfig None ""
              (SessionManager.create FILE_PATHS.TOKEN_FILE)
              (withFile FILE_PATHS.TOKEN_FILE (writeConfig sampleToken "now")
                 {| directories := [FILE_PATHS.SESSIONS_DIR]; files := [] |})
            = (Returned sampleToken,
               {| SessionManager.token := sampleToken;
                  SessionManager.filePath := FILE_PATHS.TOKEN_FILE;
                  SessionManager.tokenConfig :=
                    Some {| config_token := TokenText sampleToken;
                            config_createdAt := None |} |},
               withFile FILE_PATHS.TOKEN_FILE (writeConfig sampleToken "now")
                 {| directories := [FILE_PATHS.SESSIONS_DIR]; files := [] |}))
    by (vm_compute; reflexivity).
  exact (loaded_token_is_never_empty dirnamePlain noIoFailure readConfig
           writeConfig None ""
           (SessionManager.create FILE_PATHS.TOKEN_FILE) _ _ _ _ Hrun).
Defined.

(** X20. A saved token loads again: when a token that is not blank is
    provided and the token file can be written, read and parsed back, any
    session manager on the same file that later loads without a token gets
    exactly that token, and leaves the token file as it is. *)
Theorem saved_token_loads_again
    (path_dirname : string -> string)
    (ioFailure : FsCall -> option Thrown)
    (JSON_parse : string -> Thrown + TokenConfig)
    (JSON_stringify : string -> string -> string)
    (tok createdAt : string) (sm : SessionManager.State) (fs : FileSystem)
    (config : TokenConfig) :
  String.eqb (trim tok) "" = false ->
  ioFailure (Mkdir (path_dirname (SessionManager.filePath sm))) = None ->
  ioFailure (WriteFile (SessionManager.filePath sm)) = None ->
  ioFailure (ReadFile (SessionManager.filePath sm)) = None ->
  String.eqb (trim (JSON_stringify tok createdAt)) "" = false ->
  JSON_parse (trim (JSON_stringify tok createdAt)) = inr config ->
  config_token config = TokenText tok ->
  exists sm1 fs1,
    SessionManager.loadOrCreateSession path_dirname ioFailure JSON_parse
      JSON_stringify (Some tok) createdAt sm fs = (Returned tok, sm1, fs1)
    /\ forall sm2 later,
         SessionManager.filePath sm2 = SessionManager.filePath sm ->
         exists fs2,
           SessionManager.loadOrCreateSession path_dirname ioFailure
             JSON_parse JSON_stringify None later sm2 fs1
           = (Returned tok,
              {| SessionManager.token := tok;
                 SessionManager.filePath := SessionManager.filePath sm;
                 SessionManager.tokenConfig := Some config |},
              fs2)
           /\ fileText (SessionManager.filePath sm) fs1
              = Some (JSON_stringify tok createdAt)
           /\ fileText (SessionManager.filePath sm) fs2
              = Some (JSON_stringify tok createdAt).
Proof.
  intros Hblank Hmk Hwr Hrd Htext Hparse Htok.
  assert (Hne : String.eqb tok "" = false).
  { destruct (String.eqb tok "") eqn:E; [|reflexivity].
    apply String.eqb_eq in E. subst. discriminate Hblank. }
  unfold SessionManager.loadOrCreateSession at 1. cbn [given]. rewrite Hne.
  do 2 eexists. split; [reflexivity|].
  intros sm2 later Hpath.
  unfold SessionManager.loadOrCreateSession. cbn [given].
  unfold SessionManager.saveTokenToFile. cbn [SessionManager.filePath].
  unfold mkdirSync, writeFileSync. rewrite Hmk, Hwr.
  rewrite Hpath.
  assert (Hex : forall fs0,
             existsSync (SessionManager.filePath sm)
               (withFile (SessionManager.filePath sm)
                  (JSON_stringify tok createdAt) fs0) = true)
    by (intros; apply existsSync_withFile).
  assert (Hload : forall fs0,
             SessionManager.loadFromFile ioFailure JSON_parse sm2
               (withFile (SessionManager.filePath sm)
                  (JSON_stringify tok createdAt) fs0)
             = (Returned tok,
                {| SessionManager.token := tok;
                   SessionManager.filePath := SessionManager.filePath sm;
                   SessionManager.tokenConfig := Some config |})).
  { intros fs0. unfold SessionManager.loadFromFile, readFileSync.
    rewrite Hpath, Hrd, fileText_withFile, Htext, Hparse, Htok, Hne, Hblank.
    reflexivity. }
  destruct (negb (existsSync (path_dirname (SessionManager.filePath sm)) fs));
    rewrite Hex, Hload; eexists; (split; [reflexivity|]);
    rewrite fileText_withFile; auto.
Qed.

Lemma saved_token_loads_again_witness :
  exists sm1 fs1,
    SessionManager.loadOrCreateSession dirnamePlain noIoFailure readConfig
      writeConfig (Some sampleToken) "now"
      (SessionManager.create FILE_PATHS.TOKEN_FILE) emptyFs
    = (Returned sampleToken, sm1, fs1)
    /\ forall sm2 later,
         SessionManager.filePath sm2
         = SessionManager.filePath (SessionManager.create FILE_PATHS.TOKEN_FILE) ->
         exists fs2,
           SessionManager.loadOrCreateSession dirnamePlain noIoFailure
             readConfig writeConfig None later sm2 fs1
           = (Returned sampleToken,
              {| SessionManager.token := sampleToken;
                 SessionManager.filePath :=
                   SessionManager.filePath
                     (SessionManager.create FILE_PATHS.TOKEN_FILE);
                 SessionManager.tokenConfig :=
                   Some {| config_token := TokenText sampleToken;
                           config_createdAt := None |} |},
              fs2)
           /\ fileText
                (SessionManager.filePath
                   (SessionManager.create FILE_PATHS.TOKEN_FILE)) fs1
              = Some (writeConfig sampleToken "now")
           /\ fileText
                (SessionManager.filePath
                   (SessionManager.create FILE_PATHS.TOKEN_FILE)) fs2
              = Some (writeConfig sampleToken "now").
Proof.
  assert (H1 : String.eqb (trim sampleToken) "" = false)
    by (vm_compute; reflexivity).
  assert (H2 : String.eqb (trim (writeConfig sampleToken "now")) "" = false)
    by (vm_compute; reflexivity).
  assert (H3 : readConfig (trim (writeConfig sampleToken "now"))
               = inr {| config_token := TokenText sampleToken;
                        config_createdAt := None |})
    by (vm_compute; reflexivity).
  exact (saved_token_loads_again dirnamePlain noIoFailure readConfig
           writeConfig sampleToken "now"
           (SessionManager.create FILE_PATHS.TOKEN_FILE) emptyFs _
           H1 eq_refl eq_refl eq_refl H2 H3 eq_refl).
Defined.

(* ------------------------------------------------------------------ *)
(** ** The session validator *)

Lemma isSessionValid_true sm usersMe :
  SessionManager.isSessionValid sm usersMe = true
  <-> String.eqb (SessionManager.token sm) "" = false
      /\ exists r, usersMe = Replied r /\ replyOk r = true
                   /\ exists body, reply_body r = inr body.
Proof.
  unfold SessionManager.isSessionValid.
  destruct (String.eqb (SessionManager.token sm) "").
  { split; [discriminate|]. intros [H _]. discriminate. }
  destruct usersMe as [r|e].
  - destruct (replyOk r) eqn:Hok.
    + destruct (reply_body r) as [x|b] eqn:Hb.
      * split; [discriminate|].
        intros (_ & r' & Hr & _ & b & Hb'). inversion Hr; subst. congruence.
      * split; [|reflexivity]. intros _. split; [reflexivity|].
        exists r. repeat split; eauto.
    + destruct (reply_status r =? 401);
        (split; [discriminate|]);
        intros (_ & r' & Hr & Hk & _); inversion Hr; subst; congruence.
  - split; [discriminate|]. intros (_ & r & Hr & _). discriminate.
Qed.

Lemma validateChannelAccess_true sm probe :
  SessionValidator.hasAccess (SessionValidator.validateChannelAccess sm probe)
  = true
  <-> String.eqb (SessionManager.token sm) "" = false
      /\ exists r, probe = Replied r /\ replyOk r = true.
Proof.
  unfold SessionValidator.validateChannelAccess, SessionManager.getToken.
  destruct (String.eqb (SessionManager.token sm) "").
  { split; [discriminate|]. intros [H _]. discriminate. }
  destruct probe as [r|e].
  - destruct (replyOk r) eqn:Hok.
    + split; [|reflexivity]. intros _. split; [reflexivity|]. eauto.
    + destruct (reply_status r =? 403); [|destruct (reply_status r =? 404)];
        (split; [discriminate|]);
        intros (_ & r' & Hr & Hk); inversion Hr; subst; congruence.
  - split; [discriminate|]. intros (_ & r & Hr & _). discriminate.
Qed.

Lemma prefix_append (s rest : string) :
  String.prefix s (String.append s rest) = true.
Proof.
  induction s as [|c s IH]; [destruct rest; reflexivity|]. simpl.
  destruct (ascii_dec c c) as [_|Hc]; [exact IH|congruence].
Qed.

Lemma validateSession_true
    (path_dirname : string -> string)
    (ioFailure : FsCall -> option Thrown)
    (JSON_parse : string -> Thrown + TokenConfig)
    (JSON_stringify : string -> string -> string)
    (sm : SessionManager.State) (fs : FileSystem) (usersMe : Exchange unit) :
  let loaded :=
    SessionManager.loadOrCreateSession path_dirname ioFailure JSON_parse
      JSON_stringify None EmptyString sm fs in
  let session :=
    SessionValidator.validateSession path_dirname ioFailure JSON_parse
      JSON_stringify sm fs usersMe in
  snd session = snd (fst loaded)
  /\ (SessionValidator.sessionIsValid (fst session) = true
      <-> (exists tok, fst (fst loaded) = Returned tok)
          /\ (exists r, usersMe = Replied r /\ replyOk r = true
                        /\ exists body, reply_body r = inr body)).
Proof.
  cbv zeta. unfold SessionValidator.validateSession.
  destruct (SessionManager.loadOrCreateSession path_dirname ioFailure
              JSON_parse JSON_stringify None EmptyString sm fs)
    as [[[tok|e] sm1] fs1] eqn:Hload; cbn [fst snd].
  - destruct (loadOrCreateSession_returned _ _ _ _ _ _ _ _ _ _ _ Hload)
      as (Hne & Htok & _).
    apply String.eqb_neq in Hne. rewrite <- Htok in Hne.
    pose proof (isSessionValid_true sm1 usersMe) as Hs.
    destruct (SessionManager.isSessionValid sm1 usersMe);
      cbn [negb fst snd SessionValidator.sessionIsValid].
    + split; [reflexivity|]. split; [|reflexivity]. intros _.
      split; [eauto|]. apply Hs. reflexivity.
    + split; [reflexivity|]. split; [discriminate|].
      intros (_ & H). destruct Hs as [_ Hs]. exact (Hs (conj Hne H)).
  - split; [reflexivity|]. split; [discriminate|].
    intros ((tok & H) & _). discriminate H.
Qed.

(** X21. fullValidation passes exactly when the token file loads, users/@me
    answers with a success status and a readable body, and the exchange that
    asks the channel for one message answers with a success status; it then
    reports no error, and otherwise one or two. The two checks are made and
    reported independently, the session first: there is a session error
    exactly when the token file does not load or users/@me does not confirm
    the token, and a channel error exactly when the manager holds no token or
    the exchange with the channel does not answer with a success status. So
    a failed session check does not hide the channel error, and a manager
    that still holds a token passes the channel check on its own. *)
Theorem fullValidation_verdict
    (path_dirname : string -> string)
    (ioFailure : FsCall -> option Thrown)
    (JSON_parse : string -> Thrown + TokenConfig)
    (JSON_stringify : string -> string -> string)
    (sm : SessionManager.State) (fs : FileSystem)
    (usersMe probe : Exchange unit) :
  let loaded :=
    SessionManager.loadOrCreateSession path_dirname ioFailure JSON_parse
      JSON_stringify None EmptyString sm fs in
  let verdict :=
    fst (SessionValidator.fullValidation path_dirname ioFailure JSON_parse
           JSON_stringify sm fs usersMe probe) in
  let sessionOk :=
    (exists tok, fst (fst loaded) = Returned tok)
    /\ (exists r, usersMe = Replied r /\ replyOk r = true
                  /\ exists body, reply_body r = inr body) in
  let channelOk :=
    String.eqb (SessionManager.token (snd (fst loaded))) "" = false
    /\ (exists r, probe = Replied r /\ replyOk r = true) in
  (isValid verdict = true
   <-> (exists tok, fst (fst loaded) = Returned tok)
       /\ (exists r, usersMe = Replied r /\ replyOk r = true
                     /\ exists body, reply_body r = inr body)
       /\ (exists r, probe = Replied r /\ replyOk r = true))
  /\ (isValid verdict = true <-> validationErrors verdict = [])
  /\ (List.length (validationErrors verdict) <= 2)%nat
  /\ exists sessionErrors channelErrors,
       validationErrors verdict = sessionErrors ++ channelErrors
       /\ (sessionErrors = [] <-> sessionOk)
       /\ (channelErrors = [] <-> channelOk)
       /\ (forall e, In e sessionErrors ->
           sessionErrors = [e]
           /\ String.prefix "Session validation failed: " e = true)
       /\ (forall e, In e channelErrors ->
           channelErrors = [e]
           /\ String.prefix "Channel access validation failed: " e = true).
Proof.
  cbv zeta.
  destruct (validateSession_true path_dirname ioFailure JSON_parse
              JSON_stringify sm fs usersMe) as (Hsm & Hs).
  pose proof (validateChannelAccess_true
                (snd (fst (SessionManager.loadOrCreateSession path_dirname
                             ioFailure JSON_parse JSON_stringify None
                             EmptyString sm fs))) probe) as Hc.
  assert (Htoken :
            (exists tok,
                fst (fst (SessionManager.loadOrCreateSession path_dirname
                            ioFailure JSON_parse JSON_stringify None
                            EmptyString sm fs)) = Returned tok) ->
            String.eqb
              (SessionManager.token
                 (snd (fst (SessionManager.loadOrCreateSession path_dirname
                              ioFailure JSON_parse JSON_stringify None
                              EmptyString sm fs)))) "" = false).
  { destruct (SessionManager.loadOrCreateSession path_dirname ioFailure
                JSON_parse JSON_stringify None EmptyString sm fs)
      as [[out sm1] fs1] eqn:Hload.
    cbn [fst snd]. intros [tok ->].
    destruct (loadOrCreateSession_returned _ _ _ _ _ _ _ _ _ _ _ Hload)
      as (Hne & Htok & _).
    apply String.eqb_neq in Hne. rewrite Htok. exact Hne. }
  rewrite <- Hsm in Hc.
  unfold SessionValidator.fullValidation.
  destruct (SessionValidator.validateSession path_dirname ioFailure
              JSON_parse JSON_stringify sm fs usersMe) as [sv sm1].
  cbn [fst snd] in *. subst sm1.
  destruct (SessionValidator.sessionIsValid sv);
    destruct (SessionValidator.hasAccess _);
    cbn [negb fst isValid validationErrors app List.length Nat.eqb].
  - split; [|split; [tauto|split; [lia|]]].
    + split; [|reflexivity]. intros _.
      destruct Hs as [Hs _]. destruct (Hs eq_refl) as (H1 & H2).
      destruct Hc as [Hc _]. destruct (Hc eq_refl) as (_ & H3). auto.
    + exists [], []. split; [reflexivity|].
      split; [split; [intros _; apply Hs; reflexivity|reflexivity]|].
      split; [split; [intros _; apply Hc; reflexivity|reflexivity]|].
      split; intros e [].
  - split; [|split; [split; discriminate|split; [lia|]]].
    + split; [discriminate|]. intros (H1 & _ & H3).
      destruct Hc as [_ Hc]. exact (Hc (conj (Htoken H1) H3)).
    + eexists [], [_]. split; [reflexivity|].
      split; [split; [intros _; apply Hs; reflexivity|reflexivity]|].
      split; [split; [discriminate|
                      intros Hx; apply Hc in Hx; discriminate Hx]|].
      split; [intros e []|]. intros e [<-|[]]. split; [reflexivity|apply prefix_append].
  - split; [|split; [split; discriminate|split; [lia|]]].
    + split; [discriminate|]. intros (H1 & H2 & _).
      destruct Hs as [_ Hs]. exact (Hs (conj H1 H2)).
    + eexists [_], []. split; [reflexivity|].
      split; [split; [discriminate|
                      intros Hx; apply Hs in Hx; discriminate Hx]|].
      split; [split; [intros _; apply Hc; reflexivity|reflexivity]|].
      split; [|intros e []]. intros e [<-|[]]. split; [reflexivity|apply prefix_append].
  - split; [|split; [split; discriminate|split; [lia|]]].
    + split; [discriminate|]. intros (H1 & H2 & _).
      destruct Hs as [_ Hs]. exact (Hs (conj H1 H2)).
    + eexists [_], [_]. split; [reflexivity|].
      split; [split; [discriminate|
                      intros Hx; apply Hs in Hx; discriminate Hx]|].
      split; [split; [discriminate|
                      intros Hx; apply Hc in Hx; discriminate Hx]|].
      split; intros e [<-|[]]; (split; [reflexivity|apply prefix_append]).
Qed.

(* ------------------------------------------------------------------ *)
(** ** The input handler *)

Lemma required_three (a b c : string) (e : Thrown) (x input : UserInput) :
  (if String.eqb a "" || String.eqb b "" || String.eqb c ""
   then inl e else inr x) = inr input ->
  a <> "" /\ b <> "" /\ c <> "" /\ x = input.
Proof.
  destruct (String.eqb a "") eqn:E1; [discriminate|].
  destruct (String.eqb b "") eqn:E2; [discriminate|].
  destruct (String.eqb c "") eqn:E3; [discriminate|].
  cbn [orb]. intros H. inversion H; subst.
  apply String.eqb_neq in E1, E2, E3. auto.
Qed.

(** X22. getConfiguration prefers the environment: a value set in the
    environment is returned as it is; when the server id, the channel id and
    the token are all set there, nothing the user could type matters and the
    time bounds are those of the environment; and whenever a configuration is
    returned, its server id, channel id and token are not empty. *)
Theorem configuration_prefers_the_environment
    (answer : string -> string) (vars : ProcessEnv) (input : UserInput) :
  InputHandler.getConfiguration answer vars = inr input ->
  (input_serverId input <> "" /\ input_channelId input <> ""
   /\ input_token input <> "")
  /\ (forall value, given (DISCORD_SERVER_ID vars) = Some value ->
        input_serverId input = value)
  /\ (forall value, given (DISCORD_CHANNEL_ID vars) = Some value ->
        input_channelId input = value)
  /\ (forall value, given (DISCORD_TOKEN vars) = Some value ->
        input_token input = value)
  /\ (given (DISCORD_SERVER_ID vars) <> None ->
      given (DISCORD_CHANNEL_ID vars) <> None ->
      given (DISCORD_TOKEN vars) <> None ->
      input_timestampStart input = DISCORD_TIMESTAMP_START vars
      /\ input_timestampEnd input = DISCORD_TIMESTAMP_END vars
      /\ forall typed, InputHandler.getConfiguration typed vars = inr input).
Proof.
  unfold InputHandler.getConfiguration, InputHandler.orAsk.
  destruct (given (DISCORD_SERVER_ID vars)) as [s|] eqn:Hs;
    destruct (given (DISCORD_CHANNEL_ID vars)) as [c|] eqn:Hc;
    destruct (given (DISCORD_TOKEN vars)) as [t|] eqn:Ht;
    cbv beta iota zeta; intros H;
    apply required_three in H; destruct H as (E1 & E2 & E3 & <-);
    cbn [input_serverId input_channelId input_token input_timestampStart
         input_timestampEnd];
    (split; [auto|]);
    (split; [intros v Hv; congruence|]);
    (split; [intros v Hv; congruence|]);
    (split; [intros v Hv; congruence|]);
    intros H1 H2 H3; try congruence.
  split; [reflexivity|]. split; [reflexivity|]. intros typed.
  apply String.eqb_neq in E1, E2, E3. rewrite E1, E2, E3. reflexivity.
Qed.

Lemma configuration_prefers_the_environment_witness :
  let input :=
    {| input_serverId := "1184093068289843260";
       input_channelId := "1184093068289843263";
       input_token := sampleToken;
       input_timestampStart := None;
       input_timestampEnd := None |} in
  (input_serverId input <> "" /\ input_channelId input <> ""
   /\ input_token input <> "")
  /\ (forall value, given (DISCORD_SERVER_ID sampleVars) = Some value ->
        input_serverId input = value)
  /\ (forall value, given (DISCORD_CHANNEL_ID sampleVars) = Some value ->
        input_channelId input = value)
  /\ (forall value, given (DISCORD_TOKEN sampleVars) = Some value ->
        input_token input = value)
  /\ (given (DISCORD_SERVER_ID sampleVars) <> None ->
      given (DISCORD_CHANNEL_ID sampleVars) <> None ->
      given (DISCORD_TOKEN sampleVars) <> None ->
      input_timestampStart input = DISCORD_TIMESTAMP_START sampleVars
      /\ input_timestampEnd input = DISCORD_TIMESTAMP_END sampleVars
      /\ forall typed,
           InputHandler.getConfiguration typed sampleVars = inr input).
Proof.
  exact (configuration_prefers_the_environment (fun _ => EmptyString)
           sampleVars _ eq_refl).
Defined.

(* ------------------------------------------------------------------ *)
(** ** The program as a whole *)

(** A run that is aborted returns a result with an error. *)
Lemma aborted_result env fuel server c K ts te w :
  aborted env fuel c K ts te w ->
  exists res w',
    scrapeChannel env fuel server c K ts te w = (Some res, w')
    /\ errors res <> [].
Proof.
  unfold aborted, scrapeChannel.
  destruct (setupAuthentication env w) as [[[]|x] w1].
  - intros [Hv|(e & acc & ps & w2 & Hloop)].
    + rewrite Hv. simpl. do 2 eexists. split; [reflexivity|].
      cbn [errors]. destruct (validationErrors (validation env)); discriminate.
    + destruct (negb (isValid (validation env))).
      * do 2 eexists. split; [reflexivity|]. cbn [errors].
        destruct (validationErrors (validation env)); discriminate.
      * rewrite Hloop. do 2 eexists. split; [reflexivity|]. discriminate.
  - intros _. do 2 eexists. split; [reflexivity|]. discriminate.
Qed.



Section MainFacts.

Variable feed : Env.
Variable path_join : string -> string -> string.
Variable path_dirname : string -> string.
Variable ioFailure : FsCall -> option Thrown.
Variable JSON_parse : string -> Thrown + TokenConfig.
Variable JSON_stringify_config : string -> string -> string.
Variable JSON_stringify : DiscordMessage -> Thrown + string.
Variable appendFailure : nat -> option Thrown.
Variable answer : string -> string.
Variable vars : ProcessEnv.
Variables usersMe usersMeAgain probe : Exchange unit.
Variable guildExchange : string -> Exchange Info.
Variable channelExchange : string -> Exchange Info.
Variable createdAt : string.

(** The program and its parts at these oracles. *)
Local Notation "'program'" :=
  (main feed path_join path_dirname ioFailure JSON_parse JSON_stringify_config
     JSON_stringify appendFailure answer vars usersMe usersMeAgain probe
     guildExchange channelExchange createdAt) (only parsing).

Local Notation "'readyFor'" :=
  (prepare feed path_join path_dirname ioFailure JSON_parse
     JSON_stringify_config answer vars createdAt) (only parsing).

Local Notation "'scraped'" :=
  (scrape feed path_dirname ioFailure JSON_parse JSON_stringify_config
     usersMe usersMeAgain probe) (only parsing).

(** What [main] has checked and set up when it calls the scraper. *)
Lemma prepare_ready fs ready :
  readyFor fs = inr ready ->
  check_isValid
    (validateAllConfig feed (input_serverId (ready_input ready))
       (input_channelId (ready_input ready)) (input_token (ready_input ready))
       (input_timestampStart (ready_input ready))
       (input_timestampEnd (ready_input ready))) = true
  /\ ready_csvFilePath ready
     = path_join FILE_PATHS.EXPORTS_DIR
         (csvFileName (input_channelId (ready_input ready)))
  /\ existsSync (ready_csvFilePath ready) (ready_fs ready) = true
  /\ SessionManager.token (ready_session ready)
     = input_token (ready_input ready).
Proof.
  unfold prepare.
  destruct (ensureDirectory ioFailure _ fs) as [e|fs1]; [discriminate|].
  destruct (InputHandler.getConfiguration answer vars) as [e|input];
    [discriminate|].
  destruct (check_isValid (validateAllConfig feed _ _ _ _ _)) eqn:Hv;
    [|discriminate]. cbn [negb].
  destruct (ensureDirectory ioFailure FILE_PATHS.SESSIONS_DIR fs1)
    as [e|fs2]; [discriminate|].
  destruct (SessionManager.loadOrCreateSession _ _ _ _ _ _ _ fs2)
    as [[[tok|e] sm] fs3] eqn:Hload; [|discriminate].
  destruct (initializeCSV path_join ioFailure FILE_PATHS.EXPORTS_DIR
              (input_channelId input) EmptyString fs3)
    as [[[p|e] p1] fs4] eqn:Hinit; [|discriminate].
  intros H. inversion H; subst.
  cbn [ready_input ready_csvFilePath ready_fs ready_session].
  destruct (initializeCSV_returned _ _ _ _ _ _ _ _ _ Hinit)
    as (Hp & Hp1 & _ & fs0 & _ & Hcase).
  destruct (loadOrCreateSession_returned _ _ _ _ _ _ _ _ _ _ _ Hload)
    as (Hne & Htok & _ & _ & Hgiven & _).
  split; [exact Hv|]. split; [rewrite Hp1, Hp; reflexivity|].
  split.
  - subst p1. destruct Hcase as [[Hx ->]|[_ ->]];
      [exact Hx|apply existsSync_withFile].
  - rewrite Htok. apply Hgiven. unfold given.
    destruct (String.eqb (input_token input) "") eqn:E; [|reflexivity].
    exfalso.
    assert (Hval : check_isValid (validateToken (input_token input)) = true).
    { unfold validateAllConfig in Hv. apply checked_valid in Hv.
      apply checked_valid.
      destruct (given (input_timestampStart input));
        destruct (given (input_timestampEnd input));
        try destruct (date_gt _ _);
        repeat match goal with
               | Hx : _ ++ _ = [] |- _ =>
                   apply app_eq_nil in Hx; destruct Hx
               end; try discriminate; assumption. }
    destruct (validateToken_valid _ Hval) as (_ & _ & Hx). congruence.
Qed.

(** X23. The program drops partial results: when the scrape is aborted
    (authentication throws, validation fails, or an exception leaves the fetch
    loop), scrapeChannel still returns a result with an error, but main exits
    with code 1 before appendMessages: every file other than the log file is
    as it was when the scraper was called, so none of the messages of the
    result reaches the artifact. *)
Theorem main_drops_partial_results
    (fuel : nat) (start : Z) (fs : FileSystem) (ready : Ready) :
  readyFor fs = inr ready ->
  aborted
    (scraperEnv feed path_dirname ioFailure JSON_parse JSON_stringify_config
       usersMe usersMeAgain probe (ready_session ready) (ready_fs ready))
    fuel (input_channelId (ready_input ready)) 1000
    (input_timestampStart (ready_input ready))
    (input_timestampEnd (ready_input ready))
    (snd (setToken (SessionManager.token (ready_session ready))
            (initialWorld start))) ->
  exists res w fs',
    scraped fuel start ready = (Some res, w)
    /\ errors res <> []
    /\ program fuel start fs = Some (1, fs')
    /\ forall p,
         p <> path_join FILE_PATHS.LOGS_DIR "discord-scraper.log" ->
         fileText p fs' = fileText p (ready_fs ready).
Proof.
  intros Hready Habort.
  destruct (aborted_result _ _ (input_serverId (ready_input ready))
              _ _ _ _ _ Habort) as (res & w & Hrun & Herr).
  exists res, w, (ready_fs ready).
  split; [exact Hrun|]. split; [exact Herr|]. split; [|reflexivity].
  unfold main. rewrite Hready.
  unfold scrape in *.
  rewrite Hrun. unfold export.
  destruct (errors res); [congruence|]. reflexivity.
Qed.


(** X25. The exit code does not tell whether the messages were written:
    once the scraper has returned a result without an error and the artifact
    can be examined, main exits with code 0 whatever the serialization and
    the appends do, even when every batch fails and nothing is written. *)
Theorem main_succeeds_whatever_the_appends_do
    (fuel : nat) (start : Z) (fs : FileSystem) (ready : Ready)
    (res : ScraperResult) (w : World) :
  readyFor fs = inr ready ->
  scraped fuel start ready = (Some res, w) ->
  errors res = [] ->
  ready_csvFilePath ready <> "" ->
  ioFailure (StatFile (ready_csvFilePath ready)) = None ->
  exists fs', program fuel start fs = Some (0, fs').
Proof.
  intros Hready Hrun Herr Hpath Hstat.
  destruct (prepare_ready fs ready Hready) as (_ & _ & Hex & _).
  unfold main. rewrite Hready.
  rewrite Hrun. unfold export. rewrite Herr.
  cbn [List.length Nat.ltb Nat.leb].
  assert (Hinfo : forall exchange ident w0,
             exists info,
               getServerInfo exchange ident w0 = (Returned info, w0)).
  { intros exchange ident w0.
    unfold getServerInfo, tryCatch, getToken.
    unfold bind, getWorld, throw, ret. cbv beta iota.
    destruct (String.eqb (token w0) ""); [eauto|].
    destruct (exchange ident) as [r|e]; [|eauto].
    destruct (negb (replyOk r)); [eauto|].
    destruct (reply_body r); eauto. }
  destruct (Hinfo guildExchange (input_serverId (ready_input ready)) w)
    as [serverInfo ->].
  change (getChannelInfo channelExchange) with (getServerInfo channelExchange).
  destruct (Hinfo channelExchange (input_channelId (ready_input ready)) w)
    as [channelInfo ->].
  unfold appendToArtifact, appendMessages.
  apply String.eqb_neq in Hpath. rewrite Hpath.
  destruct (appendLoop _ _ _ _ _ _ _ _ _) as [[disk' cnt] errs].
  match goal with
  | |- context [statSize ioFailure ?p ?f] =>
      assert (Hx : existsSync p f = true);
        [|destruct (statSize_existing ioFailure p f Hstat Hx) as [n ->];
          eauto]
  end.
  destruct (String.eqb (fileContent disk') _); [exact Hex|].
  apply existsSync_withFile.
Qed.

Lemma ensureDirectory_files dir fs fs1 :
  ensureDirectory ioFailure dir fs = inr fs1 -> files fs1 = files fs.
Proof.
  unfold ensureDirectory, mkdirSync.
  destruct (negb (existsSync dir fs)); [|intros H; inversion H; reflexivity].
  destruct (ioFailure (Mkdir dir)); intros H; inversion H; reflexivity.
Qed.

(** X29. An input that fails validateAllConfig saves nothing: main exits
    with code 1 before the session manager and the CSV processor are made, so
    every file other than the log file is as it was: the rejected token is
    not saved and no artifact is created. *)
Theorem invalid_input_saves_nothing
    (fuel : nat) (start : Z) (fs : FileSystem) (input : UserInput) :
  InputHandler.getConfiguration answer vars = inr input ->
  check_isValid
    (validateAllConfig feed (input_serverId input) (input_channelId input)
       (input_token input) (input_timestampStart input)
       (input_timestampEnd input)) = false ->
  exists fs',
    program fuel start fs = Some (1, fs')
    /\ forall p,
         p <> path_join FILE_PATHS.LOGS_DIR "discord-scraper.log" ->
         fileText p fs' = fileText p fs.
Proof.
  intros Hinput Hbad. unfold main, prepare.
  destruct (ensureDirectory ioFailure _ fs) as [e|fs1] eqn:Hlog.
  - exists fs. split; reflexivity.
  - rewrite Hinput, Hbad. cbn [negb]. exists fs1.
    split; [reflexivity|]. intros p _. unfold fileText.
    rewrite (ensureDirectory_files _ _ _ Hlog). reflexivity.
Qed.

(** X30. The scraper signs in with the token file, not with the token in
    memory: when main cannot write the token file (the failure is swallowed
    with a warning) and an older token file is there, the session manager
    holds the token the user gave, but the loadOrCreateSession of
    setupAuthentication reads the file and the scraper goes on with the old
    token. *)
Theorem failed_save_signs_in_with_the_old_token
    (fs : FileSystem) (ready : Ready) (e : Thrown) (text : string)
    (config : TokenConfig) (old : string) :
  readyFor fs = inr ready ->
  ioFailure (WriteFile FILE_PATHS.TOKEN_FILE) = Some e ->
  ioFailure (ReadFile FILE_PATHS.TOKEN_FILE) = None ->
  ready_csvFilePath ready <> FILE_PATHS.TOKEN_FILE ->
  fileText FILE_PATHS.TOKEN_FILE fs = Some text ->
  String.eqb (trim text) "" = false ->
  JSON_parse (trim text) = inr config ->
  config_token config = TokenText old ->
  String.eqb (trim old) "" = false ->
  SessionManager.token (ready_session ready) = input_token (ready_input ready)
  /\ session
       (scraperEnv feed path_dirname ioFailure JSON_parse JSON_stringify_config
          usersMe usersMeAgain probe (ready_session ready) (ready_fs ready))
     = inr old.
Proof.
  intros Hready Hwrite Hread Hcsv Htext Hne Hparse Htok Hold.
  destruct (prepare_ready fs ready Hready) as (_ & _ & _ & Hmem).
  split; [exact Hmem|].
  assert (Hfile : fileText FILE_PATHS.TOKEN_FILE (ready_fs ready) = Some text
                  /\ SessionManager.filePath (ready_session ready)
                     = FILE_PATHS.TOKEN_FILE).
  { revert Hready. unfold prepare.
    destruct (ensureDirectory ioFailure _ fs) as [x|fs1] eqn:H1;
      [discriminate|].
    destruct (InputHandler.getConfiguration answer vars) as [x|input];
      [discriminate|].
    destruct (negb (check_isValid _)); [discriminate|].
    destruct (ensureDirectory ioFailure FILE_PATHS.SESSIONS_DIR fs1)
      as [x|fs2] eqn:H2; [discriminate|].
    destruct (SessionManager.loadOrCreateSession _ _ _ _ _ _ _ fs2)
      as [[[tok|x] sm] fs3] eqn:Hload; [|discriminate].
    destruct (initializeCSV path_join ioFailure FILE_PATHS.EXPORTS_DIR
                (input_channelId input) EmptyString fs3)
      as [[[p|x] p1] fs4] eqn:Hinit; [|discriminate].
    intros H. inversion H; subst. clear H.
    cbn [ready_fs ready_session ready_csvFilePath] in *.
    destruct (loadOrCreateSession_returned _ _ _ _ _ _ _ _ _ _ _ Hload)
      as (_ & _ & _ & Hpath & _).
    split; [|exact Hpath].
    assert (F3 : files fs3 = files fs).
    { rewrite <- (ensureDirectory_files _ _ _ H1),
              <- (ensureDirectory_files _ _ _ H2).
      revert Hload. unfold SessionManager.loadOrCreateSession.
      destruct (given (Some (input_token input))) as [t|].
      - unfold SessionManager.saveTokenToFile, writeFileSync, mkdirSync.
        cbn [SessionManager.filePath SessionManager.create].
        rewrite Hwrite.
        destruct (negb (existsSync _ fs2));
          [destruct (ioFailure (Mkdir _))|];
          intros H; inversion H; reflexivity.
      - destruct (existsSync _ fs2); [|discriminate].
        destruct (SessionManager.loadFromFile _ _ _ fs2).
        intros H; inversion H; reflexivity. }
    destruct (initializeCSV_returned _ _ _ _ _ _ _ _ _ Hinit)
      as (_ & Hp1 & _ & fs0 & Hfs0 & Hcase).
    assert (F0 : fileText FILE_PATHS.TOKEN_FILE fs0 = Some text).
    { unfold fileText in *.
      destruct Hfs0 as [->| ->]; cbn [files]; rewrite F3; exact Htext. }
    destruct Hcase as [[_ ->]|[_ ->]]; [exact F0|].
    rewrite fileText_withFile_other; [exact F0|].
    intros Hx. apply Hcsv. rewrite Hp1. symmetry. exact Hx. }
  destruct Hfile as [Hfile Hpath].
  unfold scraperEnv. cbn [session].
  unfold SessionManager.loadOrCreateSession. cbn [given].
  unfold existsSync. rewrite Hpath, Hfile, orb_true_r.
  unfold SessionManager.loadFromFile, readFileSync.
  rewrite Hpath, Hread, Hfile, Hne, Hparse, Htok.
  assert (Hold' : String.eqb old "" = false).
  { destruct (String.eqb old "") eqn:E; [|reflexivity].
    apply String.eqb_eq in E. subst. discriminate Hold. }
  rewrite Hold', Hold. reflexivity.
Qed.

End MainFacts.

Lemma aborted_by_loop env fuel c K ts te w w1 e acc ps w2 :
  setupAuthentication env w = (Returned tt, w1) ->
  scrapeLoop env fuel c K (parseBound env ts) (parseBound env te) []
    initialPagination w1 = (LoopThrew e, acc, ps, w2) ->
  aborted env fuel c K ts te w.
Proof.
  intros Hauth Hloop. unfold aborted. rewrite Hauth. right. eauto.
Qed.

Lemma main_drops_partial_results_witness :
  (exists res w fs',
     scrape Sample.brokenEnv dirnamePlain noIoFailure readConfig writeConfig
       accepted accepted accepted 10 0 sampleReadyState = (Some res, w)
     /\ errors res <> []
     /\ main Sample.brokenEnv joinPlain dirnamePlain noIoFailure readConfig
          writeConfig Sample.stringify (fun _ => None) (fun _ => EmptyString)
          sampleVars accepted accepted accepted
          (fun _ => named "Guild, the first") (fun _ => named "general")
          "2026-01-28T10:00:00.000Z" 10 0 emptyFs
        = Some (1, fs')
     /\ forall p,
          p <> joinPlain FILE_PATHS.LOGS_DIR "discord-scraper.log" ->
          fileText p fs' = fileText p (ready_fs sampleReadyState))
  /\ messages
       (resultOf (scrape Sample.brokenEnv dirnamePlain noIoFailure readConfig
                    writeConfig accepted accepted accepted 10 0
                    sampleReadyState))
     = [Sample.message 5 "50"; Sample.message 4 "40"]
  /\ fileText (ready_csvFilePath sampleReadyState)
       (snd (resultOfMain
               (main Sample.brokenEnv joinPlain dirnamePlain noIoFailure
                  readConfig writeConfig Sample.stringify (fun _ => None)
                  (fun _ => EmptyString) sampleVars accepted accepted accepted
                  (fun _ => named "Guild, the first")
                  (fun _ => named "general")
                  "2026-01-28T10:00:00.000Z" 10 0 emptyFs)))
     = Some (String.append headerLine (str1 newline)).
Proof.
  assert (Hready :
            prepare Sample.brokenEnv joinPlain dirnamePlain noIoFailure readConfig writeConfig
      (fun _ => EmptyString) sampleVars "2026-01-28T10:00:00.000Z" emptyFs
            = inr sampleReadyState)
    by (vm_compute; reflexivity).
  assert (Habort :
            aborted
              (scraperEnv Sample.brokenEnv dirnamePlain noIoFailure readConfig writeConfig
      accepted accepted accepted
                 (ready_session sampleReadyState) (ready_fs sampleReadyState))
              10 (input_channelId (ready_input sampleReadyState)) 1000
              (input_timestampStart (ready_input sampleReadyState))
              (input_timestampEnd (ready_input sampleReadyState))
              (snd (setToken
                      (SessionManager.token (ready_session sampleReadyState))
                      (initialWorld 0)))).
  { eapply aborted_by_loop; vm_compute; reflexivity. }
  split; [|split; vm_compute; reflexivity].
  exact (main_drops_partial_results Sample.brokenEnv joinPlain dirnamePlain noIoFailure
           readConfig writeConfig Sample.stringify (fun _ => None)
           (fun _ => EmptyString) sampleVars accepted accepted accepted
           (fun _ => named "Guild, the first") (fun _ => named "general")
           "2026-01-28T10:00:00.000Z" 10 0 emptyFs sampleReadyState Hready Habort).
Defined.


Lemma main_succeeds_whatever_the_appends_do_witness :
  exists fs',
    main Sample.env joinPlain dirnamePlain noIoFailure readConfig writeConfig
      Sample.stringify (fun _ => Some (JsError "ENOSPC: no space left")) (fun _ => EmptyString) sampleVars
      accepted accepted accepted (fun _ => named "Guild, the first")
      (fun _ => named "general") "2026-01-28T10:00:00.000Z" 10 0 emptyFs = Some (0, fs').
Proof.
  assert (Hready :
            prepare Sample.env joinPlain dirnamePlain noIoFailure readConfig writeConfig
      (fun _ => EmptyString) sampleVars "2026-01-28T10:00:00.000Z" emptyFs
            = inr sampleReadyState)
    by (vm_compute; reflexivity).
  assert (Hrun :
            scrape Sample.env dirnamePlain noIoFailure readConfig writeConfig
      accepted accepted accepted 10 0 sampleReadyState
            = (Some (resultOf (scrape Sample.env dirnamePlain noIoFailure readConfig writeConfig
      accepted accepted accepted 10 0 sampleReadyState)),
               snd (scrape Sample.env dirnamePlain noIoFailure readConfig writeConfig
      accepted accepted accepted 10 0 sampleReadyState)))
    by (vm_compute; reflexivity).
  assert (Herr :
            errors (resultOf (scrape Sample.env dirnamePlain noIoFailure readConfig writeConfig
      accepted accepted accepted 10 0 sampleReadyState)) = [])
    by (vm_compute; reflexivity).
  assert (Hpath : ready_csvFilePath sampleReadyState <> "") by discriminate.
  exact (main_succeeds_whatever_the_appends_do Sample.env joinPlain dirnamePlain noIoFailure
           readConfig writeConfig Sample.stringify (fun _ => Some (JsError "ENOSPC: no space left"))
           (fun _ => EmptyString) sampleVars accepted accepted accepted
           (fun _ => named "Guild, the first") (fun _ => named "general")
           "2026-01-28T10:00:00.000Z" 10 0 emptyFs sampleReadyState _ _ Hready Hrun Herr Hpath
           eq_refl).
Defined.

Lemma invalid_input_saves_nothing_witness :
  (exists fs',
     main Sample.env joinPlain dirnamePlain noIoFailure readConfig writeConfig
       Sample.stringify (fun _ => None) (fun _ => EmptyString) invalidVars
       accepted accepted accepted (fun _ => named "Guild, the first")
       (fun _ => named "general") "2026-01-28T10:00:00.000Z" 10 0 emptyFs
     = Some (1, fs')
     /\ forall p,
          p <> joinPlain FILE_PATHS.LOGS_DIR "discord-scraper.log" ->
          fileText p fs' = fileText p emptyFs)
  /\ fileText FILE_PATHS.TOKEN_FILE
       (snd (resultOfMain
               (main Sample.env joinPlain dirnamePlain noIoFailure readConfig
                  writeConfig Sample.stringify (fun _ => None)
                  (fun _ => EmptyString) invalidVars accepted accepted accepted
                  (fun _ => named "Guild, the first")
                  (fun _ => named "general")
                  "2026-01-28T10:00:00.000Z" 10 0 emptyFs)))
     = None.
Proof.
  assert (Hbad :
            check_isValid
              (validateAllConfig Sample.env "my-server" "1184093068289843263"
                 sampleToken None None) = false)
    by (vm_compute; reflexivity).
  split; [|vm_compute; reflexivity].
  exact (invalid_input_saves_nothing Sample.env joinPlain dirnamePlain
           noIoFailure readConfig writeConfig Sample.stringify (fun _ => None)
           (fun _ => EmptyString) invalidVars accepted accepted accepted
           (fun _ => named "Guild, the first") (fun _ => named "general")
           "2026-01-28T10:00:00.000Z" 10 0 emptyFs
           {| input_serverId := "my-server";
              input_channelId := "1184093068289843263";
              input_token := sampleToken;
              input_timestampStart := None;
              input_timestampEnd := None |}
           eq_refl Hbad).
Defined.

Lemma failed_save_signs_in_with_the_old_token_witness :
  SessionManager.token
    (ready_session (readyOf (prepare Sample.env joinPlain dirnamePlain tokenFileLocked readConfig
      writeConfig (fun _ => EmptyString) sampleVars
      "2026-01-28T10:00:00.000Z" staleFs)))
  = input_token
      (ready_input (readyOf (prepare Sample.env joinPlain dirnamePlain tokenFileLocked readConfig
      writeConfig (fun _ => EmptyString) sampleVars
      "2026-01-28T10:00:00.000Z" staleFs)))
  /\ session
       (scraperEnv Sample.env dirnamePlain tokenFileLocked readConfig
          writeConfig accepted accepted accepted
          (ready_session (readyOf (prepare Sample.env joinPlain dirnamePlain tokenFileLocked readConfig
      writeConfig (fun _ => EmptyString) sampleVars
      "2026-01-28T10:00:00.000Z" staleFs)))
          (ready_fs (readyOf (prepare Sample.env joinPlain dirnamePlain tokenFileLocked readConfig
      writeConfig (fun _ => EmptyString) sampleVars
      "2026-01-28T10:00:00.000Z" staleFs))))
     = inr olderToken.
Proof.
  assert (Hready :
            prepare Sample.env joinPlain dirnamePlain tokenFileLocked readConfig
      writeConfig (fun _ => EmptyString) sampleVars
      "2026-01-28T10:00:00.000Z" staleFs
            = inr (readyOf (prepare Sample.env joinPlain dirnamePlain tokenFileLocked readConfig
      writeConfig (fun _ => EmptyString) sampleVars
      "2026-01-28T10:00:00.000Z" staleFs)))
    by (vm_compute; reflexivity).
  assert (Hcsv :
            ready_csvFilePath (readyOf (prepare Sample.env joinPlain dirnamePlain tokenFileLocked readConfig
      writeConfig (fun _ => EmptyString) sampleVars
      "2026-01-28T10:00:00.000Z" staleFs))
            <> FILE_PATHS.TOKEN_FILE)
    by (vm_compute; discriminate).
  assert (Htext :
            fileText FILE_PATHS.TOKEN_FILE staleFs
            = Some (writeConfig olderToken "2025-12-01"))
    by reflexivity.
  assert (Hne : String.eqb (trim (writeConfig olderToken "2025-12-01")) ""
                = false)
    by (vm_compute; reflexivity).
  assert (Hparse : readConfig (trim (writeConfig olderToken "2025-12-01"))
                   = inr {| config_token := TokenText olderToken;
                            config_createdAt := None |})
    by (vm_compute; reflexivity).
  assert (Hold : String.eqb (trim olderToken) "" = false)
    by (vm_compute; reflexivity).
  exact (failed_save_signs_in_with_the_old_token Sample.env joinPlain
           dirnamePlain tokenFileLocked readConfig writeConfig
           (fun _ => EmptyString) sampleVars accepted accepted accepted
           "2026-01-28T10:00:00.000Z" staleFs _
           (JsError "EACCES: permission denied") _ _ olderToken
           Hready eq_refl eq_refl Hcsv Htext Hne Hparse eq_refl Hold).
Defined.

(* ------------------------------------------------------------------ *)
(** ** The pauses between pages *)

(** How often the loop has paused: once after every delivered page, but not
    after the page that ends the loop. *)
Lemma scrapeLoop_pacing env c K s e :
  forall fuel acc ps w exit acc' ps' w',
    hasMore ps = true ->
    scrapeLoop env fuel c K s e acc ps w = (exit, acc', ps', w') ->
    exists evs,
      trace w' = trace w ++ evs
      /\ (exit = LoopDone -> (1 <= List.length (pages evs))%nat)
      /\ sleeps Pagination evs
         = repeat PAGINATION_DELAY_MS
             (List.length (pages evs)
              - match exit with LoopDone => 1 | _ => 0 end).
Proof.
  induction fuel as [|fuel IH]; intros acc ps w exit acc' ps' w' Hmore Hrun.
  - simpl in Hrun. rewrite Hmore in Hrun. simpl in Hrun.
    inversion Hrun; subst. exists []. rewrite app_nil_r.
    split; [reflexivity|]. split; [discriminate|reflexivity].
  - simpl in Hrun. rewrite Hmore in Hrun. cbn [negb] in Hrun.
    cbv iota in Hrun.
    destruct (fetchMessageBatch env c MESSAGE_LIMITS.MAX (before ps) w)
      as [out w1] eqn:Hfetch.
    destruct (batch_events env c _ _ _ _ _ Hfetch)
      as (evs1 & [Htr1 _ _ _] & _ & Hpag1 & _ & Hout).
    destruct out as [batch|x].
    + destruct Hout as (pre & ev & -> & _ & _ & Hpages & _).
      destruct batch as [|first rest].
      * inversion Hrun; subst. exists (pre ++ [ev]).
        split; [exact Htr1|]. rewrite Hpages, Hpag1.
        split; [simpl; lia|reflexivity].
      * destruct ((K >? 0) && _) eqn:Htest.
        -- inversion Hrun; subst. exists (pre ++ [ev]).
           split; [exact Htr1|]. rewrite Hpages, Hpag1.
           split; [simpl; lia|reflexivity].
        -- assert (Hmore1 : hasMore (advance ps (first :: rest)
                                         (List.last rest first)) = true)
             by exact Hmore.
           try rewrite Hmore1 in Hrun; try rewrite Hmore in Hrun.
           destruct (IH _ _ _ _ _ _ _ Hmore1 Hrun) as (evs2 & Htr2 & Hone & Hsl).
           exists ((pre ++ [ev]) ++ [EvSleep Pagination PAGINATION_DELAY_MS]
                   ++ evs2).
           split.
           { rewrite Htr2. simpl. rewrite Htr1, <- !app_assoc. reflexivity. }
           rewrite pages_app, sleeps_app, Hpages, Hpag1.
           cbn [app pages sleeps List.length]. rewrite Hsl.
           split; [intros _; lia|].
           destruct exit.
           ++ specialize (Hone eq_refl).
              destruct (List.length (pages evs2)) as [|n]; [lia|].
              simpl. rewrite Nat.sub_0_r. reflexivity.
           ++ rewrite Nat.sub_0_r. reflexivity.
           ++ rewrite Nat.sub_0_r. reflexivity.
    + inversion Hrun; subst. exists evs1. split; [exact Htr1|].
      rewrite (inert_pages _ Hout), Hpag1.
      split; [discriminate|reflexivity].
Qed.

(** X9. The scraper pauses between pages and nowhere else: in a run that
    ends without an error the loop has slept PAGINATION_DELAY_MS (100ms)
    exactly once between two consecutive pages, and not after the last one;
    in a run that an error ends it has slept once after every page it was
    delivered. *)
Theorem one_pause_between_pages
    (env : Env) (fuel : nat) (server channel : string) (maxMessages : Z)
    (timestampStart timestampEnd : option string) (w : World)
    (res : ScraperResult) (w' : World) :
  scrapeChannel env fuel server channel maxMessages
    timestampStart timestampEnd w = (Some res, w') ->
  exists evs,
    trace w' = trace w ++ evs
    /\ sleeps Pagination evs
       = repeat PAGINATION_DELAY_MS
           (List.length (pages evs)
            - match errors res with [] => 1 | _ => 0 end).
Proof.
  unfold scrapeChannel.
  destruct (setupAuthentication env w) as [[[]|x] w1] eqn:Hauth;
    destruct (setupAuthentication_frame env w _ _ Hauth) as (Ht & _).
  - destruct (negb (isValid (validation env))).
    + intros H; inversion H; subst. exists []. rewrite app_nil_r.
      split; [exact Ht|]. cbn [errors].
      destruct (validationErrors (validation env)); reflexivity.
    + destruct (scrapeLoop env fuel channel maxMessages
                  (parseBound env timestampStart) (parseBound env timestampEnd)
                  [] initialPagination w1) as [[[exit acc] ps] w2] eqn:Hloop.
      destruct (scrapeLoop_pacing env channel maxMessages _ _ fuel []
                  initialPagination w1 _ _ _ _ eq_refl Hloop)
        as (evs & Htr & _ & Hsl).
      destruct exit; intros H; inversion H; subst; exists evs;
        (split; [rewrite Htr, Ht; reflexivity|exact Hsl]).
  - intros H; inversion H; subst. exists []. rewrite app_nil_r.
    split; [exact Ht|reflexivity].
Qed.

Lemma one_pause_between_pages_witness :
  exists evs,
    trace (snd sampleScrape) = trace (initialWorld 0) ++ evs
    /\ sleeps Pagination evs
       = repeat PAGINATION_DELAY_MS
           (List.length (pages evs)
            - match errors (resultOf sampleScrape) with [] => 1 | _ => 0 end).
Proof.
  assert (Hrun : scrapeChannel Sample.env 10 "server" "channel" 0 None None
                   (initialWorld 0)
                 = (Some (resultOf sampleScrape), snd sampleScrape))
    by (vm_compute; reflexivity).
  exact (one_pause_between_pages Sample.env 10 "server" "channel" 0 None None
           (initialWorld 0) _ _ Hrun).
Defined.

(* ------------------------------------------------------------------ *)
(** ** Server and channel info *)

(** X10. getServerInfo and getChannelInfo never throw and change nothing:
    they return the body of the answer when a token is loaded, the endpoint
    answers with a success status and the body can be read, and null in
    every other case; they take no slot of the rate window. *)
Theorem info_requests_never_throw
    (guildExchange channelExchange : string -> Exchange Info)
    (ident : string) (w : World) :
  (exists info,
      getServerInfo guildExchange ident w = (Returned info, w)
      /\ (forall body, info = Some body <->
            String.eqb (token w) "" = false
            /\ exists r, guildExchange ident = Replied r
                         /\ replyOk r = true /\ reply_body r = inr body))
  /\ (exists info,
         getChannelInfo channelExchange ident w = (Returned info, w)
         /\ (forall body, info = Some body <->
               String.eqb (token w) "" = false
               /\ exists r, channelExchange ident = Replied r
                            /\ replyOk r = true /\ reply_body r = inr body)).
Proof.
  assert (H : forall exchange,
             exists info,
               getServerInfo exchange ident w = (Returned info, w)
               /\ (forall body, info = Some body <->
                     String.eqb (token w) "" = false
                     /\ exists r, exchange ident = Replied r
                                  /\ replyOk r = true
                                  /\ reply_body r = inr body)).
  { intros exchange.
    unfold getServerInfo, tryCatch, getToken.
    unfold bind, getWorld, throw, ret. cbv beta iota.
    destruct (String.eqb (token w) "").
    { eexists. split; [reflexivity|]. intros body.
      split; [discriminate|]. intros [Hx _]. discriminate. }
    destruct (exchange ident) as [r|e].
    - destruct (replyOk r) eqn:Hok; cbn [negb].
      + destruct (reply_body r) as [x|body0] eqn:Hb.
        * eexists. split; [reflexivity|]. intros body.
          split; [discriminate|].
          intros (_ & r' & Hr & _ & Hb'). inversion Hr; subst. congruence.
        * eexists. split; [reflexivity|]. intros body. split.
          -- intros Hx. inversion Hx; subst. split; [reflexivity|].
             exists r. auto.
          -- intros (_ & r' & Hr & _ & Hb'). inversion Hr; subst. congruence.
      + eexists. split; [reflexivity|]. intros body.
        split; [discriminate|].
        intros (_ & r' & Hr & Hk & _). inversion Hr; subst. congruence.
    - eexists. split; [reflexivity|]. intros body.
      split; [discriminate|]. intros (_ & r & Hr & _). discriminate. }
  split; [apply H|].
  change (getChannelInfo channelExchange) with (getServerInfo channelExchange).
  apply H.
Qed.

(* ------------------------------------------------------------------ *)
(** ** The operation stack of the logger *)

Lemma find_closed name stack :
  find (fun op => String.eqb (op_name op) name) stack = None
  <-> closed name stack.
Proof.
  unfold closed. induction stack as [|op stack IH]; simpl.
  - split; [constructor|reflexivity].
  - destruct (String.eqb (op_name op) name) eqn:E.
    + split; [discriminate|]. intros H. inversion H; subst.
      apply String.eqb_eq in E. contradiction.
    + apply String.eqb_neq in E. rewrite IH. split.
      * intros H. constructor; assumption.
      * intros H. inversion H; assumption.
Qed.

Lemma others_closed name stack : closed name (others name stack).
Proof.
  unfold closed, others. apply Forall_forall. intros op Hop.
  apply filter_In in Hop. destruct Hop as [_ H].
  apply negb_true_iff, String.eqb_neq in H. exact H.
Qed.

Lemma others_of_closed name stack : closed name stack -> others name stack = stack.
Proof.
  unfold closed, others. induction 1 as [|op stack Hop _ IH]; [reflexivity|].
  simpl. apply String.eqb_neq in Hop. rewrite Hop. simpl. rewrite IH.
  reflexivity.
Qed.

Lemma others_idempotent name stack :
  others name (others name stack) = others name stack.
Proof. apply others_of_closed, others_closed. Qed.

Lemma find_after {A} (f : A -> bool) l l' :
  find f l = None -> find f (l ++ l') = find f l'.
Proof.
  induction l as [|a l IH]; simpl; [reflexivity|].
  destruct (f a); [discriminate|exact IH].
Qed.

Lemma withStack_same lg : Logger.withStack lg (Logger.operationStack lg) = lg.
Proof. destruct lg. reflexivity. Qed.

(** X26. logOperationEnd closes every open operation of that name at once
    and leaves those of other names as they are, in order; the duration it
    logs runs from the oldest start of that name; and an end for which no
    operation is open (a second end, for one) logs nothing and changes
    nothing. *)
Theorem operations_end_once
    (writeFailure : LogEntry -> option Thrown) (now : Z) (stamp : string)
    (operationName : string) (duration : Z) (context : option Context)
    (lg : Logger.State) :
  let ended :=
    Logger.logOperationEnd writeFailure now stamp operationName duration
      context lg in
  closed operationName (Logger.operationStack (fst ended))
  /\ others operationName (Logger.operationStack (fst ended))
     = others operationName (Logger.operationStack lg)
  /\ (forall later stamp' duration' context',
         Logger.logOperationEnd writeFailure later stamp' operationName
           duration' context' (fst ended) = (fst ended, []))
  /\ (closed operationName (Logger.operationStack lg) -> ended = (lg, []))
  /\ (forall oldest,
         find (fun op => String.eqb (op_name op) operationName)
              (Logger.operationStack lg) = Some oldest ->
         snd ended
         = Logger.info writeFailure stamp (fst ended)
             (String.append operationName "_SUCCESS")
             (Some (spread [("durationMs",
                             CNumber (now - op_startTime oldest))] context))).
Proof.
  cbv zeta. unfold Logger.logOperationEnd.
  destruct (find (fun op => String.eqb (op_name op) operationName)
                 (Logger.operationStack lg)) as [op|] eqn:Hfind;
    cbn [fst snd Logger.withStack Logger.operationStack].
  - fold (others operationName (Logger.operationStack lg)).
    split; [apply others_closed|]. split; [apply others_idempotent|].
    split.
    + intros later stamp' duration' context'.
      rewrite (proj2 (find_closed _ _) (others_closed _ _)). reflexivity.
    + split.
      * intros H. apply find_closed in H. congruence.
      * intros oldest Ho. inversion Ho; subst. reflexivity.
  - pose proof (proj1 (find_closed _ _) Hfind) as Hclosed.
    split; [exact Hclosed|]. split; [reflexivity|].
    split; [intros; rewrite Hfind; reflexivity|].
    split; [reflexivity|discriminate].
Qed.

(** X27. A start followed by its end restores the logger: when no operation
    of that name is open, logOperationStart and then logOperationEnd leave
    the logger as it was, and at a level that lets INFO through the two calls
    log NAME_START and NAME_SUCCESS, the latter with the time between the two
    calls as durationMs (first property of the context). *)
Theorem start_then_end_restores_the_logger
    (writeFailure : LogEntry -> option Thrown)
    (started ended : Z) (stamp stamp' : string) (operationName : string)
    (duration : Z) (context : option Context) (lg : Logger.State) :
  closed operationName (Logger.operationStack lg) ->
  let begun :=
    Logger.logOperationStart writeFailure started stamp operationName context
      lg in
  let done :=
    Logger.logOperationEnd writeFailure ended stamp' operationName duration
      None (fst begun) in
  fst done = lg
  /\ (Logger.level lg <= LOG_LEVELS.INFO ->
      snd begun
      = Logger.log writeFailure stamp lg "INFO"
          (String.append operationName "_START") context
      /\ snd done
         = Logger.log writeFailure stamp' lg "INFO"
             (String.append operationName "_SUCCESS")
             (Some [("durationMs", CNumber (ended - started))])).
Proof.
  intros Hclosed. cbv zeta.
  unfold Logger.logOperationStart, Logger.logOperationEnd.
  cbn [fst snd Logger.withStack Logger.operationStack].
  rewrite (find_after _ _ _ (proj2 (find_closed _ _) Hclosed)).
  cbn [find op_name]. rewrite String.eqb_refl.
  cbn [fst snd op_startTime spread Logger.withStack Logger.level
       Logger.logFilePath Logger.includeConsole Logger.includeFile
       Logger.includeTimestamp Logger.operationStack].
  rewrite filter_app.
  fold (others operationName (Logger.operationStack lg)).
  rewrite (others_of_closed _ _ Hclosed).
  cbn [filter op_name]. rewrite String.eqb_refl. cbn [negb].
  rewrite app_nil_r.
  split; [destruct lg; reflexivity|].
  intros Hlevel. unfold Logger.info, Logger.log.
  cbn [Logger.withStack Logger.level Logger.logFilePath Logger.includeConsole
       Logger.includeFile Logger.includeTimestamp Logger.operationStack].
  replace (Logger.level lg <=? LOG_LEVELS.INFO) with true
    by (symmetry; apply Z.leb_le; exact Hlevel).
  split; reflexivity.
Qed.

Lemma start_then_end_restores_the_logger_witness :
  let lg := Logger.create None in
  let begun :=
    Logger.logOperationStart (fun _ => None) 1000 "2026-01-28T10:00:01.000Z"
      "Discord Scraping" None lg in
  let done :=
    Logger.logOperationEnd (fun _ => None) 4500 "2026-01-28T10:00:04.500Z"
      "Discord Scraping" 0 None (fst begun) in
  fst done = lg
  /\ (Logger.level lg <= LOG_LEVELS.INFO ->
      snd begun
      = Logger.log (fun _ => None) "2026-01-28T10:00:01.000Z" lg "INFO"
          (String.append "Discord Scraping" "_START") None
      /\ snd done
         = Logger.log (fun _ => None) "2026-01-28T10:00:04.500Z" lg "INFO"
             (String.append "Discord Scraping" "_SUCCESS")
             (Some [("durationMs", CNumber (4500 - 1000))])).
Proof.
  assert (Hclosed : closed "Discord Scraping"
                      (Logger.operationStack (Logger.create None)))
    by constructor.
  exact (start_then_end_restores_the_logger (fun _ => None) 1000 4500
           "2026-01-28T10:00:01.000Z" "2026-01-28T10:00:04.500Z"
           "Discord Scraping" 0 None (Logger.create None) Hclosed).
Defined.

(* ------------------------------------------------------------------ *)
(** ** The level gate of the logger *)

(** X28. A logger made by the constructor never suppresses an error,
    whatever its level: error writes one line to every sink that is switched
    on. It suppresses info exactly at the levels WARN and ERROR, and with it
    the START and SUCCESS lines of the operations, whose ends still clear the
    stack. The legacy and the default constructor log at INFO. *)
Theorem errors_are_never_suppressed
    (writeFailure : LogEntry -> option Thrown)
    (config : option (LogConfig + string)) (stack : list Operation)
    (stamp message : string) (context : option Context) :
  let lg := Logger.withStack (Logger.create config) stack in
  Logger.error writeFailure stamp lg message context
  = Logger.log writeFailure stamp lg "ERROR" message context
  /\ List.length (Logger.log writeFailure stamp lg "ERROR" message context)
     = ((if Logger.includeConsole lg then 1 else 0)
        + (if Logger.includeFile lg then 1 else 0))%nat
  /\ (LOG_LEVELS.INFO < Logger.level lg
      <-> exists c, config = Some (inl c)
                    /\ (config_level c = LevelWarn
                        \/ config_level c = LevelError))
  /\ (LOG_LEVELS.INFO < Logger.level lg ->
      Logger.info writeFailure stamp lg message context = []
      /\ forall now name duration,
           snd (Logger.logOperationStart writeFailure now stamp name context
                  lg) = []
           /\ snd (Logger.logOperationEnd writeFailure now stamp name duration
                     context lg) = []
           /\ closed name
                (Logger.operationStack
                   (fst (Logger.logOperationEnd writeFailure now stamp name
                           duration context lg)))).
Proof.
  cbv zeta.
  assert (Hlevel : 0 <= Logger.level (Logger.create config) <= 3).
  { destruct config as [[[lv path console file times]|s]|];
      [destruct lv|..]; cbv; split; discriminate. }
  split.
  { unfold Logger.error. cbn [Logger.withStack Logger.level].
    replace (Logger.level (Logger.create config) <=? LOG_LEVELS.ERROR)
      with true
      by (symmetry; apply Z.leb_le; unfold LOG_LEVELS.ERROR; lia).
    reflexivity. }
  split.
  { unfold Logger.log.
    destruct (Logger.includeConsole _); destruct (Logger.includeFile _);
      reflexivity. }
  split.
  { cbn [Logger.withStack Logger.level]. unfold LOG_LEVELS.INFO. split.
    - destruct config as [[[lv path console file times]|s]|];
        [destruct lv|..]; cbv; try discriminate;
        intros _; eexists; split; try reflexivity; cbn; auto.
    - intros ([lv path console file times] & -> & [E|E]);
        cbn in E; subst lv; reflexivity. }
  intros Hhigh. cbn [Logger.withStack Logger.level] in Hhigh.
  assert (Hinfo : forall lg' m ctx,
             Logger.level lg' = Logger.level (Logger.create config) ->
             Logger.info writeFailure stamp lg' m ctx = []).
  { intros lg' m ctx E. unfold Logger.info. rewrite E.
    replace (Logger.level (Logger.create config) <=? LOG_LEVELS.INFO)
      with false by (symmetry; apply Z.leb_gt; exact Hhigh).
    reflexivity. }
  split; [apply Hinfo; reflexivity|].
  intros now name duration.
  split; [apply Hinfo; reflexivity|].
  unfold Logger.logOperationEnd.
  destruct (find _ _) eqn:Hfind; cbn [fst snd].
  - split; [apply Hinfo; reflexivity|].
    cbn [Logger.withStack Logger.operationStack]. apply others_closed.
  - split; [reflexivity|]. apply find_closed. exact Hfind.
Qed.
